(** * Project IRIS 2.0: the voice-command orchestration core

    A shallow embedding of
      - [hooks/useVoiceCommands.ts]  (the recognition lifecycle hook) and
      - [App.tsx]                    (the command coordinator and the two
                                      polling loops)
    together with the properties of the specification that concern them.

    Conventions.
      - A [useRef] cell is a field of the state record; a React [useState]
        cell is a field holding the latest value given to its setter, and a
        closure that reads the cell reads the value of the render it was
        created in (see [Render] in [App]).
      - Calls that leave the component (the platform engine, text to speech,
        the AI services, the sibling hooks) are recorded in a log, oldest
        first, so that "was called", "how often" and "in which order" are
        statements about that log.
      - [await] points are where the environment supplies a result; what
        the awaited call returns is an argument of the continuation or a
        field of the environment record [Env].
      - Strings are byte strings (the UTF-8 text); [toLowerCase] and [trim]
        act on the ASCII letters and the ASCII white space. *)

From Stdlib Require Import String Ascii List Bool Arith NArith Lia.
Import ListNotations.
Local Open Scope string_scope.

Set Implicit Arguments.

(* ===================================================================== *)
(** ** JavaScript string operations used by the source                    *)
(* ===================================================================== *)

Module JsString.

(** [c] is one of A..Z. *)
Definition isUpper (c : ascii) : bool :=
  let n := N_of_ascii c in (65 <=? n)%N && (n <=? 90)%N.

Definition lowerChar (c : ascii) : ascii :=
  if isUpper c then ascii_of_N (N_of_ascii c + 32) else c.

(** [s.toLowerCase()] *)
Fixpoint toLowerCase (s : string) : string :=
  match s with
  | EmptyString => EmptyString
  | String c s' => String (lowerChar c) (toLowerCase s')
  end.

(** White space removed by [trim]: TAB, LF, VT, FF, CR and SPACE. *)
Definition isWhite (c : ascii) : bool :=
  let n := N_of_ascii c in ((9 <=? n)%N && (n <=? 13)%N) || (n =? 32)%N.

Fixpoint trimStart (s : string) : string :=
  match s with
  | EmptyString => EmptyString
  | String c s' => if isWhite c then trimStart s' else s
  end.

Fixpoint trimEnd (s : string) : string :=
  match s with
  | EmptyString => EmptyString
  | String c s' =>
      match trimEnd s' with
      | EmptyString => if isWhite c then EmptyString else String c EmptyString
      | r => String c r
      end
  end.

(** [s.trim()] *)
Definition trim (s : string) : string := trimEnd (trimStart s).

(** [s.includes(w)]: [w] occurs in [s] at some position. *)
Fixpoint includes (s w : string) : bool :=
  String.prefix w s
  || match s with
     | EmptyString => false
     | String _ s' => includes s' w
     end.

(** The one-character string holding a double quote. *)
Definition dquote : string := String (ascii_of_nat 34) EmptyString.

(** Truthiness of a string: the empty string is falsy. *)
Definition truthy (s : string) : bool :=
  match s with EmptyString => false | _ => true end.

(** Truthiness of [string | null | undefined]. *)
Definition truthyOpt (o : option string) : bool :=
  match o with Some s => truthy s | None => false end.

End JsString.

(* ===================================================================== *)
(** ** hooks/useVoiceCommands.ts: the recognition lifecycle hook          *)
(* ===================================================================== *)

Module VoiceCommands.
Import JsString.

(** The messages the hook puts into its [error] state. *)
Inductive VoiceError : Type :=
| ErrMicDeniedSettings        (* "Microphone access denied. Please enable ..." *)
| ErrNoMicrophone             (* "No microphone found on your device." *)
| ErrMicrophone (msg : string)(* `Microphone error: ${err.message}` *)
| ErrEnablePermission         (* "Please enable microphone permission ..." *)
| ErrPermissionDenied         (* "Microphone permission denied. Please enable ..." *)
| ErrNetwork                  (* "Network error. Please check ..." *)
| ErrSpeech (code : string).  (* `Speech Error: ${event.error}` *)

(** Outcome of [navigator.mediaDevices.getUserMedia({ audio: true })];
    a rejection carries [err.name] and [err.message]. *)
Inductive Permission : Type :=
| Granted
| Rejected (name msg : string).

(** The callbacks handed to [setTimeout]. *)
Inductive TimerKind : Type :=
| TAutoRestart            (* onend, 500ms on mobile and 250ms otherwise *)
| TVisibilityResume       (* handleVisibilityChange, 300ms *)
| TRestart                (* restartListening, 100ms *)
| TResume                 (* resumeListening, 100ms *)
| TResumeAfterProcessing. (* resumeAfterProcessing, 300ms *)

Record Timer : Type := mkTimer {
  t_id : nat;
  t_kind : TimerKind;
  t_delay : nat
}.

(** What leaves the hook: calls on the platform engine and transcripts
    handed to [onTranscriptRef.current]. *)
Inductive Output : Type :=
| CallStart
| CallStop
| Delivered (transcript : string) (isFinal : bool) (confidence : N).

(** One entry of [event.results]: [isFinal] and its first alternative.
    The confidence is a number of thousandths; [None] is [undefined]. *)
Record SpeechResult : Type := mkResult {
  res_isFinal : bool;
  res_transcript : string;
  res_confidence : option N
}.

Record Hook : Type := mkHook {
  isMobileRef : bool;
  recognitionRef : bool;             (* recognitionRef.current is not null *)
  effectIsListening : bool;          (* isListening as closed over by the effect *)
  isListening : bool;
  error : option VoiceError;
  isStoppedManually : bool;
  isPaused : bool;
  isProcessingTranscript : bool;
  restartTimerRef : option nat;
  nextTimer : nat;                   (* the id the next setTimeout returns *)
  timers : list Timer;               (* pending callbacks *)
  calls : list Output                (* oldest first *)
}.

Definition set_isListening (b : bool) (s : Hook) : Hook :=
  mkHook (isMobileRef s) (recognitionRef s) (effectIsListening s) b (error s)
    (isStoppedManually s) (isPaused s) (isProcessingTranscript s)
    (restartTimerRef s) (nextTimer s) (timers s) (calls s).

Definition set_error (e : option VoiceError) (s : Hook) : Hook :=
  mkHook (isMobileRef s) (recognitionRef s) (effectIsListening s) (isListening s) e
    (isStoppedManually s) (isPaused s) (isProcessingTranscript s)
    (restartTimerRef s) (nextTimer s) (timers s) (calls s).

Definition set_isStoppedManually (b : bool) (s : Hook) : Hook :=
  mkHook (isMobileRef s) (recognitionRef s) (effectIsListening s) (isListening s)
    (error s) b (isPaused s) (isProcessingTranscript s)
    (restartTimerRef s) (nextTimer s) (timers s) (calls s).

Definition set_isPaused (b : bool) (s : Hook) : Hook :=
  mkHook (isMobileRef s) (recognitionRef s) (effectIsListening s) (isListening s)
    (error s) (isStoppedManually s) b (isProcessingTranscript s)
    (restartTimerRef s) (nextTimer s) (timers s) (calls s).

Definition set_isProcessingTranscript (b : bool) (s : Hook) : Hook :=
  mkHook (isMobileRef s) (recognitionRef s) (effectIsListening s) (isListening s)
    (error s) (isStoppedManually s) (isPaused s) b
    (restartTimerRef s) (nextTimer s) (timers s) (calls s).

Definition set_restartTimerRef (r : option nat) (s : Hook) : Hook :=
  mkHook (isMobileRef s) (recognitionRef s) (effectIsListening s) (isListening s)
    (error s) (isStoppedManually s) (isPaused s) (isProcessingTranscript s)
    r (nextTimer s) (timers s) (calls s).

Definition set_timers (n : nat) (ts : list Timer) (s : Hook) : Hook :=
  mkHook (isMobileRef s) (recognitionRef s) (effectIsListening s) (isListening s)
    (error s) (isStoppedManually s) (isPaused s) (isProcessingTranscript s)
    (restartTimerRef s) n ts (calls s).

Definition set_recognitionRef (b : bool) (s : Hook) : Hook :=
  mkHook (isMobileRef s) b (effectIsListening s) (isListening s)
    (error s) (isStoppedManually s) (isPaused s) (isProcessingTranscript s)
    (restartTimerRef s) (nextTimer s) (timers s) (calls s).

Definition output (o : Output) (s : Hook) : Hook :=
  mkHook (isMobileRef s) (recognitionRef s) (effectIsListening s) (isListening s)
    (error s) (isStoppedManually s) (isPaused s) (isProcessingTranscript s)
    (restartTimerRef s) (nextTimer s) (timers s) (calls s ++ [o]).

(** [recognitionRef.current?.start()].  When the engine is already
    starting the call throws [InvalidStateError]; every call site catches
    it and only writes to the console, so the call is all that is left. *)
Definition engineStart (s : Hook) : Hook :=
  if recognitionRef s then output CallStart s else s.

(** [recognitionRef.current?.stop()] *)
Definition engineStop (s : Hook) : Hook :=
  if recognitionRef s then output CallStop s else s.

(** [window.setTimeout(callback, delay)]: the id and the new state. *)
Definition setTimeout (k : TimerKind) (delay : nat) (s : Hook) : nat * Hook :=
  (nextTimer s,
   set_timers (S (nextTimer s)) (timers s ++ [mkTimer (nextTimer s) k delay]) s).

Definition dropTimer (id : nat) (ts : list Timer) : list Timer :=
  filter (fun t => negb (Nat.eqb (t_id t) id)) ts.

(** [clearTimeout(id)] *)
Definition clearTimeout (id : nat) (s : Hook) : Hook :=
  set_timers (nextTimer s) (dropTimer id (timers s)) s.

(** [if (restartTimerRef.current) clearTimeout(restartTimerRef.current)];
    timer ids start at 1, so a stored id is truthy. *)
Definition clearRestartTimer (s : Hook) : Hook :=
  match restartTimerRef s with
  | Some id => clearTimeout id s
  | None => s
  end.

(** The guard of the automatic restart. *)
Definition mayAutoRestart (s : Hook) : bool :=
  negb (isStoppedManually s) && negb (isPaused s)
  && negb (isProcessingTranscript s).

(** [recognition.onstart] *)
Definition onstart (s : Hook) : Hook :=
  set_error None (set_isListening true s).

(** [recognition.onend] *)
Definition onend (s : Hook) : Hook :=
  let s := set_isListening false s in
  let s := clearRestartTimer s in
  if mayAutoRestart s then
    let restartDelay := if isMobileRef s then 500 else 250 in
    let '(id, s) := setTimeout TAutoRestart restartDelay s in
    set_restartTimerRef (Some id) s
  else s.

(** [recognition.onerror] *)
Definition onerror (code : string) (s : Hook) : Hook :=
  if (code =? "not-allowed") || (code =? "service-not-allowed") then
    set_isListening false
      (set_error (Some ErrPermissionDenied) (set_isStoppedManually true s))
  else if code =? "network" then
    set_error (Some ErrNetwork) s
  else if (code =? "no-speech") || (code =? "audio-capture")
          || (code =? "aborted") then
    s
  else
    set_error (Some (ErrSpeech code)) s.

(** [event.results[event.results.length - 1]] *)
Definition lastResult (results : list SpeechResult) : option SpeechResult :=
  match rev results with
  | [] => None
  | r :: _ => Some r
  end.

(** [lastResult[0].transcript.trim().toLowerCase()] *)
Definition normalise (raw : string) : string := toLowerCase (trim raw).

(** [lastResult[0].confidence || 0] *)
Definition confidenceOf (r : SpeechResult) : N :=
  match res_confidence r with Some c => c | None => 0%N end.

(** [recognition.onresult].  [cb] is [onTranscriptRef.current], which the
    hook sets on every render and which is therefore never null.  An
    event without results makes [lastResult[0]] throw before any effect. *)
Definition onresult (cb : string -> bool -> N -> Hook -> Hook)
    (results : list SpeechResult) (s : Hook) : Hook :=
  match lastResult results with
  | None => s
  | Some r =>
      let transcript := normalise (res_transcript r) in
      let confidence := confidenceOf r in
      if res_isFinal r && truthy transcript then
        let s := if isMobileRef s
                 then engineStop (set_isProcessingTranscript true s)
                 else s in
        cb transcript true confidence s
      else if negb (res_isFinal r) && truthy transcript then
        cb transcript false confidence s
      else s
  end.

(** [handleVisibilityChange]; [hidden] is [document.hidden]. *)
Definition handleVisibilityChange (hidden : bool) (s : Hook) : Hook :=
  if hidden then
    if recognitionRef s && effectIsListening s
    then engineStop (set_isPaused true s)
    else s
  else
    if recognitionRef s && negb (isStoppedManually s)
    then snd (setTimeout TVisibilityResume 300 (set_isPaused false s))
    else s.

(** [startListening]; [p] is what the permission request resolves to. *)
Definition startListening (p : Permission) (s : Hook) : Hook :=
  let s := clearRestartTimer s in
  match p with
  | Rejected name _ =>
      if (name =? "NotAllowedError") || (name =? "PermissionDeniedError")
      then set_error (Some ErrEnablePermission) s
      else s
  | Granted =>
      let s := set_error None s in
      if recognitionRef s && negb (isListening s)
      then engineStart (set_isPaused false (set_isStoppedManually false s))
      else s
  end.

(** [stopListening] *)
Definition stopListening (s : Hook) : Hook :=
  let s := clearRestartTimer s in
  if recognitionRef s
  then engineStop (set_isPaused false (set_isStoppedManually true s))
  else s.

(** [restartListening] *)
Definition restartListening (s : Hook) : Hook :=
  if recognitionRef s
  then snd (setTimeout TRestart 100
              (set_isPaused false (set_isStoppedManually false s)))
  else s.

(** [pauseListening] *)
Definition pauseListening (s : Hook) : Hook :=
  if recognitionRef s && isListening s
  then engineStop (set_isPaused true s)
  else s.

(** [resumeListening] *)
Definition resumeListening (s : Hook) : Hook :=
  if recognitionRef s && negb (isListening s)
  then snd (setTimeout TResume 100 (set_isPaused false s))
  else s.

(** [resetError] *)
Definition resetError (s : Hook) : Hook :=
  set_isStoppedManually false (set_error None s).

(** [resumeAfterProcessing] *)
Definition resumeAfterProcessing (s : Hook) : Hook :=
  let s := set_isProcessingTranscript false s in
  if isMobileRef s && negb (isStoppedManually s) && negb (isPaused s)
  then snd (setTimeout TResumeAfterProcessing 300 s)
  else s.

(** The rejection branch of [requestMicrophonePermission], run on mount. *)
Definition permissionRejectedOnMount (name msg : string) (s : Hook) : Hook :=
  let s := set_isStoppedManually true s in
  if (name =? "NotAllowedError") || (name =? "PermissionDeniedError")
  then set_error (Some ErrMicDeniedSettings) s
  else if name =? "NotFoundError"
  then set_error (Some ErrNoMicrophone) s
  else set_error (Some (ErrMicrophone msg)) s.

(** The cleanup of the effect (unmount or language change). *)
Definition cleanup (s : Hook) : Hook :=
  let s := set_isStoppedManually true s in
  let s := clearRestartTimer s in
  if recognitionRef s
  then set_recognitionRef false (engineStop s)
  else s.

(** The body of a timer callback. *)
Definition runTimer (k : TimerKind) (s : Hook) : Hook :=
  match k with
  | TAutoRestart => if mayAutoRestart s then engineStart s else s
  | TVisibilityResume =>
      if negb (isStoppedManually s) then engineStart s else s
  | TRestart | TResume | TResumeAfterProcessing => engineStart s
  end.

Definition findTimer (id : nat) (ts : list Timer) : option Timer :=
  find (fun t => Nat.eqb (t_id t) id) ts.

(** The pending timer [id] expires: it leaves the queue and its callback
    runs.  An id that is not pending does nothing. *)
Definition fireTimer (id : nat) (s : Hook) : Hook :=
  match findTimer id (timers s) with
  | Some t => runTimer (t_kind t) (clearTimeout id s)
  | None => s
  end.

(** The hook right after the effect has run, before any event. *)
Definition mount (mobile : bool) : Hook :=
  mkHook mobile true false false None false false false None 1 [] [].

(** What can happen to a mounted hook. *)
Inductive Event : Type :=
| EvStart                               (* engine: onstart *)
| EvEnd                                 (* engine: onend *)
| EvError (code : string)               (* engine: onerror *)
| EvResult (results : list SpeechResult)(* engine: onresult *)
| EvTimer (id : nat)
| EvVisibility (hidden : bool)
| EvPermissionRejected (name msg : string)
| OpStart (p : Permission)
| OpStop
| OpRestart
| OpPause
| OpResume
| OpResetError
| OpResumeAfterProcessing
| OpCleanup.                              (* unmount or language change *)

(** The transcript callback seen from the hook alone: a delivery. *)
Definition deliver (t : string) (isFinal : bool) (c : N) (s : Hook) : Hook :=
  output (Delivered t isFinal c) s.

(** The engine's handlers are detached by [cleanup] together with the
    reference, so engine events reach the hook only while it is set. *)
Definition step (s : Hook) (e : Event) : Hook :=
  match e with
  | EvStart => if recognitionRef s then onstart s else s
  | EvEnd => if recognitionRef s then onend s else s
  | EvError code => if recognitionRef s then onerror code s else s
  | EvResult rs => if recognitionRef s then onresult deliver rs s else s
  | EvTimer id => fireTimer id s
  | EvVisibility h => handleVisibilityChange h s
  | EvPermissionRejected n m => permissionRejectedOnMount n m s
  | OpStart p => startListening p s
  | OpStop => stopListening s
  | OpRestart => restartListening s
  | OpPause => pauseListening s
  | OpResume => resumeListening s
  | OpResetError => resetError s
  | OpResumeAfterProcessing => resumeAfterProcessing s
  | OpCleanup => cleanup s
  end.

Definition run (s : Hook) (es : list Event) : Hook := fold_left step es s.

Definition isStart (o : Output) : bool :=
  match o with CallStart => true | _ => false end.

(** How often [start()] has been called on the engine. *)
Definition starts (s : Hook) : nat := length (filter isStart (calls s)).

(** Pending timer ids are ids that [setTimeout] has handed out. *)
Definition wf (s : Hook) : Prop :=
  Forall (fun t => t_id t < nextTimer s) (timers s).

(** What happens on its own between a final transcript and the resume
    signal: the engine ends or reports an error, or a restart timer set by
    [onend] expires. *)
Inductive auto_step : Hook -> Hook -> Prop :=
| auto_end s : auto_step s (onend s)
| auto_error code s : auto_step s (onerror code s)
| auto_timer id t s :
    findTimer id (timers s) = Some t -> t_kind t = TAutoRestart ->
    auto_step s (fireTimer id s).

Inductive auto_run : Hook -> Hook -> Prop :=
| auto_done s : auto_run s s
| auto_more s1 s2 s3 : auto_step s1 s2 -> auto_run s2 s3 -> auto_run s1 s3.

End VoiceCommands.

(* ===================================================================== *)
(** ** App.tsx: the command coordinator and the polling loops             *)
(* ===================================================================== *)

Module App.
Import JsString.

(** Modelled from the spec: the enumeration [AppState] of [types.ts], a file
    that is not among the sources.  Its members are the eight busy states of
    the specification, under the names App.tsx uses for them. *)
Inductive AppState : Type :=
| IDLE
| INTERPRETING_COMMAND
| ANALYZING
| AWAITING_FOLLOWUP
| SAVING_ITEM_LISTEN
| FINDING_ITEM
| LIVE_COMMENTARY
| MANAGING_ITEMS.

(** Modelled from the spec: the enumeration [ActionType] of
    [components/Controls], a file that is not among the sources.  Its
    members are the structured actions App.tsx dispatches on. *)
Inductive ActionType : Type :=
| DESCRIBE_SCENE
| READ_TEXT
| IDENTIFY_PEOPLE
| CHECK_HAZARDS
| ANALYZE_TERRAIN
| SAVE_ITEM
| ACT_LIVE_COMMENTARY          (* ActionType.LIVE_COMMENTARY *)
| FIND_ITEM
| MANAGE_ITEMS
| HELP
| ASK_QUESTION
| ASK_GEMINI
| DELETE_ITEM
| CLOSE_MANAGEMENT
| STOP
| UNKNOWN.

Definition Image : Type := string.          (* a data URL *)
Definition History : Type := list string.   (* GeminiContent[] *)

Record PersonalItem : Type := mkItem {
  item_name : string;
  item_imageData : Image
}.

(** [payload?: any] as far as App.tsx reads it. *)
Record Payload : Type := mkPayload {
  itemName : option string;
  query : option string
}.

(** What [interpretCommand] resolves to when it is not null. *)
Record Interpretation : Type := mkInterpretation {
  action : option ActionType;     (* [None]: the field is missing *)
  payload : option Payload
}.

(** A thrown value: an [Error] object, a string, or anything else. *)
Inductive JsError : Type :=
| ErrorObject (message : string)
| ThrownString (s : string)
| ThrownOther.

(** The settlement of a promise, or of a call that may throw. *)
Inductive Res (A : Type) : Type :=
| Ok (a : A)
| Fail (e : JsError).
Arguments Ok {A} a.
Arguments Fail {A} e.

(** Calls that leave the coordinator, writes and loop-checkpoint reads of
    the two loop flags, and timers the loops wait for. *)
Inductive Effect : Type :=
| ECancel
| ESpeak (text : string)
| EInterpretCommand (text : string) (names : list string) (st : AppState)
| EListenForInput
| EAskGemini (q : string)
| EDescribeScene (img : Image)
| EReadText (img : Image)
| EIdentifyPeople (img : Image)
| ECheckHazards (img : Image)
| EAnalyzeTerrain (img : Image)
| EQuickFrame (img : Image)
| EFindObject (img : Image) (item : string)
| EFollowUp (img : Image) (h : History) (q : string)
| EGetHelp
| ESaveItem (it : PersonalItem)
| EGetItems
| EDeleteItem (name : string)
| ECaptureFrame
| EStartListening
| EStopListening
| EPauseListening
| EResumeListening
| EResumeAfterProcessing
| EStartVisualizer
| EStopVisualizer
| ESetLiveActive (b : bool)
| ESetFindingActive (b : bool)
| ECheckLive (b : bool)
| ECheckFinding (b : bool)
| ESetTimeout (ms : nat)
| EConsoleError.

Record World : Type := mkWorld {
  appState : AppState;
  isLive : bool;
  isLiveActive : bool;                    (* isLiveActive.current *)
  isFindingActive : bool;                 (* isFindingActive.current *)
  findingItemName : option string;
  lastResponse : string;
  error : option string;
  lastAnalyzedImage : option Image;
  conversationHistory : History;
  personalItems : list PersonalItem;
  isVoiceCommandActive : bool;
  isCameraReady : bool;
  captured : nat;                         (* calls of captureFrame so far *)
  trace : list Effect                     (* oldest first *)
}.

Definition set_appState (v : AppState) (w : World) : World :=
  mkWorld v (isLive w) (isLiveActive w) (isFindingActive w) (findingItemName w)
    (lastResponse w) (error w) (lastAnalyzedImage w) (conversationHistory w)
    (personalItems w) (isVoiceCommandActive w) (isCameraReady w) (captured w)
    (trace w).

Definition set_isLive (v : bool) (w : World) : World :=
  mkWorld (appState w) v (isLiveActive w) (isFindingActive w) (findingItemName w)
    (lastResponse w) (error w) (lastAnalyzedImage w) (conversationHistory w)
    (personalItems w) (isVoiceCommandActive w) (isCameraReady w) (captured w)
    (trace w).

Definition set_isLiveActive (v : bool) (w : World) : World :=
  mkWorld (appState w) (isLive w) v (isFindingActive w) (findingItemName w)
    (lastResponse w) (error w) (lastAnalyzedImage w) (conversationHistory w)
    (personalItems w) (isVoiceCommandActive w) (isCameraReady w) (captured w)
    (trace w).

Definition set_isFindingActive (v : bool) (w : World) : World :=
  mkWorld (appState w) (isLive w) (isLiveActive w) v (findingItemName w)
    (lastResponse w) (error w) (lastAnalyzedImage w) (conversationHistory w)
    (personalItems w) (isVoiceCommandActive w) (isCameraReady w) (captured w)
    (trace w).

Definition set_findingItemName (v : option string) (w : World) : World :=
  mkWorld (appState w) (isLive w) (isLiveActive w) (isFindingActive w) v
    (lastResponse w) (error w) (lastAnalyzedImage w) (conversationHistory w)
    (personalItems w) (isVoiceCommandActive w) (isCameraReady w) (captured w)
    (trace w).

Definition set_lastResponse (v : string) (w : World) : World :=
  mkWorld (appState w) (isLive w) (isLiveActive w) (isFindingActive w)
    (findingItemName w) v (error w) (lastAnalyzedImage w) (conversationHistory w)
    (personalItems w) (isVoiceCommandActive w) (isCameraReady w) (captured w)
    (trace w).

Definition set_error (v : option string) (w : World) : World :=
  mkWorld (appState w) (isLive w) (isLiveActive w) (isFindingActive w)
    (findingItemName w) (lastResponse w) v (lastAnalyzedImage w)
    (conversationHistory w) (personalItems w) (isVoiceCommandActive w)
    (isCameraReady w) (captured w) (trace w).

Definition set_lastAnalyzedImage (v : option Image) (w : World) : World :=
  mkWorld (appState w) (isLive w) (isLiveActive w) (isFindingActive w)
    (findingItemName w) (lastResponse w) (error w) v (conversationHistory w)
    (personalItems w) (isVoiceCommandActive w) (isCameraReady w) (captured w)
    (trace w).

Definition set_conversationHistory (v : History) (w : World) : World :=
  mkWorld (appState w) (isLive w) (isLiveActive w) (isFindingActive w)
    (findingItemName w) (lastResponse w) (error w) (lastAnalyzedImage w) v
    (personalItems w) (isVoiceCommandActive w) (isCameraReady w) (captured w)
    (trace w).

Definition set_personalItems (v : list PersonalItem) (w : World) : World :=
  mkWorld (appState w) (isLive w) (isLiveActive w) (isFindingActive w)
    (findingItemName w) (lastResponse w) (error w) (lastAnalyzedImage w)
    (conversationHistory w) v (isVoiceCommandActive w) (isCameraReady w)
    (captured w) (trace w).

Definition set_isVoiceCommandActive (v : bool) (w : World) : World :=
  mkWorld (appState w) (isLive w) (isLiveActive w) (isFindingActive w)
    (findingItemName w) (lastResponse w) (error w) (lastAnalyzedImage w)
    (conversationHistory w) (personalItems w) v (isCameraReady w)
    (captured w) (trace w).

Definition set_isCameraReady (v : bool) (w : World) : World :=
  mkWorld (appState w) (isLive w) (isLiveActive w) (isFindingActive w)
    (findingItemName w) (lastResponse w) (error w) (lastAnalyzedImage w)
    (conversationHistory w) (personalItems w) (isVoiceCommandActive w) v
    (captured w) (trace w).

Definition set_captured (v : nat) (w : World) : World :=
  mkWorld (appState w) (isLive w) (isLiveActive w) (isFindingActive w)
    (findingItemName w) (lastResponse w) (error w) (lastAnalyzedImage w)
    (conversationHistory w) (personalItems w) (isVoiceCommandActive w)
    (isCameraReady w) v (trace w).

Definition set_trace (v : list Effect) (w : World) : World :=
  mkWorld (appState w) (isLive w) (isLiveActive w) (isFindingActive w)
    (findingItemName w) (lastResponse w) (error w) (lastAnalyzedImage w)
    (conversationHistory w) (personalItems w) (isVoiceCommandActive w)
    (isCameraReady w) (captured w) v.

(** The values a closure of one render reads from the React state. *)
Record Render : Type := mkRender {
  r_appState : AppState;
  r_isLive : bool;
  r_personalItems : list PersonalItem;
  r_lastAnalyzedImage : option Image;
  r_conversationHistory : History;
  r_isVoiceCommandActive : bool;
  r_isCameraReady : bool
}.

(** The render in which a transcript or a button press is handled. *)
Definition render (w : World) : Render :=
  mkRender (appState w) (isLive w) (personalItems w) (lastAnalyzedImage w)
    (conversationHistory w) (isVoiceCommandActive w) (isCameraReady w).

(** The collaborators: what each call returns or settles to. *)
Record Env : Type := mkEnv {
  captureFrameResult : nat -> option Image;   (* by number of the call *)
  interpretCommand :
    string -> list string -> AppState -> Res (option Interpretation);
  listenForInput : Res string;
  askGemini : string -> Res string;
  describeScene : Image -> Res (string * History);
  readTextFromImage : Image -> Res (string * History);
  identifyPeople : Image -> Res (string * History);
  checkForHazards : Image -> Res (string * History);
  analyzeTerrain : Image -> Res string;
  askFollowUpQuestion : Image -> History -> string -> Res (string * History);
  getHelp : Res string;
  db_saveItem : PersonalItem -> Res unit;
  db_getItems : list PersonalItem;
  db_deleteItem : string -> Res (list PersonalItem)
}.

(** *** Control: a run returns, throws, or never gets to its next [await] *)

Inductive Outcome (A : Type) : Type :=
| Ret (a : A)
| Throw (e : JsError)
| Spin.
Arguments Ret {A} a.
Arguments Throw {A} e.
Arguments Spin {A}.

Definition M (A : Type) : Type := World -> Outcome A * World.

Definition ret {A : Type} (a : A) : M A := fun w => (Ret a, w).

Definition bind {A B : Type} (m : M A) (k : A -> M B) : M B :=
  fun w =>
    match m w with
    | (Ret a, w') => k a w'
    | (Throw e, w') => (Throw e, w')
    | (Spin, w') => (Spin, w')
    end.

Definition throw {A : Type} (e : JsError) : M A := fun w => (Throw e, w).

Definition spin {A : Type} : M A := fun w => (Spin, w).

Declare Scope js_scope.
Delimit Scope js_scope with js.
Notation "x <- m ;; k" := (bind m (fun x => k))
  (at level 61, m at next level, right associativity) : js_scope.
Notation "m ;; k" := (bind m (fun _ => k))
  (at level 61, right associativity) : js_scope.
Local Open Scope js_scope.

(** [try { m } catch (err) { h err }] *)
Definition tryCatch {A : Type} (m : M A) (h : JsError -> M A) : M A :=
  fun w =>
    match m w with
    | (Throw e, w') => h e w'
    | r => r
    end.

(** [try { m } finally { f }]: [f] runs however [m] ends, unless [m]
    never ends. *)
Definition tryFinally {A : Type} (m : M A) (f : M unit) : M A :=
  fun w =>
    match m w with
    | (Spin, w') => (Spin, w')
    | (r, w') =>
        match f w' with
        | (Ret _, w'') => (r, w'')
        | (Throw e, w'') => (Throw e, w'')
        | (Spin, w'') => (Spin, w'')
        end
    end.

Definition read {A : Type} (f : World -> A) : M A := fun w => (Ret (f w), w).

Definition modify (f : World -> World) : M unit := fun w => (Ret tt, f w).

Definition emit (e : Effect) : M unit :=
  modify (fun w => set_trace (trace w ++ [e]) w).

Definition when (b : bool) (m : M unit) : M unit := if b then m else ret tt.

(** A call that is recorded and then returns or throws; with [await], a
    promise that resolves or rejects. *)
Definition call {A : Type} (e : Effect) (r : Res A) : M A :=
  emit e ;; match r with Ok a => ret a | Fail err => throw err end.

Definition cancel : M unit := emit ECancel.
Definition speak (text : string) : M unit := emit (ESpeak text).
Definition setAppState (v : AppState) : M unit := modify (set_appState v).
Definition setIsLive (v : bool) : M unit := modify (set_isLive v).
Definition setFindingItemName (v : option string) : M unit :=
  modify (set_findingItemName v).
Definition setLastResponse (v : string) : M unit := modify (set_lastResponse v).
Definition setError (v : option string) : M unit := modify (set_error v).
Definition setLastAnalyzedImage (v : option Image) : M unit :=
  modify (set_lastAnalyzedImage v).
Definition setConversationHistory (v : History) : M unit :=
  modify (set_conversationHistory v).
Definition setPersonalItems (v : list PersonalItem) : M unit :=
  modify (set_personalItems v).

(** [await new Promise(resolve => setTimeout(resolve, ms))], up to the
    point where the function is suspended. *)
Definition startDelay (ms : nat) : M unit := emit (ESetTimeout ms).

(** [err instanceof Error ? err.message : fallback] *)
Definition messageOr (fallback : string) (err : JsError) : string :=
  match err with ErrorObject m => m | _ => fallback end.

(** [typeof err === 'string' ? err : fallback] *)
Definition stringOr (fallback : string) (err : JsError) : string :=
  match err with ThrownString s => s | _ => fallback end.

(** A value of [string | null] that passes [if (x)]. *)
Definition truthyImage (o : option Image) : option Image :=
  match o with
  | Some s => if truthy s then Some s else None
  | None => None
  end.

(** *** The component's functions *)

Section Component.
Variable env : Env.

(** [captureFrame]: a data URL, or null when the video element or the
    canvas context is missing. *)
Definition captureFrame : M (option Image) :=
  n <- read captured ;;
  modify (set_captured (S n)) ;;
  emit ECaptureFrame ;;
  ret (captureFrameResult env n).

(** [stopLiveCommentary] *)
Definition stopLiveCommentary : M unit :=
  active <- read isLiveActive ;;
  when active
    (emit (ESetLiveActive false) ;;
     modify (set_isLiveActive false) ;;
     setIsLive false ;;
     setAppState IDLE ;;
     cancel ;;
     setLastResponse "Live commentary stopped.").

(** [stopObjectFinder] *)
Definition stopObjectFinder : M unit :=
  active <- read isFindingActive ;;
  when active
    (emit (ESetFindingActive false) ;;
     modify (set_isFindingActive false) ;;
     setFindingItemName None ;;
     setAppState IDLE ;;
     cancel ;;
     setLastResponse "Stopped finding item.").

(** [handleSaveItem] *)
Definition handleSaveItem (rs : Render) : M unit :=
  emit EPauseListening ;;
  setAppState SAVING_ITEM_LISTEN ;;
  setError None ;;
  cancel ;;
  setLastResponse "What should I call this item?" ;;
  speak "What should I call this item?" ;;
  tryFinally
    (tryCatch
       (name <- call EListenForInput (listenForInput env) ;;
        setAppState ANALYZING ;;
        setLastResponse ("Saving as " ++ dquote ++ name ++ dquote ++ "...") ;;
        imageData <- captureFrame ;;
        match truthyImage imageData with
        | None => throw (ErrorObject "Could not capture image.")
        | Some img =>
            call (ESaveItem (mkItem name img)) (db_saveItem env (mkItem name img)) ;;
            emit EGetItems ;;
            setPersonalItems (db_getItems env) ;;
            speak ("Okay, I've saved this as " ++ name ++ ".")
        end)
       (fun err =>
          setError (Some ("Save failed: " ++ stringOr "Could not hear you clearly." err)) ;;
          speak "Sorry, I couldn't save that."))
    (setAppState IDLE ;;
     when (r_isVoiceCommandActive rs) (emit EResumeListening)).

(** The part of [handleAskGemini] after the question is known. *)
Definition askGeminiWith (q : string) : M unit :=
  setAppState ANALYZING ;;
  setLastResponse ("Thinking about: " ++ dquote ++ q ++ dquote ++ "...") ;;
  tryFinally
    (tryCatch
       (response <- call (EAskGemini q) (askGemini env q) ;;
        setLastResponse response ;;
        speak response)
       (fun err =>
          setError (Some (messageOr "An unknown error occurred." err)) ;;
          speak ("Error: " ++ messageOr "An unknown error occurred." err)))
    (setAppState IDLE).

(** [handleAskGemini] *)
Definition handleAskGemini (q : option string) : M unit :=
  if truthyOpt q then
    askGeminiWith (match q with Some s => s | None => EmptyString end)
  else
    speak "What is your question?" ;;
    heard <- tryCatch
               (s <- call EListenForInput (listenForInput env) ;; ret (Some s))
               (fun _ =>
                  setError (Some "Could not hear your question.") ;;
                  speak "Sorry, I didn't catch that." ;;
                  ret None) ;;
    match heard with
    | Some s => askGeminiWith s
    | None => ret tt
    end.

Definition isAnalyzing (st : AppState) : bool :=
  match st with ANALYZING => true | _ => false end.

(** [processTerrainAction] *)
Definition processTerrainAction (rs : Render) : M unit :=
  if isAnalyzing (r_appState rs) || negb (r_isCameraReady rs) then ret tt
  else
    cancel ;;
    setAppState ANALYZING ;;
    setError None ;;
    setLastResponse "Analyzing terrain..." ;;
    imageData <- captureFrame ;;
    match truthyImage imageData with
    | None =>
        setError (Some "Could not capture frame from camera.") ;;
        setAppState IDLE
    | Some img =>
        tryCatch
          (terrainDescription <- call (EAnalyzeTerrain img) (analyzeTerrain env img) ;;
           setLastResponse terrainDescription ;;
           speak terrainDescription ;;
           setAppState IDLE)
          (fun err =>
             setError (Some (messageOr "An unknown error occurred." err)) ;;
             speak ("Error: " ++ messageOr "An unknown error occurred." err) ;;
             setAppState IDLE)
    end.

(** [processAction]; [apiCall img] is the request made and its settlement. *)
Definition processAction (rs : Render)
    (apiCall : Image -> Effect * Res (string * History))
    (allowFollowUp : bool) : M unit :=
  if isAnalyzing (r_appState rs) || negb (r_isCameraReady rs) then ret tt
  else
    cancel ;;
    setAppState ANALYZING ;;
    setError None ;;
    setLastResponse EmptyString ;;
    imageData <- captureFrame ;;
    match truthyImage imageData with
    | None =>
        setError (Some "Could not capture frame from camera.") ;;
        setAppState IDLE
    | Some img =>
        tryCatch
          (answer <- call (fst (apiCall img)) (snd (apiCall img)) ;;
           setLastResponse (fst answer) ;;
           speak (fst answer) ;;
           if allowFollowUp then
             setLastAnalyzedImage (Some img) ;;
             setConversationHistory (snd answer) ;;
             setAppState AWAITING_FOLLOWUP
           else
             setAppState IDLE)
          (fun err =>
             setError (Some (messageOr "An unknown error occurred." err)) ;;
             speak ("Error: " ++ messageOr "An unknown error occurred." err) ;;
             setAppState IDLE)
    end.

Definition followUpAllowed (st : AppState) : bool :=
  match st with AWAITING_FOLLOWUP | IDLE => true | _ => false end.

(** [handleFollowUpQuestion] *)
Definition handleFollowUpQuestion (rs : Render) : M unit :=
  if negb (followUpAllowed (r_appState rs)) then ret tt
  else
    match truthyImage (r_lastAnalyzedImage rs) with
    | None => speak "Please describe a scene first before asking a question."
    | Some img =>
        emit EPauseListening ;;
        cancel ;;
        setLastResponse "What's your question?" ;;
        speak "What's your question?" ;;
        tryFinally
          (tryCatch
             (question <- call EListenForInput (listenForInput env) ;;
              setAppState ANALYZING ;;
              setLastResponse ("Thinking about: " ++ dquote ++ question ++ dquote ++ "...") ;;
              answer <- call (EFollowUp img (r_conversationHistory rs) question)
                          (askFollowUpQuestion env img (r_conversationHistory rs) question) ;;
              setLastResponse (fst answer) ;;
              speak (fst answer) ;;
              setConversationHistory (snd answer) ;;
              setAppState AWAITING_FOLLOWUP)
             (fun err =>
                setError (Some ("Question failed: " ++ stringOr "Could not hear you clearly." err)) ;;
                speak "Sorry, I couldn't get that. Please try again." ;;
                setAppState AWAITING_FOLLOWUP))
          (when (r_isVoiceCommandActive rs) (emit EResumeListening))
    end.

(** *** The live-commentary loop, cut at its [await]s *)

(** Where a run of [runLiveCommentary] is suspended, or that it is over. *)
Inductive LivePc : Type :=
| LiveAwaitAnalysis (img : Image)  (* awaiting getQuickFrameDescription *)
| LiveAwaitDelay                   (* awaiting the 2000ms timer *)
| LiveExit.                        (* the loop has been left *)

(** A read of [isLiveActive.current] at a checkpoint of the loop. *)
Definition checkLive : M bool :=
  active <- read isLiveActive ;;
  emit (ECheckLive active) ;;
  ret active.

(** From the test of [while (isLiveActive.current)] to the next [await]
    or to the exit. *)
Definition liveHead : M LivePc :=
  active <- checkLive ;;
  if negb active then ret LiveExit
  else
    imageData <- captureFrame ;;
    still <- checkLive ;;
    if negb still then ret LiveExit
    else
      match truthyImage imageData with
      | Some img => emit (EQuickFrame img) ;; ret (LiveAwaitAnalysis img)
      | None => startDelay 2000 ;; ret LiveAwaitDelay
      end.

(** From the settlement of [getQuickFrameDescription] to the next
    [await]. *)
Definition liveAfterAnalysis (r : Res string) : M LivePc :=
  match r with
  | Ok description =>
      active <- checkLive ;;
      when (active && truthy description)
        (setLastResponse description ;; speak description)
  | Fail _ => emit EConsoleError
  end ;;
  startDelay 2000 ;;
  ret LiveAwaitDelay.

(** From the expiry of the 2000ms timer on: back to the loop test. *)
Definition liveAfterDelay : M LivePc := liveHead.

(** [runLiveCommentary], up to its first [await]; [None] when it returns
    at once because a run is active. *)
Definition runLiveCommentary : M (option LivePc) :=
  active <- read isLiveActive ;;
  if active then ret None
  else
    emit (ESetLiveActive true) ;;
    modify (set_isLiveActive true) ;;
    setIsLive true ;;
    setAppState LIVE_COMMENTARY ;;
    setLastResponse "Starting live commentary. Say 'stop' to exit." ;;
    speak "Starting live commentary. Say 'stop' to exit." ;;
    pc <- liveHead ;;
    ret (Some pc).

(** *** The object-search loop, cut at its [await]s *)

Inductive FindPc : Type :=
| FindAwaitAnalysis (img : Image)  (* awaiting findObject *)
| FindAwaitSpokenDelay             (* awaiting the 3000ms timer *)
| FindAwaitDelay                   (* awaiting the 500ms timer *)
| FindExit.                        (* the loop has been left *)

(** A read of [isFindingActive.current] at a checkpoint of the loop. *)
Definition checkFinding : M bool :=
  active <- read isFindingActive ;;
  emit (ECheckFinding active) ;;
  ret active.

(** From the test of [while(isFindingActive.current)] to the next [await]
    or to the exit.  [if (!imageData) continue] goes back to the test
    without an [await]; [fuel] bounds the number of such rounds, and a run
    that uses them all has not been suspended: its outcome is [Spin]. *)
Fixpoint findHead (fuel : nat) (item : string) : M FindPc :=
  match fuel with
  | O => spin
  | S fuel' =>
      active <- checkFinding ;;
      if negb active then ret FindExit
      else
        imageData <- captureFrame ;;
        match truthyImage imageData with
        | None => findHead fuel' item
        | Some img => emit (EFindObject img item) ;; ret (FindAwaitAnalysis img)
        end
  end.

(** From the settlement of [findObject] to the next [await] or the exit.
    A rejection is not caught inside [runObjectFinder]: it ends the run. *)
Definition findAfterAnalysis (item : string) (r : Res string) : M FindPc :=
  match r with
  | Fail e => throw e
  | Ok responseText =>
      active <- checkFinding ;;
      if negb active then ret FindExit
      else if negb (responseText =? "I don't see it here.") then
        setLastResponse responseText ;;
        speak responseText ;;
        startDelay 3000 ;;
        ret FindAwaitSpokenDelay
      else
        setLastResponse ("Looking for " ++ item ++ "...") ;;
        startDelay 500 ;;
        ret FindAwaitDelay
  end.

(** From the expiry of the 3000ms timer to the next [await]. *)
Definition findAfterSpokenDelay : M FindPc :=
  startDelay 500 ;; ret FindAwaitDelay.

(** From the expiry of the 500ms timer on: back to the loop test. *)
Definition findAfterDelay (fuel : nat) (item : string) : M FindPc :=
  findHead fuel item.

(** [runObjectFinder], up to its first [await]; [None] when it returns at
    once because a run is active. *)
Definition runObjectFinder (fuel : nat) (item : string) : M (option FindPc) :=
  active <- read isFindingActive ;;
  if active then ret None
  else
    emit (ESetFindingActive true) ;;
    modify (set_isFindingActive true) ;;
    setFindingItemName (Some item) ;;
    setAppState FINDING_ITEM ;;
    setLastResponse ("Looking for " ++ item ++ ". Pan your camera around. Say 'stop' to exit.") ;;
    speak ("Looking for " ++ item ++ ". Pan your camera around. Say 'stop' to exit.") ;;
    pc <- findHead fuel item ;;
    ret (Some pc).

(** [handleDeleteItem] *)
Definition handleDeleteItem (name : string) : M unit :=
  updatedItems <- call (EDeleteItem name) (db_deleteItem env name) ;;
  setPersonalItems updatedItems ;;
  setLastResponse ("Okay, I've deleted " ++ name ++ ".") ;;
  speak ("Okay, I've deleted " ++ name ++ ".").

Definition isManaging (st : AppState) : bool :=
  match st with MANAGING_ITEMS => true | _ => false end.

Definition isAskQuestion (a : ActionType) : bool :=
  match a with ASK_QUESTION => true | _ => false end.

(** [payload?.itemName || ''] *)
Definition payloadItemName (p : option Payload) : string :=
  match p with
  | Some pl => match itemName pl with Some s => s | None => EmptyString end
  | None => EmptyString
  end.

(** [payload?.query] *)
Definition payloadQuery (p : option Payload) : option string :=
  match p with Some pl => query pl | None => None end.

Definition joinNames (items : list PersonalItem) : string :=
  String.concat ", " (map item_name items).

(** [handleAction].  [rs] is the render the callback belongs to; the
    calls of the two loops are not awaited, so what runs here is each
    loop's part before its first [await]. *)
Definition handleAction (rs : Render) (fuel : nat)
    (a : ActionType) (p : option Payload) : M unit :=
  when (r_isLive rs) stopLiveCommentary ;;
  finding <- read isFindingActive ;;
  when finding stopObjectFinder ;;
  when (negb (isAskQuestion a))
    (setConversationHistory [] ;; setLastAnalyzedImage None) ;;
  match a with
  | DESCRIBE_SCENE =>
      processAction rs (fun img => (EDescribeScene img, describeScene env img)) true
  | READ_TEXT =>
      processAction rs (fun img => (EReadText img, readTextFromImage env img)) false
  | IDENTIFY_PEOPLE =>
      processAction rs (fun img => (EIdentifyPeople img, identifyPeople env img)) true
  | CHECK_HAZARDS =>
      processAction rs (fun img => (ECheckHazards img, checkForHazards env img)) false
  | ANALYZE_TERRAIN => processTerrainAction rs
  | SAVE_ITEM => handleSaveItem rs
  | ACT_LIVE_COMMENTARY =>
      if r_isLive rs then stopLiveCommentary
      else (runLiveCommentary ;; ret tt)
  | FIND_ITEM =>
      if truthy (payloadItemName p)
      then (runObjectFinder fuel (payloadItemName p) ;; ret tt)
      else ret tt
  | MANAGE_ITEMS =>
      setAppState MANAGING_ITEMS ;;
      let message :=
        match r_personalItems rs with
        | [] => "You have no saved items."
        | _ => "Here are your saved items: " ++ joinNames (r_personalItems rs)
               ++ ". You can say 'delete' followed by the name."
        end in
      setLastResponse message ;;
      speak message
  | HELP =>
      helpText <- call EGetHelp (getHelp env) ;;
      setLastResponse helpText ;;
      speak helpText
  | ASK_QUESTION => handleFollowUpQuestion rs
  | ASK_GEMINI => handleAskGemini (payloadQuery p)
  | DELETE_ITEM =>
      if isManaging (r_appState rs) && truthy (payloadItemName p)
      then handleDeleteItem (payloadItemName p)
      else ret tt
  | CLOSE_MANAGEMENT =>
      when (isManaging (r_appState rs))
        (setAppState IDLE ;;
         setLastResponse "Closed item management." ;;
         cancel)
  | STOP => ret tt
  | UNKNOWN => ret tt
  end.

(** [isBusy] *)
Definition isBusy (st : AppState) : bool :=
  match st with
  | ANALYZING | SAVING_ITEM_LISTEN | FINDING_ITEM
  | INTERPRETING_COMMAND | LIVE_COMMENTARY => true
  | _ => false
  end.

Definition stopWords : list string :=
  ["stop"; "cancel"; "be quiet"; "enough"; "that's enough"].

(** [stopWords.some(word => transcript.toLowerCase().includes(word))] *)
Definition isStopCommand (transcript : string) : bool :=
  existsb (fun word => includes (toLowerCase transcript) word) stopWords.

(** The updater given to [setAppState] in the [finally] block. *)
Definition restoreState (preCommandState currentState : AppState) : AppState :=
  match currentState with
  | INTERPRETING_COMMAND | ANALYZING =>
      if isManaging preCommandState then MANAGING_ITEMS else IDLE
  | _ => currentState
  end.

(** The body of the [try] block of [handleVoiceCommand]. *)
Definition interpretAndDispatch (rs : Render) (fuel : nat)
    (transcript : string) : M unit :=
  let personalItemNames := map item_name (r_personalItems rs) in
  result <- call (EInterpretCommand transcript personalItemNames (r_appState rs))
              (interpretCommand env transcript personalItemNames (r_appState rs)) ;;
  match result with
  | Some (mkInterpretation (Some a) p) =>
      match a with
      | UNKNOWN => handleAskGemini (Some transcript)
      | STOP => ret tt
      | _ => handleAction rs fuel a p
      end
  | _ => throw (ErrorObject "Could not understand the command.")
  end.

(** [handleVoiceCommand] *)
Definition handleVoiceCommand (fuel : nat) (transcript : string)
    (isFinal : bool) : M unit :=
  rs <- read render ;;
  if isStopCommand transcript then
    cancel ;;
    stopLiveCommentary ;;
    stopObjectFinder ;;
    setAppState IDLE ;;
    setLastResponse "Okay, stopped." ;;
    speak "Okay, stopped." ;;
    emit EResumeAfterProcessing
  else if isBusy (r_appState rs) || negb isFinal then ret tt
  else
    let preCommandState := r_appState rs in
    setAppState INTERPRETING_COMMAND ;;
    setLastResponse ("Interpreting: " ++ dquote ++ transcript ++ dquote ++ "...") ;;
    setError None ;;
    tryFinally
      (tryCatch
         (interpretAndDispatch rs fuel transcript)
         (fun err =>
            setError (Some (messageOr "Could not understand your command." err)) ;;
            speak ("Sorry, " ++ messageOr "Could not understand your command." err)))
      (modify (fun w => set_appState (restoreState preCommandState (appState w)) w) ;;
       emit EResumeAfterProcessing).

(** [toggleVoiceCommands] *)
Definition toggleVoiceCommands : M unit :=
  active <- read isVoiceCommandActive ;;
  if active then
    emit EStopListening ;;
    emit EStopVisualizer ;;
    modify (set_isVoiceCommandActive false) ;;
    setLastResponse "Voice commands paused. Click 'Start Listening' to resume."
  else
    emit EStartListening ;;
    emit EStartVisualizer ;;
    modify (set_isVoiceCommandActive true) ;;
    setError None ;;
    setLastResponse
      "Voice commands active. Say a command like 'describe scene' or 'help'.".

End Component.

(** The component after its first render; [items] is what
    [personalDB.getItems()] returns on mount. *)
Definition initial (items : list PersonalItem) : World :=
  mkWorld IDLE false false false None EmptyString None None [] items
    false false 0 [].

(** What moves the coordinator from one state to the next: a transcript
    from the hook, a button of [Controls] or of [ItemManager], the
    microphone button, the camera becoming ready or not, and a suspended
    loop being resumed with what it waited for. *)
Inductive Step : World -> World -> Prop :=
| step_transcript env fuel transcript isFinal w :
    Step w (snd (handleVoiceCommand env fuel transcript isFinal w))
| step_button env fuel a p w :
    Step w (snd (handleAction env (render w) fuel a p w))
| step_delete env name w :
    Step w (snd (handleDeleteItem env name w))
| step_toggle w :
    Step w (snd (toggleVoiceCommands w))
| step_camera ready w :
    Step w (set_isCameraReady ready w)
| step_live_analysis r w :
    Step w (snd (liveAfterAnalysis r w))
| step_live_delay env w :
    Step w (snd (liveAfterDelay env w))
| step_find_analysis item r w :
    Step w (snd (findAfterAnalysis item r w))
| step_find_spoken_delay w :
    Step w (snd (findAfterSpokenDelay w))
| step_find_delay env fuel item w :
    Step w (snd (findAfterDelay env fuel item w)).

Inductive Reachable (items : list PersonalItem) : World -> Prop :=
| reach_initial : Reachable items (initial items)
| reach_step w w' : Reachable items w -> Step w w' -> Reachable items w'.

Definition isResume (e : Effect) : bool :=
  match e with EResumeAfterProcessing => true | _ => false end.

(** How often the resume signal has been given. *)
Definition resumes (w : World) : nat := length (filter isResume (trace w)).

Definition isInterpret (e : Effect) : bool :=
  match e with EInterpretCommand _ _ _ => true | _ => false end.

(** How often the interpretation collaborator has been invoked. *)
Definition interpretations (w : World) : nat :=
  length (filter isInterpret (trace w)).

Definition isFindingCheck (e : Effect) : bool :=
  match e with ECheckFinding _ => true | _ => false end.

(** The camera never fails [fuel] times in a row. *)
Definition camera_delivers (env : Env) (fuel : nat) : Prop :=
  forall n, exists k, k < fuel
    /\ truthyImage (captureFrameResult env (n + k)) <> None.

End App.

(* ===================================================================== *)
(** ** Properties of the string operations                                *)
(* ===================================================================== *)

Module JsStringFacts.
Import JsString.

Lemma toLowerCase_app (a b : string) :
  toLowerCase (a ++ b) = toLowerCase a ++ toLowerCase b.
Proof.
  induction a as [|c a IH]; simpl; [reflexivity|]. now rewrite IH.
Qed.

Lemma prefix_app (w rest : string) : String.prefix w (w ++ rest) = true.
Proof.
  induction w as [|c w IH]; simpl.
  - now destruct rest.
  - destruct (ascii_dec c c) as [_|n]; [exact IH | now elim n].
Qed.

Lemma includes_of_prefix (s w : string) :
  String.prefix w s = true -> includes s w = true.
Proof. intros H. destruct s; cbn [includes]; rewrite H; reflexivity. Qed.

Lemma includes_here (w rest : string) : includes (w ++ rest) w = true.
Proof. apply includes_of_prefix, prefix_app. Qed.

Lemma includes_app (pre w post : string) :
  includes (pre ++ w ++ post) w = true.
Proof.
  induction pre as [|c pre IH].
  - cbn [append]. apply includes_here.
  - cbn [append includes]. rewrite IH. apply orb_true_r.
Qed.

Lemma lowerChar_idem (c : ascii) : lowerChar (lowerChar c) = lowerChar c.
Proof.
  unfold lowerChar. destruct (isUpper c) eqn:U; [|now rewrite U].
  unfold isUpper in *.
  apply andb_true_iff in U. destruct U as [U1 U2].
  apply N.leb_le in U1. apply N.leb_le in U2.
  rewrite N_ascii_embedding by lia.
  replace ((N_of_ascii c + 32 <=? 90)%N) with false
    by (symmetry; apply N.leb_gt; lia).
  now rewrite andb_false_r.
Qed.

Lemma toLowerCase_idem (s : string) :
  toLowerCase (toLowerCase s) = toLowerCase s.
Proof.
  induction s as [|c s IH]; simpl; [reflexivity|].
  now rewrite lowerChar_idem, IH.
Qed.



End JsStringFacts.

(* ===================================================================== *)
(** ** Properties of the recognition lifecycle hook                       *)
(* ===================================================================== *)

Module VoiceCommandsFacts.
Import JsString JsStringFacts VoiceCommands.

Lemma starts_output (o : Output) (s : Hook) :
  starts (output o s) = (if isStart o then S (starts s) else starts s).
Proof.
  unfold starts, output; simpl. rewrite filter_app, length_app; simpl.
  destruct (isStart o); simpl; lia.
Qed.

Lemma dropTimer_fresh (id : nat) (ts : list Timer) :
  Forall (fun t => t_id t < id) ts -> dropTimer id ts = ts.
Proof.
  induction 1 as [|t ts Ht _ IH]; simpl; [reflexivity|].
  replace (Nat.eqb (t_id t) id) with false
    by (symmetry; apply Nat.eqb_neq; lia).
  simpl. now rewrite IH.
Qed.

Lemma findTimer_fresh (id : nat) (ts : list Timer) :
  Forall (fun t => t_id t < id) ts -> findTimer id ts = None.
Proof.
  induction 1 as [|t ts Ht _ IH]; simpl; [reflexivity|].
  replace (Nat.eqb (t_id t) id) with false
    by (symmetry; apply Nat.eqb_neq; lia).
  exact IH.
Qed.

Lemma findTimer_app_fresh (id : nat) (ts : list Timer) (t : Timer) :
  Forall (fun t => t_id t < id) ts -> t_id t = id ->
  findTimer id (ts ++ [t]) = Some t.
Proof.
  intros F E. unfold findTimer. induction F as [|t0 ts Ht _ IH]; simpl.
  - now rewrite E, Nat.eqb_refl.
  - replace (Nat.eqb (t_id t0) id) with false
      by (symmetry; apply Nat.eqb_neq; lia).
    exact IH.
Qed.

Lemma dropTimer_app_fresh (id : nat) (ts : list Timer) (t : Timer) :
  Forall (fun t => t_id t < id) ts -> t_id t = id ->
  dropTimer id (ts ++ [t]) = ts.
Proof.
  intros F E. unfold dropTimer. rewrite filter_app. simpl.
  rewrite E, Nat.eqb_refl. simpl. rewrite app_nil_r.
  now apply dropTimer_fresh.
Qed.

Lemma wf_dropTimer (id n : nat) (ts : list Timer) :
  Forall (fun t => t_id t < n) ts ->
  Forall (fun t => t_id t < n) (dropTimer id ts).
Proof.
  intros F. apply Forall_forall. intros t Ht.
  apply filter_In in Ht. destruct Ht as [Ht _].
  rewrite Forall_forall in F. now apply F.
Qed.

Lemma wf_setTimeout (k : TimerKind) (d : nat) (s : Hook) :
  wf s -> wf (snd (setTimeout k d s)).
Proof.
  unfold wf, setTimeout; simpl. intros W. apply Forall_app. split.
  - eapply Forall_impl; [|exact W]. simpl. intros t Ht. lia.
  - constructor; [simpl; lia | constructor].
Qed.

Lemma wf_clearRestartTimer (s : Hook) : wf s -> wf (clearRestartTimer s).
Proof.
  unfold clearRestartTimer. destruct (restartTimerRef s); [|auto].
  intros W. now apply wf_dropTimer.
Qed.

Lemma wf_fireTimer (id : nat) (s : Hook) : wf s -> wf (fireTimer id s).
Proof.
  intros W. unfold fireTimer. destruct (findTimer id (timers s)) as [t|]; [|exact W].
  assert (W1 : wf (clearTimeout id s)) by now apply wf_dropTimer.
  unfold runTimer, engineStart.
  destruct (t_kind t); repeat match goal with
    | |- context [if ?b then _ else _] => destruct b
    end; exact W1.
Qed.

(** Every operation and every event keeps the timer queue well formed. *)
Lemma step_wf (s : Hook) (e : Event) : wf s -> wf (step s e).
Proof.
  intros W. destruct e; simpl.
  - destruct (recognitionRef s); exact W.
  - destruct (recognitionRef s); [|exact W]. unfold onend.
    assert (W1 : wf (clearRestartTimer (set_isListening false s)))
      by now apply wf_clearRestartTimer.
    destruct (mayAutoRestart _); [|exact W1].
    exact (wf_setTimeout TAutoRestart _ W1).
  - destruct (recognitionRef s); [|exact W]. unfold onerror.
    repeat match goal with
      | |- context [if ?b then _ else _] => destruct b
      end; exact W.
  - destruct (recognitionRef s) eqn:R; [|exact W]. unfold onresult.
    destruct (lastResult results) as [r|]; [|exact W].
    unfold engineStop, deliver.
    repeat match goal with
      | |- context [if ?b then _ else _] => destruct b
      end; simpl; try rewrite R; exact W.
  - now apply wf_fireTimer.
  - unfold handleVisibilityChange, engineStop.
    repeat match goal with
      | |- context [if ?b then _ else _] => destruct b
      end; try exact W.
    exact (wf_setTimeout TVisibilityResume 300 (s := set_isPaused false s) W).
  - unfold permissionRejectedOnMount.
    repeat match goal with
      | |- context [if ?b then _ else _] => destruct b
      end; exact W.
  - unfold startListening, engineStart.
    pose proof (wf_clearRestartTimer W) as W1.
    destruct p; repeat match goal with
      | |- context [if ?b then _ else _] => destruct b
      end; exact W1.
  - unfold stopListening, engineStop.
    pose proof (wf_clearRestartTimer W) as W1.
    repeat match goal with
      | |- context [if ?b then _ else _] => destruct b
      end; exact W1.
  - unfold restartListening. destruct (recognitionRef s); [|exact W].
    exact (wf_setTimeout TRestart 100
             (s := set_isPaused false (set_isStoppedManually false s)) W).
  - unfold pauseListening, engineStop.
    repeat match goal with
      | |- context [if ?b then _ else _] => destruct b
      end; exact W.
  - unfold resumeListening. destruct (_ && _); [|exact W].
    exact (wf_setTimeout TResume 100 (s := set_isPaused false s) W).
  - exact W.
  - unfold resumeAfterProcessing. destruct (_ && _); [|exact W].
    exact (wf_setTimeout TResumeAfterProcessing 300
             (s := set_isProcessingTranscript false s) W).
  - unfold cleanup, engineStop.
    pose proof (wf_clearRestartTimer (s := set_isStoppedManually true s) W) as W1.
    repeat match goal with
      | |- context [if ?b then _ else _] => destruct b
      end; exact W1.
Qed.

(** So is the queue of every hook that events have led to. *)
Lemma run_wf (mobile : bool) (es : list Event) : wf (run (mount mobile) es).
Proof.
  unfold run. assert (W : wf (mount mobile)) by constructor.
  revert W. generalize (mount mobile).
  induction es as [|e es IH]; intros s W; simpl; [exact W|].
  apply IH. now apply step_wf.
Qed.





(** The state in which [onresult] hands a final transcript of a
    SINGLE_SHOT session to the callback. *)
Lemma onresult_final_single_shot
    (cb : string -> bool -> N -> Hook -> Hook)
    (results : list SpeechResult) (r : SpeechResult) (s : Hook) :
  isMobileRef s = true ->
  lastResult results = Some r -> res_isFinal r = true ->
  truthy (normalise (res_transcript r)) = true ->
  onresult cb results s
  = cb (normalise (res_transcript r)) true (confidenceOf r)
       (engineStop (set_isProcessingTranscript true s)).
Proof.
  intros Mo L F T. unfold onresult. now rewrite L, F, T, Mo.
Qed.


(** A SINGLE_SHOT session that is listening. *)
Definition listeningMobile : Hook :=
  run (mount true) [OpStart Granted; EvStart].


(** [resumeListening] sets its timer whatever the manual-stop flag says,
    and the timer calls [start()] without a look at it. *)
Lemma resumeListening_ignores_manual_stop (s : Hook) :
  wf s -> recognitionRef s = true -> isListening s = false ->
  isStoppedManually s = true ->
  let resumed := resumeListening s in
  isStoppedManually resumed = true
  /\ starts (fireTimer (nextTimer s) resumed) = S (starts s).
Proof.
  intros W R L St. unfold resumeListening. rewrite R, L. simpl.
  split; [exact St|].
  unfold fireTimer; simpl.
  rewrite (@findTimer_app_fresh (nextTimer s) (timers s)) by (auto; reflexivity).
  simpl. unfold engineStart; simpl. rewrite R.
  rewrite starts_output. reflexivity.
Qed.

(** C8, evaluated on a session the user has stopped and on one whose
    permission the platform has withdrawn: in both the manual-stop flag is
    set, the engine has ended, and [resumeListening] followed by its
    100ms timer calls [start()] on the engine. *)
Theorem C8_resume_starts_a_manually_stopped_session :
  let stopped := run (mount true) [OpStart Granted; EvStart; OpStop; EvEnd] in
  let denied :=
    run (mount true) [OpStart Granted; EvStart; EvError "not-allowed"; EvEnd] in
  (isStoppedManually stopped = true
   /\ starts stopped = 1
   /\ timers stopped = []
   /\ starts (run stopped [OpResume; EvTimer 1]) = 2)
  /\ (isStoppedManually denied = true
      /\ starts denied = 1
      /\ timers denied = []
      /\ starts (run denied [OpResume; EvTimer 1]) = 2).
Proof. repeat split. Qed.


End VoiceCommandsFacts.

(* ===================================================================== *)
(** ** Properties of the coordinator and of the polling loops             *)
(* ===================================================================== *)

Module AppFacts.
Import JsString JsStringFacts App.
Local Open Scope js_scope.

(** A camera that always delivers, services that always answer. *)
Definition answering : Env :=
  mkEnv (fun _ => Some "data:image/jpeg;base64,AAAA")
    (fun _ _ _ => Ok (Some (mkInterpretation (Some DESCRIBE_SCENE) None)))
    (Ok "my keys")
    (fun _ => Ok "It is blue.")
    (fun _ => Ok ("A kitchen counter.", ["turn"]))
    (fun _ => Ok ("EXIT", []))
    (fun _ => Ok ("Nobody.", []))
    (fun _ => Ok ("No hazards.", []))
    (fun _ => Ok "Flat ground.")
    (fun _ _ _ => Ok ("Yes.", ["turn"; "turn"]))
    (Ok "Say describe the scene.")
    (fun _ => Ok tt)
    []
    (fun _ => Ok []).

(** A camera whose video element is not there: every capture is null. *)
Definition blind : Env :=
  mkEnv (fun _ => None)
    (interpretCommand answering) (listenForInput answering)
    (askGemini answering) (describeScene answering)
    (readTextFromImage answering) (identifyPeople answering)
    (checkForHazards answering) (analyzeTerrain answering)
    (askFollowUpQuestion answering) (getHelp answering)
    (db_saveItem answering) (db_getItems answering) (db_deleteItem answering).

(** The component with the camera ready and voice control switched on. *)
Definition ready : World :=
  set_isVoiceCommandActive true (set_isCameraReady true (initial [])).

Lemma world_eta (w : World) :
  mkWorld (appState w) (isLive w) (isLiveActive w) (isFindingActive w)
    (findingItemName w) (lastResponse w) (error w) (lastAnalyzedImage w)
    (conversationHistory w) (personalItems w) (isVoiceCommandActive w)
    (isCameraReady w) (captured w) (trace w) = w.
Proof. now destruct w. Qed.

(** Unfolds the state operations down to functions on worlds. *)
Ltac js_unfold :=
  unfold call, cancel, speak, setAppState, setIsLive, setFindingItemName,
    setLastResponse, setError, setLastAnalyzedImage, setConversationHistory,
    setPersonalItems, startDelay, emit, when, modify, read, throw, spin,
    tryCatch, tryFinally, bind, ret.

(** *** What a run leaves alone *)

(** A relation between the world before and the world after a run that
    holds of no run at all and of runs one after the other. *)
Record Frame : Type := mkFrame {
  related :> World -> World -> Prop;
  related_refl : forall w, related w w;
  related_trans : forall a b c, related a b -> related b c -> related a c
}.

(** [m] changes the world only within [R]. *)
Definition Frames {A : Type} (R : Frame) (m : M A) : Prop :=
  forall w, R w (snd (m w)).

(** [m] gets to its end or to an [await]: it does not spin. *)
Definition Halts {A : Type} (m : M A) : Prop :=
  forall w, fst (m w) <> Spin.

(** [m] lets no exception out. *)
Definition NoThrow {A : Type} (m : M A) : Prop :=
  forall w e, fst (m w) <> Throw e.

Section FrameRules.
Variable R : Frame.
Context {A B : Type}.

Lemma Frames_ret (a : A) : Frames R (ret a).
Proof. intros w. apply related_refl. Qed.

Lemma Frames_throw (e : JsError) : Frames R (@throw A e).
Proof. intros w. apply related_refl. Qed.

Lemma Frames_spin : Frames R (@spin A).
Proof. intros w. apply related_refl. Qed.

Lemma Frames_read (f : World -> A) : Frames R (read f).
Proof. intros w. apply related_refl. Qed.

Lemma Frames_modify (g : World -> World) :
  (forall w, R w (g w)) -> Frames R (modify g).
Proof. intros H w. apply H. Qed.

Lemma Frames_bind (m : M A) (k : A -> M B) :
  Frames R m -> (forall a, Frames R (k a)) -> Frames R (bind m k).
Proof.
  intros Hm Hk w. unfold bind. specialize (Hm w).
  destruct (m w) as [[a|e|] w1]; simpl in *; try exact Hm.
  eapply related_trans; [exact Hm | apply Hk].
Qed.

Lemma Frames_tryCatch (m : M A) (h : JsError -> M A) :
  Frames R m -> (forall e, Frames R (h e)) -> Frames R (tryCatch m h).
Proof.
  intros Hm Hh w. unfold tryCatch. specialize (Hm w).
  destruct (m w) as [[a|e|] w1]; simpl in *; try exact Hm.
  eapply related_trans; [exact Hm | apply Hh].
Qed.

Lemma Frames_tryFinally (m : M A) (f : M unit) :
  Frames R m -> Frames R f -> Frames R (tryFinally m f).
Proof.
  intros Hm Hf w. unfold tryFinally. specialize (Hm w).
  destruct (m w) as [[a|e|] w1]; simpl in *; try exact Hm;
    specialize (Hf w1); destruct (f w1) as [[[]|e'|] w2]; simpl in *;
    eapply related_trans; eauto.
Qed.

Lemma Halts_ret (a : A) : Halts (ret a).
Proof. intros w; discriminate. Qed.

Lemma Halts_throw (e : JsError) : Halts (@throw A e).
Proof. intros w; discriminate. Qed.

Lemma Halts_read (f : World -> A) : Halts (read f).
Proof. intros w; discriminate. Qed.

Lemma Halts_bind (m : M A) (k : A -> M B) :
  Halts m -> (forall a, Halts (k a)) -> Halts (bind m k).
Proof.
  intros Hm Hk w. unfold bind. specialize (Hm w).
  destruct (m w) as [[a|e|] w1]; simpl in *;
    [apply Hk | discriminate | congruence].
Qed.

Lemma Halts_tryCatch (m : M A) (h : JsError -> M A) :
  Halts m -> (forall e, Halts (h e)) -> Halts (tryCatch m h).
Proof.
  intros Hm Hh w. unfold tryCatch. specialize (Hm w).
  destruct (m w) as [[a|e|] w1]; simpl in *;
    [discriminate | apply Hh | congruence].
Qed.

Lemma Halts_tryFinally (m : M A) (f : M unit) :
  Halts m -> Halts f -> Halts (tryFinally m f).
Proof.
  intros Hm Hf w. unfold tryFinally. specialize (Hm w).
  destruct (m w) as [[a|e|] w1]; simpl in *; try congruence;
    specialize (Hf w1); destruct (f w1) as [[[]|e'|] w2]; simpl in *;
    congruence.
Qed.

Lemma NoThrow_ret (a : A) : NoThrow (ret a).
Proof. intros w e; discriminate. Qed.

Lemma NoThrow_read (f : World -> A) : NoThrow (read f).
Proof. intros w e; discriminate. Qed.

Lemma NoThrow_bind (m : M A) (k : A -> M B) :
  NoThrow m -> (forall a, NoThrow (k a)) -> NoThrow (bind m k).
Proof.
  intros Hm Hk w e. unfold bind. specialize (Hm w).
  destruct (m w) as [[a|e'|] w1]; simpl in *;
    [apply Hk | now elim (Hm e') | discriminate].
Qed.

Lemma NoThrow_tryCatch (m : M A) (h : JsError -> M A) :
  (forall e, NoThrow (h e)) -> NoThrow (tryCatch m h).
Proof.
  intros Hh w e. unfold tryCatch.
  destruct (m w) as [[a|e'|] w1]; simpl in *;
    [discriminate | apply Hh | discriminate].
Qed.

Lemma NoThrow_tryFinally (m : M A) (f : M unit) :
  NoThrow m -> NoThrow f -> NoThrow (tryFinally m f).
Proof.
  intros Hm Hf w e. unfold tryFinally. specialize (Hm w).
  destruct (m w) as [[a|e'|] w1]; simpl in *; try discriminate;
    [| now elim (Hm e')];
    specialize (Hf w1); destruct (f w1) as [[[]|e''|] w2]; simpl in *;
    try discriminate. now elim (Hf e'').
Qed.

End FrameRules.

Lemma Halts_modify (g : World -> World) : Halts (modify g).
Proof. intros w; discriminate. Qed.

Lemma NoThrow_modify (g : World -> World) : NoThrow (modify g).
Proof. intros w e; discriminate. Qed.

(** The resume signal is not given. *)
Definition sameResumes : Frame.
Proof.
  refine (@mkFrame (fun w w' => resumes w' = resumes w) _ _).
  - reflexivity.
  - intros a b c H1 H2. congruence.
Defined.

(** The loop flags, and [isLive] with them, are not written. *)
Definition sameFlags : Frame.
Proof.
  refine (@mkFrame (fun w w' => isLive w' = isLive w
                                /\ isLiveActive w' = isLiveActive w
                                /\ isFindingActive w' = isFindingActive w) _ _).
  - now intros w.
  - intros a b c (H1 & H2 & H3) (H4 & H5 & H6). repeat split; congruence.
Defined.

(** Unfolds the component's functions down to the state operations. *)
Ltac open_handlers :=
  unfold handleSaveItem, handleAskGemini, askGeminiWith, processTerrainAction,
    processAction, handleFollowUpQuestion, handleDeleteItem,
    runLiveCommentary, liveAfterDelay, liveHead, liveAfterAnalysis, checkLive,
    runObjectFinder, findAfterDelay, findAfterAnalysis, findAfterSpokenDelay,
    checkFinding, stopLiveCommentary, stopObjectFinder, toggleVoiceCommands,
    captureFrame, call, cancel, speak, setAppState, setIsLive, setFindingItemName,
    setLastResponse, setError, setLastAnalyzedImage, setConversationHistory,
    setPersonalItems, startDelay, emit, when.

(** Takes a run apart along its structure; [leaf] settles a single write,
    and what is known about a sub-run is taken from the context. *)
Ltac frames_with leaf :=
  repeat lazymatch goal with
  | H : Frames ?R ?m |- Frames ?R ?m => exact H
  | |- Frames _ (bind _ _) => apply Frames_bind; [ | intros ? ]
  | |- Frames _ (ret _) => apply Frames_ret
  | |- Frames _ (throw _) => apply Frames_throw
  | |- Frames _ spin => apply Frames_spin
  | |- Frames _ (read _) => apply Frames_read
  | |- Frames _ (tryCatch _ _) => apply Frames_tryCatch; [ | intros ? ]
  | |- Frames _ (tryFinally _ _) => apply Frames_tryFinally
  | |- Frames _ (modify _) => apply Frames_modify; intros ?; leaf
  | |- Frames _ (if ?b then _ else _) => destruct b
  | |- Frames _ (match ?x with _ => _ end) => destruct x
  end.

Ltac halts :=
  repeat lazymatch goal with
  | H : Halts ?m |- Halts ?m => exact H
  | |- Halts (bind _ _) => apply Halts_bind; [ | intros ? ]
  | |- Halts (ret _) => apply Halts_ret
  | |- Halts (throw _) => apply Halts_throw
  | |- Halts (read _) => apply Halts_read
  | |- Halts (tryCatch _ _) => apply Halts_tryCatch; [ | intros ? ]
  | |- Halts (tryFinally _ _) => apply Halts_tryFinally
  | |- Halts (modify _) => apply Halts_modify
  | |- Halts (if ?b then _ else _) => destruct b
  | |- Halts (match ?x with _ => _ end) => destruct x
  end.

Ltac nothrow :=
  repeat lazymatch goal with
  | H : NoThrow ?m |- NoThrow ?m => exact H
  | |- NoThrow (bind _ _) => apply NoThrow_bind; [ | intros ? ]
  | |- NoThrow (ret _) => apply NoThrow_ret
  | |- NoThrow (read _) => apply NoThrow_read
  | |- NoThrow (tryCatch _ _) => apply NoThrow_tryCatch; intros ?
  | |- NoThrow (tryFinally _ _) => apply NoThrow_tryFinally
  | |- NoThrow (modify _) => apply NoThrow_modify
  | |- NoThrow (if ?b then _ else _) => destruct b
  | |- NoThrow (match ?x with _ => _ end) => destruct x
  end.

Ltac resumes_leaf :=
  cbn; unfold resumes; cbn; rewrite ?filter_app, ?length_app; cbn; lia.

Ltac flags_leaf := cbn; auto.

(** *** Running the head of a run *)

Lemma run_assoc (A B C : Type) (m : M A) (k : A -> M B) (h : B -> M C)
    (w : World) :
  bind (bind m k) h w = bind m (fun a => bind (k a) h) w.
Proof. unfold bind. now destruct (m w) as [[a|e|] w1]. Qed.

Lemma run_modify (A : Type) (g : World -> World) (k : unit -> M A) (w : World) :
  bind (modify g) k w = k tt (g w).
Proof. reflexivity. Qed.

Lemma run_read (A B : Type) (f : World -> A) (k : A -> M B) (w : World) :
  bind (read f) k w = k (f w) w.
Proof. reflexivity. Qed.

Lemma run_ret (A B : Type) (a : A) (k : A -> M B) (w : World) :
  bind (ret a) k w = k a w.
Proof. reflexivity. Qed.

(** Simplifies projections of updated worlds, and nothing else. *)
Ltac fields :=
  cbn [appState isLive isLiveActive isFindingActive findingItemName
       lastResponse error lastAnalyzedImage conversationHistory personalItems
       isVoiceCommandActive isCameraReady captured trace
       set_appState set_isLive set_isLiveActive set_isFindingActive
       set_findingItemName set_lastResponse set_error set_lastAnalyzedImage
       set_conversationHistory set_personalItems set_isVoiceCommandActive
       set_isCameraReady set_captured set_trace
       render r_appState r_isLive r_personalItems r_lastAnalyzedImage
       r_conversationHistory r_isVoiceCommandActive r_isCameraReady
       fst snd negb andb orb].

(** Runs the straight-line part at the head of a run. *)
Ltac run_head :=
  repeat (first [ rewrite run_assoc | rewrite run_modify | rewrite run_read
                | rewrite run_ret ]; cbv beta; fields).

(** *** The handlers do not give the resume signal *)

Lemma findHead_resumes (env : Env) (fuel : nat) (item : string) :
  Frames sameResumes (findHead env fuel item).
Proof.
  induction fuel as [|fuel IH]; cbn [findHead]; open_handlers;
    frames_with resumes_leaf.
Qed.

Lemma handleAskGemini_resumes (env : Env) (q : option string) :
  Frames sameResumes (handleAskGemini env q).
Proof. open_handlers. frames_with resumes_leaf. Qed.

Lemma handleAction_resumes (env : Env) (rs : Render) (fuel : nat)
    (a : ActionType) (p : option Payload) :
  Frames sameResumes (handleAction env rs fuel a p).
Proof.
  pose proof (findHead_resumes env fuel (payloadItemName p)).
  unfold handleAction. open_handlers. frames_with resumes_leaf.
Qed.

Lemma interpretAndDispatch_resumes (env : Env) (rs : Render) (fuel : nat)
    (transcript : string) :
  Frames sameResumes (interpretAndDispatch env rs fuel transcript).
Proof.
  unfold interpretAndDispatch.
  apply Frames_bind; [open_handlers; frames_with resumes_leaf|].
  intros [[[a|] p]|]; try apply Frames_throw.
  destruct a; try apply handleAction_resumes;
    [apply Frames_ret | apply handleAskGemini_resumes].
Qed.

(** *** The handlers come to an end when the camera delivers *)

Lemma findHead_halts_from (env : Env) (item : string) (fuel : nat) (w : World) :
  (exists k, k < fuel
     /\ truthyImage (captureFrameResult env (captured w + k)) <> None) ->
  fst (findHead env fuel item w) <> Spin.
Proof.
  revert w. induction fuel as [|fuel IH]; intros w (k & Hk & C); [lia|].
  cbn [findHead]. unfold checkFinding, captureFrame. js_unfold. cbn.
  destruct (isFindingActive w); cbn; [|discriminate].
  destruct (truthyImage (captureFrameResult env (captured w))) eqn:E; cbn;
    [discriminate|].
  apply IH. cbn. destruct k as [|k].
  - rewrite Nat.add_0_r in C. congruence.
  - exists k. split; [lia|]. rewrite Nat.add_succ_r in C. exact C.
Qed.

Lemma findHead_halts (env : Env) (fuel : nat) (item : string) :
  camera_delivers env fuel -> Halts (findHead env fuel item).
Proof. intros C w. apply findHead_halts_from. apply C. Qed.

Lemma handleAskGemini_halts (env : Env) (q : option string) :
  Halts (handleAskGemini env q).
Proof. open_handlers. halts. Qed.

(** A handler can fail to come to an end in one way only: as a search for
    a named item with a camera that delivers nothing. *)
Lemma handleAction_halts (env : Env) (rs : Render) (fuel : nat)
    (a : ActionType) (p : option Payload) :
  (a = FIND_ITEM -> truthy (payloadItemName p) = true ->
   camera_delivers env fuel) ->
  Halts (handleAction env rs fuel a p).
Proof.
  intros C. unfold handleAction.
  destruct a; try (open_handlers; halts; fail).
  destruct (truthy (payloadItemName p)) eqn:T.
  - pose proof (findHead_halts (payloadItemName p) (C eq_refl eq_refl)).
    open_handlers. halts.
  - open_handlers. halts.
Qed.

(** The interpretation of [transcript] in [w] is not a search for a named
    item, or else the camera never fails [fuel] times in a row. *)
Definition search_has_camera (env : Env) (fuel : nat) (transcript : string)
    (w : World) : Prop :=
  forall p,
    interpretCommand env transcript (map item_name (personalItems w)) (appState w)
    = Ok (Some (mkInterpretation (Some FIND_ITEM) p)) ->
    truthy (payloadItemName p) = true ->
    camera_delivers env fuel.

Lemma interpretAndDispatch_halts (env : Env) (fuel : nat)
    (transcript : string) (w w1 : World) :
  search_has_camera env fuel transcript w ->
  fst (interpretAndDispatch env (render w) fuel transcript w1) <> Spin.
Proof.
  intros C. unfold interpretAndDispatch, call, emit. rewrite run_assoc.
  run_head.
  destruct (interpretCommand env transcript (map item_name (personalItems w))
              (appState w)) as [[[[a|] p]|]|err] eqn:I;
    try discriminate.
  rewrite run_ret.
  assert (Cases : a = UNKNOWN \/ a = STOP \/ (a <> UNKNOWN /\ a <> STOP))
    by (destruct a; auto; right; right; split; discriminate).
  destruct Cases as [-> | [-> | [NU NS]]].
  - apply handleAskGemini_halts.
  - discriminate.
  - assert (E : match a with
                | UNKNOWN => handleAskGemini env (Some transcript)
                | STOP => ret tt
                | _ => handleAction env (render w) fuel a p
                end = handleAction env (render w) fuel a p)
      by (destruct a; congruence).
    rewrite E. apply handleAction_halts. intros -> T. exact (C p I T).
Qed.

(** *** Guaranteed cleanup *)

Lemma NoThrow_spin (A : Type) : NoThrow (@spin A).
Proof. intros w e; discriminate. Qed.

Lemma findHead_nothrow (env : Env) (fuel : nat) (item : string) :
  NoThrow (findHead env fuel item).
Proof.
  induction fuel as [|fuel IH]; cbn [findHead];
    [apply NoThrow_spin | open_handlers; nothrow].
Qed.

Lemma handleAskGemini_nothrow (env : Env) (q : option string) :
  NoThrow (handleAskGemini env q).
Proof. open_handlers. nothrow. Qed.

(** Every handler but the two that call out unguarded, for the help text
    and for the deletion, catches what it raises. *)
Lemma handleAction_nothrow (env : Env) (rs : Render) (fuel : nat)
    (a : ActionType) (p : option Payload) :
  a <> HELP -> a <> DELETE_ITEM -> NoThrow (handleAction env rs fuel a p).
Proof.
  intros NH ND. pose proof (findHead_nothrow env fuel (payloadItemName p)).
  unfold handleAction.
  destruct a; try congruence; open_handlers; nothrow.
Qed.

(** When no loop is active, a handler that raises has not touched the busy
    state. *)
Lemma handleAction_throw_keeps_state (env : Env) (rs : Render) (fuel : nat)
    (a : ActionType) (p : option Payload) (w : World) (e : JsError) :
  isLiveActive w = false -> isFindingActive w = false ->
  fst (handleAction env rs fuel a p w) = Throw e ->
  appState (snd (handleAction env rs fuel a p w)) = appState w.
Proof.
  intros L F T.
  assert (Cases : a = HELP \/ a = DELETE_ITEM \/ (a <> HELP /\ a <> DELETE_ITEM))
    by (destruct a; auto; right; right; split; discriminate).
  destruct Cases as [-> | [-> | [NH ND]]].
  - revert T. unfold handleAction. open_handlers. js_unfold. cbn.
    destruct (r_isLive rs); cbn; rewrite ?L; cbn; rewrite ?F; cbn;
      destruct (getHelp env); cbn; congruence.
  - revert T. unfold handleAction. open_handlers. js_unfold. cbn.
    destruct (r_isLive rs); cbn; rewrite ?L; cbn; rewrite ?F; cbn;
      destruct (isManaging (r_appState rs) && truthy (payloadItemName p)); cbn;
      try congruence;
      destruct (db_deleteItem env (payloadItemName p)); cbn; congruence.
  - now elim (@handleAction_nothrow env rs fuel a p NH ND w e).
Qed.

(** The world in which the [try] block of [handleVoiceCommand] starts. *)
Definition interpreting (transcript : string) (w : World) : World :=
  set_error None
    (set_lastResponse ("Interpreting: " ++ dquote ++ transcript ++ dquote ++ "...")
       (set_appState INTERPRETING_COMMAND w)).

(** What the [catch] and the [finally] block make of the world the [try]
    block has left, [failed] being whether it left by an exception. *)
Definition cleanedUp (pre : AppState) (failed : option JsError) (w : World) : World :=
  let w1 :=
    match failed with
    | Some err =>
        set_trace
          (trace w ++ [ESpeak ("Sorry, " ++ messageOr "Could not understand your command." err)])
          (set_error (Some (messageOr "Could not understand your command." err)) w)
    | None => w
    end in
  set_trace (trace w1 ++ [EResumeAfterProcessing])
    (set_appState (restoreState pre (appState w1)) w1).

(** A final transcript without an interrupt word, outside the busy states,
    goes through interpretation and then, if the [try] block ends at all,
    through the cleanup. *)
Lemma handleVoiceCommand_command_path (env : Env) (fuel : nat)
    (transcript : string) (w : World) :
  isStopCommand transcript = false -> isBusy (appState w) = false ->
  let body := interpretAndDispatch env (render w) fuel transcript
                (interpreting transcript w) in
  handleVoiceCommand env fuel transcript true w
  = match fst body with
    | Ret _ => (Ret tt, cleanedUp (appState w) None (snd body))
    | Throw e => (Ret tt, cleanedUp (appState w) (Some e) (snd body))
    | Spin => (Spin, snd body)
    end.
Proof.
  intros Stop Busy body.
  unfold handleVoiceCommand, bind at 1, read. rewrite Stop. cbn [render r_appState].
  rewrite Busy. cbn [orb negb].
  change (tryFinally
            (tryCatch (interpretAndDispatch env (render w) fuel transcript)
               (fun err =>
                  setError (Some (messageOr "Could not understand your command." err)) ;;
                  speak ("Sorry, " ++ messageOr "Could not understand your command." err)))
            (modify (fun w0 => set_appState (restoreState (appState w) (appState w0)) w0) ;;
             emit EResumeAfterProcessing) (interpreting transcript w)
          = match fst body with
            | Ret _ => (Ret tt, cleanedUp (appState w) None (snd body))
            | Throw e => (Ret tt, cleanedUp (appState w) (Some e) (snd body))
            | Spin => (Spin, snd body)
            end).
  unfold tryFinally, tryCatch, body.
  destruct (interpretAndDispatch env (render w) fuel transcript
              (interpreting transcript w)) as [[[]|e|] w2]; reflexivity.
Qed.

Lemma restoreState_rests (pre cur : AppState) :
  restoreState pre cur <> INTERPRETING_COMMAND
  /\ restoreState pre cur <> ANALYZING.
Proof.
  destruct cur; simpl; try (split; discriminate);
    destruct (isManaging pre); split; discriminate.
Qed.

(** When no loop is active, a [try] block that ends in an exception, be it
    from the interpretation or from the handler, has left the busy state
    at INTERPRETING_COMMAND. *)
Lemma interpretAndDispatch_throw_keeps_state (env : Env) (rs : Render)
    (fuel : nat) (transcript : string) (w : World) (e : JsError) :
  isLiveActive w = false -> isFindingActive w = false ->
  fst (interpretAndDispatch env rs fuel transcript w) = Throw e ->
  appState (snd (interpretAndDispatch env rs fuel transcript w)) = appState w.
Proof.
  intros L F. unfold interpretAndDispatch, call. unfold bind at 1 2. unfold emit, modify.
  destruct (interpretCommand env transcript (map item_name (r_personalItems rs))
              (r_appState rs)) as [[[[a|] p]|]|err]; cbn; try reflexivity.
  set (w1 := set_trace _ w).
  assert (A : a = UNKNOWN \/ a = STOP \/ (a <> UNKNOWN /\ a <> STOP))
    by (destruct a; auto; right; right; split; discriminate).
  destruct A as [-> | [-> | [NU NS]]].
  - intros T. now elim (@handleAskGemini_nothrow env (Some transcript) w1 e).
  - discriminate.
  - intros T.
    assert (E : match a with
                | UNKNOWN => handleAskGemini env (Some transcript)
                | STOP => ret tt
                | _ => handleAction env rs fuel a p
                end = handleAction env rs fuel a p)
      by (destruct a; congruence).
    rewrite E in *.
    now rewrite (@handleAction_throw_keeps_state env rs fuel a p w1 e L F T).
Qed.

(** *** At most one loop *)

(** The invariant: [isLive] mirrors the commentary flag, and the two loop
    flags are not both set. *)
Definition OneLoop (w : World) : Prop :=
  isLive w = isLiveActive w
  /\ isLiveActive w && isFindingActive w = false.

Lemma OneLoop_frames (A : Type) (m : M A) (w : World) :
  Frames sameFlags m -> OneLoop w -> OneLoop (snd (m w)).
Proof.
  intros F [I1 I2]. destruct (F w) as (H1 & H2 & H3).
  unfold OneLoop. rewrite H1, H2, H3. now split.
Qed.

Lemma findHead_flags (env : Env) (fuel : nat) (item : string) :
  Frames sameFlags (findHead env fuel item).
Proof.
  induction fuel as [|fuel IH]; cbn [findHead]; open_handlers;
    frames_with flags_leaf.
Qed.

Lemma liveHead_flags (env : Env) : Frames sameFlags (liveHead env).
Proof. open_handlers. frames_with flags_leaf. Qed.

Lemma liveAfterAnalysis_flags (r : Res string) :
  Frames sameFlags (liveAfterAnalysis r).
Proof. open_handlers. frames_with flags_leaf. Qed.

Lemma findAfterAnalysis_flags (item : string) (r : Res string) :
  Frames sameFlags (findAfterAnalysis item r).
Proof. open_handlers. frames_with flags_leaf. Qed.

Lemma findAfterSpokenDelay_flags : Frames sameFlags findAfterSpokenDelay.
Proof. open_handlers. frames_with flags_leaf. Qed.

Lemma toggleVoiceCommands_flags : Frames sameFlags toggleVoiceCommands.
Proof. open_handlers. frames_with flags_leaf. Qed.

Lemma handleDeleteItem_flags (env : Env) (name : string) :
  Frames sameFlags (handleDeleteItem env name).
Proof. open_handlers. frames_with flags_leaf. Qed.

Lemma handleAskGemini_flags (env : Env) (q : option string) :
  Frames sameFlags (handleAskGemini env q).
Proof. open_handlers. frames_with flags_leaf. Qed.

Lemma handleSaveItem_flags (env : Env) (rs : Render) :
  Frames sameFlags (handleSaveItem env rs).
Proof. open_handlers. frames_with flags_leaf. Qed.

Lemma processAction_flags (env : Env) (rs : Render)
    (apiCall : Image -> Effect * Res (string * History)) (allow : bool) :
  Frames sameFlags (processAction env rs apiCall allow).
Proof. open_handlers. frames_with flags_leaf. Qed.

Lemma processTerrainAction_flags (env : Env) (rs : Render) :
  Frames sameFlags (processTerrainAction env rs).
Proof. open_handlers. frames_with flags_leaf. Qed.

Lemma handleFollowUpQuestion_flags (env : Env) (rs : Render) :
  Frames sameFlags (handleFollowUpQuestion env rs).
Proof. open_handlers. frames_with flags_leaf. Qed.



(** The flags and the trace a fresh start of either loop leaves. *)
Lemma runLiveCommentary_start (env : Env) (w : World) :
  isLiveActive w = false ->
  let w' := snd (runLiveCommentary env w) in
  isLive w' = true /\ isLiveActive w' = true
  /\ isFindingActive w' = isFindingActive w.
Proof.
  intros L. unfold runLiveCommentary. rewrite run_read, L.
  unfold setIsLive, setAppState, setLastResponse, speak, emit. run_head.
  match goal with
  | |- context [bind (liveHead env) ?k ?w0] =>
      assert (F : Frames sameFlags (bind (liveHead env) k))
        by (apply Frames_bind; [apply liveHead_flags | intros; apply Frames_ret]);
      destruct (F w0) as (H1 & H2 & H3)
  end.
  cbv zeta. rewrite H1, H2, H3. fields. auto.
Qed.

Lemma runObjectFinder_start (env : Env) (fuel : nat) (item : string)
    (w : World) :
  isFindingActive w = false ->
  let w' := snd (runObjectFinder env fuel item w) in
  isLive w' = isLive w /\ isLiveActive w' = isLiveActive w
  /\ isFindingActive w' = true.
Proof.
  intros L. unfold runObjectFinder. rewrite run_read, L.
  unfold setFindingItemName, setAppState, setLastResponse, speak, emit.
  run_head.
  match goal with
  | |- context [bind (findHead env fuel item) ?k ?w0] =>
      assert (F : Frames sameFlags (bind (findHead env fuel item) k))
        by (apply Frames_bind; [apply findHead_flags | intros; apply Frames_ret]);
      destruct (F w0) as (H1 & H2 & H3)
  end.
  cbv zeta. rewrite H1, H2, H3. fields. auto.
Qed.

Lemma snd_bind_ret (A : Type) (m : M A) (w : World) :
  snd (bind m (fun _ => ret tt) w) = snd (m w).
Proof. unfold bind, ret. now destruct (m w) as [[a|e|] w1]. Qed.

(** Every action starts with the universal stop; after it no flag is set,
    and the action sets at most one. *)
Lemma handleAction_OneLoop (env : Env) (rs : Render) (fuel : nat)
    (a : ActionType) (p : option Payload) (w : World) :
  r_isLive rs = isLive w -> OneLoop w ->
  OneLoop (snd (handleAction env rs fuel a p w)).
Proof.
  intros E [I1 I2]. unfold handleAction.
  rewrite E, I1.
  assert (Clear : exists w0,
    isLive w0 = false /\ isLiveActive w0 = false /\ isFindingActive w0 = false
    /\ forall (k : unit -> M unit),
         bind (when (isLiveActive w) stopLiveCommentary)
           (fun _ => bind (read isFindingActive)
              (fun finding => bind (when finding stopObjectFinder) k)) w
         = k tt w0).
  { unfold when, stopLiveCommentary, stopObjectFinder, when, setIsLive,
      setFindingItemName, setAppState, setLastResponse, cancel, emit.
    destruct (isLiveActive w) eqn:L; destruct (isFindingActive w) eqn:F;
      simpl in I2; try discriminate.
    - eexists. split; [|split; [|split]]; cycle 3.
      + intros k. run_head. rewrite L. cbv beta iota. run_head.
        rewrite F. cbv beta iota. run_head. reflexivity.
      + reflexivity.
      + reflexivity.
      + exact F.
    - eexists. split; [|split; [|split]]; cycle 3.
      + intros k. run_head. rewrite F. cbv beta iota. run_head.
        rewrite F. cbv beta iota. run_head. reflexivity.
      + fields. congruence.
      + exact L.
      + reflexivity.
    - eexists. split; [|split; [|split]]; cycle 3.
      + intros k. run_head. rewrite F. cbv beta iota. run_head. reflexivity.
      + congruence.
      + exact L.
      + exact F. }
  destruct Clear as (w0 & C1 & C2 & C3 & Run). rewrite Run. clear Run.
  assert (O0 : OneLoop w0) by (unfold OneLoop; rewrite C1, C2, C3; auto).
  assert (Reset : exists w1,
    isLive w1 = false /\ isLiveActive w1 = false /\ isFindingActive w1 = false
    /\ forall (k : unit -> M unit),
         bind (when (negb (isAskQuestion a))
                 (setConversationHistory [] ;; setLastAnalyzedImage None)) k w0
         = k tt w1).
  { unfold when, setConversationHistory, setLastAnalyzedImage.
    destruct (negb (isAskQuestion a)); eexists;
      (split; [|split; [|split]]); cycle 3;
      try (intros k; run_head; reflexivity); fields; assumption. }
  destruct Reset as (w1 & D1 & D2 & D3 & Run). rewrite Run. clear Run.
  assert (O1 : OneLoop w1) by (unfold OneLoop; rewrite D1, D2, D3; auto).
  destruct a;
    try solve [apply OneLoop_frames;
                 [open_handlers; frames_with flags_leaf | exact O1]].
  - destruct (isLiveActive w).
    + unfold stopLiveCommentary. rewrite run_read, D2. exact O1.
    + rewrite snd_bind_ret.
      destruct (@runLiveCommentary_start env w1 D2) as (H1 & H2 & H3).
      unfold OneLoop. rewrite H1, H2, H3, D3. auto.
  - destruct (truthy (payloadItemName p)); [|exact O1].
    rewrite snd_bind_ret.
    destruct (@runObjectFinder_start env fuel (payloadItemName p) w1 D3)
      as (H1 & H2 & H3).
    unfold OneLoop. rewrite H1, H2, H3, D1, D2. auto.
Qed.

Lemma interpretAndDispatch_OneLoop (env : Env) (rs : Render) (fuel : nat)
    (transcript : string) (w : World) :
  r_isLive rs = isLive w -> OneLoop w ->
  OneLoop (snd (interpretAndDispatch env rs fuel transcript w)).
Proof.
  intros E O. unfold interpretAndDispatch, call, emit. rewrite run_assoc.
  run_head.
  set (w1 := set_trace _ w).
  assert (E1 : r_isLive rs = isLive w1) by exact E.
  assert (O1 : OneLoop w1) by exact O.
  destruct (interpretCommand env transcript (map item_name (r_personalItems rs))
              (r_appState rs)) as [[[[a|] p]|]|err];
    try exact O1.
  rewrite run_ret.
  destruct a; try (now apply handleAction_OneLoop); try exact O1.
  apply OneLoop_frames; [apply handleAskGemini_flags | exact O1].
Qed.

(** Every step of the coordinator keeps the invariant. *)
Lemma Step_OneLoop (w w' : World) : Step w w' -> OneLoop w -> OneLoop w'.
Proof.
  intros St O. destruct St.
  - (* a transcript *)
    destruct (isStopCommand transcript) eqn:Stop.
    + unfold handleVoiceCommand. rewrite run_read, Stop.
      destruct O as [I1 I2].
      unfold stopLiveCommentary, stopObjectFinder, when, setIsLive,
        setFindingItemName, setAppState, setLastResponse, cancel, speak, emit.
      run_head.
      destruct (isLiveActive w) eqn:L; cbv beta iota; run_head;
        destruct (isFindingActive w) eqn:F; cbv beta iota; run_head;
        unfold OneLoop, modify; fields; rewrite ?I1, ?L, ?F; auto.
    + destruct (isBusy (appState w) || negb isFinal) eqn:Skip.
      * unfold handleVoiceCommand. rewrite run_read, Stop. fields.
        rewrite Skip. exact O.
      * apply orb_false_iff in Skip. destruct Skip as [Busy Fin].
        apply negb_false_iff in Fin. subst isFinal.
        rewrite (@handleVoiceCommand_command_path env fuel transcript w Stop Busy).
        cbv zeta.
        assert (B : OneLoop (snd (interpretAndDispatch env (render w) fuel
                                    transcript (interpreting transcript w))))
          by (apply interpretAndDispatch_OneLoop; [reflexivity | exact O]).
        destruct (fst (interpretAndDispatch env (render w) fuel transcript
                         (interpreting transcript w))) as [[]|e|];
          try exact B; unfold cleanedUp, OneLoop; fields; exact B.
  - now apply handleAction_OneLoop.
  - apply OneLoop_frames; [apply handleDeleteItem_flags | exact O].
  - apply OneLoop_frames; [apply toggleVoiceCommands_flags | exact O].
  - exact O.
  - apply OneLoop_frames; [apply liveAfterAnalysis_flags | exact O].
  - apply OneLoop_frames; [apply liveHead_flags | exact O].
  - apply OneLoop_frames; [apply findAfterAnalysis_flags | exact O].
  - apply OneLoop_frames; [apply findAfterSpokenDelay_flags | exact O].
  - apply OneLoop_frames; [apply findHead_flags | exact O].
Qed.

Lemma Reachable_OneLoop (items : list PersonalItem) (w : World) :
  Reachable items w -> OneLoop w.
Proof.
  induction 1 as [|w w' _ IH St]; [now split | exact (Step_OneLoop St IH)].
Qed.

(** *** Interrupt words *)

Lemma isStopCommand_contains (pre u post word : string) :
  In word stopWords -> toLowerCase u = word ->
  isStopCommand (pre ++ u ++ post) = true.
Proof.
  intros I E. unfold isStopCommand. apply existsb_exists.
  exists word. split; [exact I|].
  rewrite !toLowerCase_app, E. apply includes_app.
Qed.

(** The hook delivers transcripts in lower case; the coordinator's own
    lowering changes nothing then. *)
Lemma isStopCommand_toLowerCase (transcript : string) :
  isStopCommand (toLowerCase transcript) = isStopCommand transcript.
Proof. unfold isStopCommand. now rewrite toLowerCase_idem. Qed.

(** What the interrupt branch of [handleVoiceCommand] does. *)
Lemma handleVoiceCommand_interrupt (env : Env) (fuel : nat)
    (transcript : string) (isFinal : bool) (w : World) :
  isStopCommand transcript = true ->
  let r := handleVoiceCommand env fuel transcript isFinal w in
  let w' := snd r in
  fst r = Ret tt
  /\ appState w' = IDLE
  /\ isLiveActive w' = false
  /\ isFindingActive w' = false
  /\ lastResponse w' = "Okay, stopped."
  /\ (exists stops,
        trace w'
        = (trace w ++ [ECancel] ++ stops
             ++ [ESpeak "Okay, stopped."; EResumeAfterProcessing])%list
        /\ Forall (fun e => e = ECancel \/ e = ESetLiveActive false
                            \/ e = ESetFindingActive false) stops)
  /\ resumes w' = S (resumes w)
  /\ interpretations w' = interpretations w.
Proof.
  intros Stop r w'.
  assert (Shape : fst r = Ret tt
    /\ appState w' = IDLE /\ isLiveActive w' = false
    /\ isFindingActive w' = false /\ lastResponse w' = "Okay, stopped."
    /\ exists stops,
         trace w'
         = (trace w ++ [ECancel] ++ stops
              ++ [ESpeak "Okay, stopped."; EResumeAfterProcessing])%list
         /\ Forall (fun e => e = ECancel \/ e = ESetLiveActive false
                             \/ e = ESetFindingActive false) stops).
  { unfold w', r, handleVoiceCommand, bind at 1, read. rewrite Stop.
    unfold stopLiveCommentary, stopObjectFinder. js_unfold. cbn.
    destruct (isLiveActive w) eqn:L, (isFindingActive w) eqn:F;
      cbn; rewrite ?L, ?F; cbn;
      repeat (split; [first [reflexivity | assumption]|]).
    - exists [ESetLiveActive false; ECancel; ESetFindingActive false; ECancel].
      split; [now rewrite <- !app_assoc | repeat (apply Forall_cons; [auto|]); apply Forall_nil].
    - exists [ESetLiveActive false; ECancel].
      split; [now rewrite <- !app_assoc | repeat (apply Forall_cons; [auto|]); apply Forall_nil].
    - exists [ESetFindingActive false; ECancel].
      split; [now rewrite <- !app_assoc | repeat (apply Forall_cons; [auto|]); apply Forall_nil].
    - exists []. split; [now rewrite <- !app_assoc | constructor]. }
  destruct Shape as (H1 & H2 & H3 & H4 & H5 & stops & T & A).
  repeat (split; [assumption|]).
  split; [exists stops; now split|].
  unfold resumes, interpretations. rewrite T, !filter_app, !length_app.
  assert (Q : forall l, Forall (fun e => e = ECancel \/ e = ESetLiveActive false
                          \/ e = ESetFindingActive false) l ->
              filter isResume l = [] /\ filter isInterpret l = []).
  { induction 1 as [|e l He _ [IH1 IH2]]; [now split|].
    destruct He as [-> | [-> | ->]]; simpl; now split. }
  destruct (Q stops A) as [Q1 Q2]. rewrite Q1, Q2. simpl. lia.
Qed.

(** C2. A transcript, interim or final, that contains an interrupt word in
    any letter case is answered, in every state of the coordinator, by:
    speech output cancelled first, both loop flags cleared, busy state
    IDLE, the acknowledgment spoken, and the resume signal given once, as
    the last thing done; the interpretation collaborator is not invoked. *)
Theorem C2_interrupt_word_stops_everything :
  forall (env : Env) (fuel : nat) (pre u post word : string)
         (isFinal : bool) (w : World),
    In word stopWords -> toLowerCase u = word ->
    let r := handleVoiceCommand env fuel (pre ++ u ++ post) isFinal w in
    let w' := snd r in
    fst r = Ret tt
    /\ appState w' = IDLE
    /\ isLiveActive w' = false
    /\ isFindingActive w' = false
    /\ lastResponse w' = "Okay, stopped."
    /\ (exists stops,
          trace w'
          = (trace w ++ [ECancel] ++ stops
               ++ [ESpeak "Okay, stopped."; EResumeAfterProcessing])%list
          /\ Forall (fun e => e = ECancel \/ e = ESetLiveActive false
                              \/ e = ESetFindingActive false) stops)
    /\ resumes w' = S (resumes w)
    /\ interpretations w' = interpretations w.
Proof.
  intros env fuel pre u post word isFinal w I E.
  apply handleVoiceCommand_interrupt.
  exact (@isStopCommand_contains pre u post word I E).
Qed.

(** The interrupt word spoken in capitals while live commentary runs. *)
Lemma C2_interrupt_word_witness :
  let w := set_isLiveActive true (set_isLive true
             (set_appState LIVE_COMMENTARY ready)) in
  let w' := snd (handleVoiceCommand answering 1 "please STOP now" false w) in
  appState w' = IDLE /\ isLiveActive w' = false /\ resumes w' = 1.
Proof.
  intros w w'.
  pose proof (@C2_interrupt_word_stops_everything answering 1
                "please " "STOP" " now" "stop" false w
                (or_introl eq_refl) eq_refl) as H.
  cbv zeta in H. destruct H as (_ & A & L & _ & _ & _ & R & _).
  split; [exact A | split; [exact L | exact R]].
Defined.

(** *** Busy gating *)

(** C4. A transcript without an interrupt word that is not final, or that
    arrives in a busy state other than IDLE, AWAITING_FOLLOWUP and
    MANAGING_ITEMS, leaves the coordinator exactly as it was: nothing is
    called, the interpretation collaborator included, and the busy state
    is the same.  And no transcript that is not final, with or without an
    interrupt word, gets to the interpretation collaborator. *)
Theorem C4_busy_or_interim_transcript_is_discarded :
  forall (env : Env) (fuel : nat) (transcript : string) (isFinal : bool)
         (w : World),
    (isStopCommand transcript = false ->
     isFinal = false
     \/ (appState w <> IDLE /\ appState w <> AWAITING_FOLLOWUP
         /\ appState w <> MANAGING_ITEMS) ->
     handleVoiceCommand env fuel transcript isFinal w = (Ret tt, w))
    /\ (isFinal = false ->
        interpretations (snd (handleVoiceCommand env fuel transcript isFinal w))
        = interpretations w).
Proof.
  intros env fuel transcript isFinal w.
  assert (Discard : isStopCommand transcript = false ->
            isFinal = false
            \/ (appState w <> IDLE /\ appState w <> AWAITING_FOLLOWUP
                /\ appState w <> MANAGING_ITEMS) ->
            handleVoiceCommand env fuel transcript isFinal w = (Ret tt, w)).
  { intros Stop H. unfold handleVoiceCommand, bind at 1, read. rewrite Stop. cbn.
    destruct H as [-> | (H1 & H2 & H3)].
    - now rewrite orb_true_r.
    - destruct (appState w); try reflexivity; congruence. }
  split; [exact Discard|].
  intros Fin. destruct (isStopCommand transcript) eqn:Stop.
  - now destruct (@handleVoiceCommand_interrupt env fuel transcript isFinal w Stop)
      as (_ & _ & _ & _ & _ & _ & _ & I).
  - now rewrite (Discard eq_refl (or_introl Fin)).
Qed.

(** An interim transcript in IDLE, and a final one while ANALYZING. *)
Lemma C4_discard_witness :
  handleVoiceCommand answering 1 "describe the" false ready = (Ret tt, ready)
  /\ handleVoiceCommand answering 1 "read the text" true
       (set_appState ANALYZING ready)
     = (Ret tt, set_appState ANALYZING ready).
Proof.
  split.
  - apply (proj1 (@C4_busy_or_interim_transcript_is_discarded answering 1
                    "describe the" false ready) eq_refl (or_introl eq_refl)).
  - apply (proj1 (@C4_busy_or_interim_transcript_is_discarded answering 1
                    "read the text" true (set_appState ANALYZING ready)) eq_refl).
    right. repeat split; discriminate.
Defined.

(** *** The polling loops *)

(** The effects a run has added to the trace of [w]. *)
Definition added (w w' : World) (delta : list Effect) : Prop :=
  trace w' = (trace w ++ delta)%list.

(** A rejected analysis call does not end the commentary loop: the
    rejection is caught, the flag stays set, the loop waits its delay and
    the next round captures a frame. *)
Lemma live_commentary_survives_failure (env : Env) (e : JsError) (w : World) :
  isLiveActive w = true ->
  let r := liveAfterAnalysis (Fail e) w in
  fst r = Ret LiveAwaitDelay
  /\ isLiveActive (snd r) = true
  /\ added w (snd r) [EConsoleError; ESetTimeout 2000]
  /\ exists pc more,
       fst (liveAfterDelay env (snd r)) = Ret pc /\ pc <> LiveExit
       /\ added (snd r) (snd (liveAfterDelay env (snd r)))
            ([ECheckLive true; ECaptureFrame; ECheckLive true] ++ more).
Proof.
  intros L. unfold liveAfterAnalysis, liveAfterDelay, liveHead, checkLive,
    captureFrame, added. js_unfold. cbn. repeat (rewrite L; cbn).
  repeat split; try (now rewrite <- !app_assoc).
  destruct (truthyImage (captureFrameResult env (captured w))) as [img|]; cbn.
  - exists (LiveAwaitAnalysis img), [EQuickFrame img].
    split; [reflexivity | split; [discriminate | now rewrite <- !app_assoc]].
  - exists LiveAwaitDelay, [ESetTimeout 2000].
    split; [reflexivity | split; [discriminate | now rewrite <- !app_assoc]].
Qed.

(** The search loop as it stands when [findObject] is in flight. *)
Definition searching : World :=
  snd (runObjectFinder answering 1 "keys" ready).

(** C5, evaluated where it fails.  In the object-search loop a rejection
    of [findObject] is not caught: it ends the run of [runObjectFinder]
    then and there, with the flag still set and the busy state still
    FINDING_ITEM, so that no further iteration runs and a new search is
    refused.  (The commentary loop does catch it, see
    [live_commentary_survives_failure].) *)
Theorem C5_findObject_failure_ends_the_search_loop :
  (forall (item : string) (e : JsError) (w : World),
      findAfterAnalysis item (Fail e) w = (Throw e, w))
  /\ fst (runObjectFinder answering 1 "keys" ready)
     = Ret (Some (FindAwaitAnalysis "data:image/jpeg;base64,AAAA"))
  /\ (let r := findAfterAnalysis "keys" (Fail (ErrorObject "503")) searching in
      fst r = Throw (ErrorObject "503")
      /\ isFindingActive (snd r) = true
      /\ appState (snd r) = FINDING_ITEM
      /\ runObjectFinder answering 1 "keys" (snd r) = (Ret None, snd r)).
Proof.
  split; [reflexivity|]. split; [vm_compute; reflexivity|]. cbv zeta.
  split; [vm_compute; reflexivity|]. split; [vm_compute; reflexivity|].
  split; vm_compute; reflexivity.
Qed.

(** C10. While the search flag is set and [captureFrame] returns null, one
    round of the object-search loop reads the flag, calls [captureFrame]
    and is back at the loop test: it calls no analysis, speaks nothing
    and starts no timer.  So however many rounds are granted, as long as
    every capture is null the run has done only that, has the flag still
    set, and has not reached an [await]. *)
Theorem C10_search_loop_spins_without_a_frame :
  forall (env : Env) (fuel : nat) (item : string) (w : World),
    isFindingActive w = true ->
    (forall k, k < fuel ->
       truthyImage (captureFrameResult env (captured w + k)) = None) ->
    let r := findHead env fuel item w in
    fst r = Spin
    /\ snd r
       = set_trace
           (trace w
              ++ concat (repeat [ECheckFinding true; ECaptureFrame] fuel))
           (set_captured (captured w + fuel) w)
    /\ isFindingActive (snd r) = true.
Proof.
  intros env fuel item. induction fuel as [|fuel IH]; intros w F Null.
  - cbn. repeat split; try assumption.
    rewrite app_nil_r, Nat.add_0_r. unfold set_trace, set_captured; cbn.
    symmetry. apply world_eta.
  - pose proof (Null 0 (Nat.lt_0_succ fuel)) as N0.
    rewrite Nat.add_0_r in N0.
    set (w1 := set_trace (trace w ++ [ECheckFinding true; ECaptureFrame])
                 (set_captured (S (captured w)) w)).
    assert (E : findHead env (S fuel) item w = findHead env fuel item w1).
    { cbn [findHead]. unfold checkFinding, captureFrame. js_unfold. cbn.
      rewrite F. cbn. rewrite N0. unfold w1, set_trace, set_captured; cbn.
      now rewrite <- app_assoc. }
    cbv zeta. rewrite E.
    destruct (IH w1) as (I1 & I2 & I3); [exact F | |].
    + intros k Hk. cbn. rewrite <- Nat.add_succ_r. apply Null. lia.
    + cbv zeta in I1, I2, I3. repeat split; try assumption.
      rewrite I2. unfold w1, set_trace, set_captured; cbn.
      rewrite <- app_assoc, Nat.add_succ_r. reflexivity.
Qed.

(** A search started while the camera delivers nothing. *)
Lemma C10_search_loop_witness :
  let w := set_isFindingActive true ready in
  fst (findHead blind 3 "keys" w) = Spin
  /\ trace (snd (findHead blind 3 "keys" w))
     = [ECheckFinding true; ECaptureFrame; ECheckFinding true; ECaptureFrame;
        ECheckFinding true; ECaptureFrame]
  /\ isFindingActive (snd (findHead blind 3 "keys" w)) = true.
Proof.
  intros w.
  assert (F : isFindingActive w = true) by reflexivity.
  assert (N : forall k, k < 3 ->
            truthyImage (captureFrameResult blind (captured w + k)) = None)
    by (intros; reflexivity).
  pose proof (@C10_search_loop_spins_without_a_frame blind 3 "keys" w F N)
    as H.
  cbv zeta in H. destruct H as (A & B & C).
  split; [exact A | split; [rewrite B; reflexivity | exact C]].
Defined.

(** The commentary loop as it stands when its first analysis call is in
    flight, and the same after [stopLiveCommentary]. *)
Definition commenting : World := snd (runLiveCommentary answering ready).
Definition stoppedInFlight : World := snd (stopLiveCommentary commenting).

(** C6 fails on the code.  Stopped while its analysis call is in flight,
    the commentary loop is not over when that call returns: it starts its
    2000ms timer and is over only when the timer has expired.  And one
    whole round of the object-search loop reads its flag twice, not three
    times. *)
Lemma C6_commentary_waits_its_delay_after_stop :
  fst (runLiveCommentary answering ready)
  = Ret (Some (LiveAwaitAnalysis "data:image/jpeg;base64,AAAA"))
  /\ isLiveActive stoppedInFlight = false
  /\ liveAfterAnalysis (Ok "A kitchen counter.") stoppedInFlight
     = (Ret LiveAwaitDelay,
        set_trace (trace stoppedInFlight ++ [ECheckLive false; ESetTimeout 2000])
          stoppedInFlight)
  /\ LiveAwaitDelay <> LiveExit
  /\ (let w := set_isFindingActive true ready in
      let r1 := findHead answering 1 "keys" w in
      let r2 := findAfterAnalysis "keys" (Ok "I don't see it here.") (snd r1) in
      fst r2 = Ret FindAwaitDelay
      /\ length (filter isFindingCheck (trace (snd r2))) = 2).
Proof.
  split; [vm_compute; reflexivity|]. split; [vm_compute; reflexivity|].
  split; [vm_compute; reflexivity|]. split; [discriminate|].
  cbv zeta. split; vm_compute; reflexivity.
Qed.

(** C6 as the code has it.  A whole round of the commentary loop reads
    its flag three times: before the capture, after it, and after the
    analysis call has returned.  A whole round of the object-search loop
    reads its flag twice: before the capture and after the analysis call
    has returned.  In both loops a result that arrives while the flag is
    clear is not spoken and not shown.  The object-search loop is over as
    soon as that result has arrived; the commentary loop then still starts
    its 2000ms timer and is over at the loop test that follows it, without
    another capture. *)
Theorem C6_flag_checkpoints_of_the_loops :
  forall (env : Env) (w : World),
    (forall img d,
        isLiveActive w = true ->
        truthyImage (captureFrameResult env (captured w)) = Some img ->
        let r1 := liveHead env w in
        let r2 := liveAfterAnalysis (Ok d) (snd r1) in
        fst r1 = Ret (LiveAwaitAnalysis img)
        /\ added w (snd r1)
             [ECheckLive true; ECaptureFrame; ECheckLive true; EQuickFrame img]
        /\ fst r2 = Ret LiveAwaitDelay
        /\ added (snd r1) (snd r2)
             ([ECheckLive true] ++ (if truthy d then [ESpeak d] else [])
                ++ [ESetTimeout 2000]))
    /\ (forall fuel item img text,
          isFindingActive w = true ->
          truthyImage (captureFrameResult env (captured w)) = Some img ->
          let r1 := findHead env (S fuel) item w in
          let r2 := findAfterAnalysis item (Ok text) (snd r1) in
          fst r1 = Ret (FindAwaitAnalysis img)
          /\ added w (snd r1)
               [ECheckFinding true; ECaptureFrame; EFindObject img item]
          /\ added (snd r1) (snd r2)
               ([ECheckFinding true]
                  ++ (if negb (text =? "I don't see it here.")%string
                      then [ESpeak text; ESetTimeout 3000]
                      else [ESetTimeout 500])))
    /\ (forall r,
          isLiveActive w = false ->
          let a := liveAfterAnalysis r w in
          fst a = Ret LiveAwaitDelay
          /\ added w (snd a)
               [match r with Ok _ => ECheckLive false | Fail _ => EConsoleError end;
                ESetTimeout 2000]
          /\ lastResponse (snd a) = lastResponse w
          /\ isLiveActive (snd a) = false
          /\ liveAfterDelay env (snd a)
             = (Ret LiveExit,
                set_trace (trace (snd a) ++ [ECheckLive false]) (snd a)))
    /\ (forall item text,
          isFindingActive w = false ->
          findAfterAnalysis item (Ok text) w
          = (Ret FindExit, set_trace (trace w ++ [ECheckFinding false]) w)).
Proof.
  intros env w. repeat apply conj.
  - intros img d L C r1 r2. unfold r2, r1, liveAfterAnalysis, liveHead,
      checkLive, captureFrame, added. js_unfold. cbn.
    repeat (rewrite L; cbn). rewrite C. cbn. repeat (rewrite L; cbn).
    destruct (truthy d); cbn;
      repeat split; now rewrite <- ?app_assoc.
  - intros fuel item img text F C r1 r2. unfold r2, r1, findAfterAnalysis.
    cbn [findHead]. unfold checkFinding, captureFrame, added. js_unfold. cbn.
    repeat (rewrite F; cbn). rewrite C. cbn. repeat (rewrite F; cbn).
    destruct (text =? "I don't see it here.")%string; cbn;
      repeat split; now rewrite <- ?app_assoc.
  - intros r L a. unfold a, liveAfterAnalysis, liveAfterDelay, liveHead,
      checkLive, captureFrame, added. js_unfold.
    destruct r as [d|e]; cbn; repeat (rewrite L; cbn);
      repeat split; try assumption; now rewrite <- ?app_assoc.
  - intros item text F. unfold findAfterAnalysis, checkFinding. js_unfold.
    cbn. now rewrite F.
Qed.

(** The commentary loop stopped in flight, and a search round. *)
Lemma C6_flag_checkpoints_witness :
  (let a := liveAfterAnalysis (Ok "A kitchen counter.") stoppedInFlight in
   fst a = Ret LiveAwaitDelay
   /\ lastResponse (snd a) = "Live commentary stopped."
   /\ fst (liveAfterDelay answering (snd a)) = Ret LiveExit)
  /\ fst (findHead answering 1 "keys" (set_isFindingActive true ready))
     = Ret (FindAwaitAnalysis "data:image/jpeg;base64,AAAA").
Proof.
  pose proof (@C6_flag_checkpoints_of_the_loops answering stoppedInFlight)
    as (_ & _ & Stop & _).
  pose proof (@C6_flag_checkpoints_of_the_loops answering
                (set_isFindingActive true ready)) as (_ & Find & _ & _).
  assert (L : isLiveActive stoppedInFlight = false) by (vm_compute; reflexivity).
  specialize (Stop (Ok "A kitchen counter.") L). cbv zeta in Stop.
  destruct Stop as (S1 & _ & S3 & _ & S5).
  assert (F : isFindingActive (set_isFindingActive true ready) = true)
    by reflexivity.
  assert (C : truthyImage (captureFrameResult answering
                 (captured (set_isFindingActive true ready)))
              = Some "data:image/jpeg;base64,AAAA") by reflexivity.
  specialize (Find 0 "keys" "data:image/jpeg;base64,AAAA" "none" F C).
  cbv zeta in Find. destruct Find as (F1 & _ & _).
  split; [|exact F1].
  cbv zeta. split; [exact S1|]. split; [exact S3|]. now rewrite S5.
Defined.

(** *** Guaranteed cleanup, the claim *)

(** C3 fails on the code.  "describe the scene", spoken in IDLE and carried
    out without any failure, leaves the busy state at AWAITING_FOLLOWUP and
    not at IDLE; and "close", spoken in MANAGING_ITEMS, leaves it at IDLE
    and not at MANAGING_ITEMS.  The resume signal is given once in both. *)
Lemma C3_successful_command_keeps_the_handlers_state :
  (let w' := snd (handleVoiceCommand answering 1 "describe the scene" true ready) in
   appState ready = IDLE
   /\ isStopCommand "describe the scene" = false
   /\ appState w' = AWAITING_FOLLOWUP
   /\ appState w' <> IDLE
   /\ resumes w' = 1)
  /\ (let closing :=
        mkEnv (captureFrameResult answering)
          (fun _ _ _ => Ok (Some (mkInterpretation (Some CLOSE_MANAGEMENT) None)))
          (listenForInput answering) (askGemini answering)
          (describeScene answering) (readTextFromImage answering)
          (identifyPeople answering) (checkForHazards answering)
          (analyzeTerrain answering) (askFollowUpQuestion answering)
          (getHelp answering) (db_saveItem answering) (db_getItems answering)
          (db_deleteItem answering) in
      let w := set_appState MANAGING_ITEMS ready in
      let w' := snd (handleVoiceCommand closing 1 "close" true w) in
      appState w = MANAGING_ITEMS
      /\ appState w' = IDLE
      /\ appState w' <> MANAGING_ITEMS
      /\ resumes w' = 1).
Proof.
  split; cbv zeta.
  - split; [reflexivity|]. split; [vm_compute; reflexivity|].
    split; [vm_compute; reflexivity|].
    split; [vm_compute; discriminate | vm_compute; reflexivity].
  - split; [reflexivity|]. split; [vm_compute; reflexivity|].
    split; [vm_compute; discriminate | vm_compute; reflexivity].
Qed.

(** C3 as the code has it.  A final transcript that reaches
    interpretation is handled to the end whatever the outcome, unless it
    is a search for a named item while the camera delivers nothing; the
    resume signal is then given exactly once, as the last thing done.  The cleanup restores the busy state, to
    MANAGING_ITEMS if that was the state before and to IDLE otherwise,
    where it finds INTERPRETING_COMMAND or ANALYZING, and keeps any other
    state the handler has moved to; so the state afterwards is never one
    of these two.  It is the restored state whenever interpretation yields
    no action, and, no loop being active, whenever the interpretation or
    the handler raises an error. *)
Theorem C3_cleanup_restores_and_resumes_once :
  forall (env : Env) (fuel : nat) (transcript : string) (w : World),
    isStopCommand transcript = false ->
    isBusy (appState w) = false ->
    search_has_camera env fuel transcript w ->
    let restored := if isManaging (appState w) then MANAGING_ITEMS else IDLE in
    let body := interpretAndDispatch env (render w) fuel transcript
                  (interpreting transcript w) in
    let r := handleVoiceCommand env fuel transcript true w in
    let w' := snd r in
    fst r = Ret tt
    /\ resumes w' = S (resumes w)
    /\ (exists before, trace w' = (before ++ [EResumeAfterProcessing])%list)
    /\ appState w' = restoreState (appState w) (appState (snd body))
    /\ appState w' <> INTERPRETING_COMMAND
    /\ appState w' <> ANALYZING
    /\ ((forall a p,
            interpretCommand env transcript
              (map item_name (personalItems w)) (appState w)
            <> Ok (Some (mkInterpretation (Some a) p))) ->
        appState w' = restored)
    /\ (forall e, fst body = Throw e ->
          isLiveActive w = false -> isFindingActive w = false ->
          appState w' = restored).
Proof.
  intros env fuel transcript w Stop Busy Cam restored body r w'.
  pose proof (@handleVoiceCommand_command_path env fuel transcript w Stop Busy)
    as Path. cbv zeta in Path. fold body in Path. fold r in Path.
  pose proof (@interpretAndDispatch_halts env fuel transcript w
                (interpreting transcript w) Cam) as Halt. fold body in Halt.
  pose proof (@interpretAndDispatch_resumes env (render w) fuel transcript
                (interpreting transcript w)) as Res.
  fold body in Res. cbn in Res.
  assert (R1 : resumes (snd body) = resumes w) by (rewrite Res; reflexivity).
  assert (Shape : exists failed,
             r = (Ret tt, cleanedUp (appState w) failed (snd body))
             /\ (failed = None \/ exists e, failed = Some e /\ fst body = Throw e)).
  { destruct (fst body) as [[]|e|] eqn:O.
    - exists None. auto.
    - exists (Some e). split; [exact Path | right; exists e; auto].
    - congruence. }
  destruct Shape as (failed & Hr & Hf).
  assert (St : appState w' = restoreState (appState w) (appState (snd body))).
  { unfold w'. rewrite Hr. destruct failed; reflexivity. }
  destruct (restoreState_rests (appState w) (appState (snd body))) as [N1 N2].
  split; [now rewrite Hr|].
  split.
  { unfold w'. rewrite Hr. unfold resumes in *.
    destruct failed; cbn; rewrite ?filter_app, ?length_app; cbn; lia. }
  split.
  { unfold w'. rewrite Hr. destruct failed; cbn; eexists; reflexivity. }
  split; [exact St|].
  split; [now rewrite St|]. split; [now rewrite St|].
  split.
  - intros NoAction. rewrite St.
    assert (B : appState (snd body) = INTERPRETING_COMMAND).
    { unfold body, interpretAndDispatch, call. unfold bind at 1 2.
      unfold emit, modify. cbn [render r_personalItems r_appState].
      destruct (interpretCommand env transcript (map item_name (personalItems w))
                  (appState w)) as [[[[a|] p]|]|err] eqn:I; cbn;
        try reflexivity.
      now elim (NoAction a p). }
    rewrite B. reflexivity.
  - intros e T L F. rewrite St. unfold body in *.
    rewrite (@interpretAndDispatch_throw_keeps_state env (render w) fuel
               transcript (interpreting transcript w) e L F T).
    reflexivity.
Qed.

(** The help text cannot be had: the handler raises in IDLE. *)
Lemma C3_cleanup_witness :
  let helpless :=
    mkEnv (captureFrameResult answering)
      (fun _ _ _ => Ok (Some (mkInterpretation (Some HELP) None)))
      (listenForInput answering) (askGemini answering)
      (describeScene answering) (readTextFromImage answering)
      (identifyPeople answering) (checkForHazards answering)
      (analyzeTerrain answering) (askFollowUpQuestion answering)
      (Fail (ErrorObject "no help")) (db_saveItem answering)
      (db_getItems answering) (db_deleteItem answering) in
  let w' := snd (handleVoiceCommand helpless 1 "help me" true ready) in
  resumes w' = 1 /\ appState w' = IDLE /\ error w' = Some "no help".
Proof.
  intros helpless w'.
  assert (Stop : isStopCommand "help me" = false) by (vm_compute; reflexivity).
  assert (Busy : isBusy (appState ready) = false) by reflexivity.
  assert (Cam : search_has_camera helpless 1 "help me" ready)
    by (intros p I; discriminate I).
  pose proof (@C3_cleanup_restores_and_resumes_once helpless 1 "help me" ready
                Stop Busy Cam) as H.
  cbv zeta in H. destruct H as (_ & R & _ & _ & _ & _ & _ & T).
  split; [exact R|]. split.
  - apply (T (ErrorObject "no help")); vm_compute; reflexivity.
  - vm_compute. reflexivity.
Defined.







End AppFacts.

(* ===================================================================== *)
(** ** Further properties of the recognition lifecycle hook               *)
(* ===================================================================== *)

Module VoiceCommandsMore.
Import JsString JsStringFacts VoiceCommands VoiceCommandsFacts.

(** Case analysis on every condition left in the goal. *)
Ltac split_ifs :=
  repeat match goal with
         | |- context [if ?b then _ else _] => destruct b eqn:?
         end.

(** *** The guard of the automatic restart *)

Lemma mayAutoRestart_clearRestartTimer (s : Hook) :
  mayAutoRestart (clearRestartTimer s) = mayAutoRestart s.
Proof. unfold clearRestartTimer. now destruct (restartTimerRef s). Qed.

Lemma calls_clearRestartTimer (s : Hook) :
  calls (clearRestartTimer s) = calls s.
Proof. unfold clearRestartTimer. now destruct (restartTimerRef s). Qed.

Lemma auto_step_blocked (s s' : Hook) :
  auto_step s s' -> mayAutoRestart s = false ->
  mayAutoRestart s' = false /\ calls s' = calls s.
Proof.
  intros St G. destruct St as [s | code s | id t s F K].
  - unfold onend.
    assert (G1 : mayAutoRestart (clearRestartTimer (set_isListening false s)) = false)
      by (rewrite mayAutoRestart_clearRestartTimer; exact G).
    rewrite G1. split; [exact G1|].
    now rewrite calls_clearRestartTimer.
  - unfold onerror. split_ifs; auto.
  - unfold fireTimer. rewrite F, K. unfold runTimer.
    assert (G1 : mayAutoRestart (clearTimeout id s) = false) by exact G.
    rewrite G1. auto.
Qed.

Lemma auto_run_blocked (s s' : Hook) :
  auto_run s s' -> mayAutoRestart s = false ->
  mayAutoRestart s' = false /\ calls s' = calls s.
Proof.
  induction 1 as [s | s1 s2 s3 St _ IH]; intros G; [now split|].
  destruct (auto_step_blocked St G) as [G2 C2].
  destruct (IH G2) as [G3 C3]. split; congruence.
Qed.

(** With no flag set, [onend] sets its restart timer, and the timer's
    expiry calls [start()]. *)
Lemma onend_sets_the_restart_timer (s : Hook) :
  mayAutoRestart s = true -> wf s -> recognitionRef s = true ->
  let ended := onend s in
  let id := nextTimer s in
  restartTimerRef ended = Some id
  /\ findTimer id (timers ended)
     = Some (mkTimer id TAutoRestart (if isMobileRef s then 500 else 250))
  /\ calls ended = calls s
  /\ calls (fireTimer id ended) = (calls s ++ [CallStart])%list.
Proof.
  intros G W R ended id.
  set (s0 := clearRestartTimer (set_isListening false s)).
  assert (G0 : mayAutoRestart s0 = true)
    by (unfold s0; rewrite mayAutoRestart_clearRestartTimer; exact G).
  assert (W0 : wf s0) by (unfold s0; now apply wf_clearRestartTimer).
  assert (N0 : nextTimer s0 = nextTimer s)
    by (unfold s0, clearRestartTimer; simpl; now destruct (restartTimerRef s)).
  assert (C0 : calls s0 = calls s)
    by (unfold s0; now rewrite calls_clearRestartTimer).
  assert (M0 : isMobileRef s0 = isMobileRef s)
    by (unfold s0, clearRestartTimer; simpl; now destruct (restartTimerRef s)).
  assert (R0 : recognitionRef s0 = true)
    by (unfold s0, clearRestartTimer; simpl; now destruct (restartTimerRef s)).
  assert (E : ended
              = set_restartTimerRef (Some (nextTimer s0))
                  (snd (setTimeout TAutoRestart
                          (if isMobileRef s0 then 500 else 250) s0))).
  { unfold ended, onend. fold s0. now rewrite G0. }
  assert (F : findTimer id (timers ended)
              = Some (mkTimer id TAutoRestart (if isMobileRef s then 500 else 250))).
  { rewrite E. simpl. rewrite N0, M0. unfold id.
    apply findTimer_app_fresh; [rewrite <- N0; exact W0 | reflexivity]. }
  split; [rewrite E; simpl; now rewrite N0|].
  split; [exact F|].
  split; [rewrite E; simpl; exact C0|].
  unfold fireTimer. rewrite F. simpl.
  assert (G1 : mayAutoRestart (clearTimeout id ended) = true)
    by (rewrite E; exact G0).
  rewrite G1. unfold engineStart.
  assert (R1 : recognitionRef (clearTimeout id ended) = true)
    by (rewrite E; exact R0).
  rewrite R1. simpl. rewrite E. simpl. now rewrite C0.
Qed.

(** The engine restarts on its own exactly when none of the three flags
    (manually stopped, paused, processing a transcript) is set.  With one
    of them set, however often the engine ends or errs and whichever
    restart timers expire, no call is made on the engine.  With none set,
    [onend] sets one restart timer, of 500ms on mobile and 250ms
    otherwise, and remembers it; when it expires with the flags as they
    were, [start()] is called once. *)
Theorem auto_restart_iff_no_flag_is_set :
  forall (s s' : Hook),
    (mayAutoRestart s = false -> auto_run s s' -> calls s' = calls s)
    /\ (mayAutoRestart s = true -> wf s -> recognitionRef s = true ->
        let ended := onend s in
        let id := nextTimer s in
        restartTimerRef ended = Some id
        /\ findTimer id (timers ended)
           = Some (mkTimer id TAutoRestart (if isMobileRef s then 500 else 250))
        /\ calls ended = calls s
        /\ calls (fireTimer id ended) = (calls s ++ [CallStart])%list).
Proof.
  intros s s'. split.
  - intros G Run. now destruct (auto_run_blocked Run G).
  - intros G W R. exact (@onend_sets_the_restart_timer s G W R).
Qed.

(** A listening desktop session whose engine ends, and a paused one. *)
Lemma auto_restart_witness :
  let s := run (mount false) [OpStart Granted; EvStart] in
  calls (fireTimer (nextTimer s) (onend s)) = [CallStart; CallStart]
  /\ calls (onend (onend (run s [OpPause]))) = [CallStart; CallStop].
Proof.
  intros s. split.
  - assert (G : mayAutoRestart s = true) by reflexivity.
    assert (W : wf s) by apply run_wf.
    assert (R : recognitionRef s = true) by reflexivity.
    pose proof (proj2 (@auto_restart_iff_no_flag_is_set s s) G W R) as H.
    cbv zeta in H. now destruct H as (_ & _ & _ & H).
  - set (p := run s [OpPause]).
    assert (G : mayAutoRestart p = false) by reflexivity.
    assert (Run : auto_run p (onend (onend p)))
      by (eapply auto_more; [apply auto_end|];
          eapply auto_more; [apply auto_end | apply auto_done]).
    now rewrite (proj1 (@auto_restart_iff_no_flag_is_set p (onend (onend p))) G Run).
Defined.

(** *** The restart timer is a single slot *)

Definition isAutoRestart (t : Timer) : bool :=
  match t_kind t with TAutoRestart => true | _ => false end.

(** The timer queue of a hook in good order: ids are below the next id
    and pairwise different, every pending restart timer of [onend] is the
    one [restartTimerRef] holds, and that reference is an id handed out. *)
Definition sound (s : Hook) : Prop :=
  wf s
  /\ NoDup (map t_id (timers s))
  /\ (forall t, In t (timers s) -> t_kind t = TAutoRestart ->
        restartTimerRef s = Some (t_id t))
  /\ (forall id, restartTimerRef s = Some id -> id < nextTimer s).

Lemma In_dropTimer (id : nat) (ts : list Timer) (t : Timer) :
  In t (dropTimer id ts) -> In t ts /\ t_id t <> id.
Proof.
  unfold dropTimer. intros H. apply filter_In in H. destruct H as [H1 H2].
  split; [exact H1|]. apply negb_true_iff in H2. now apply Nat.eqb_neq.
Qed.

Lemma NoDup_dropTimer (id : nat) (ts : list Timer) :
  NoDup (map t_id ts) -> NoDup (map t_id (dropTimer id ts)).
Proof.
  induction ts as [|t ts IH]; simpl; intros N; [constructor|].
  inversion N as [|x l Hx Hl]; subst.
  destruct (negb (Nat.eqb (t_id t) id)); simpl; [|now apply IH].
  constructor; [|now apply IH].
  intros Hin. apply Hx. apply in_map_iff in Hin.
  destruct Hin as (t' & E & I). apply In_dropTimer in I.
  apply in_map_iff. exists t'. now split.
Qed.

Lemma sound_clearTimeout (id : nat) (s : Hook) :
  sound s -> sound (clearTimeout id s).
Proof.
  intros (W & N & A & R). repeat split.
  - now apply wf_dropTimer.
  - now apply NoDup_dropTimer.
  - intros t I K. apply In_dropTimer in I. now apply A.
  - exact R.
Qed.

Lemma sound_clearRestartTimer (s : Hook) :
  sound s ->
  sound (clearRestartTimer s)
  /\ forall t, In t (timers (clearRestartTimer s)) -> t_kind t <> TAutoRestart.
Proof.
  intros S. pose proof S as (W & N & A & R). unfold clearRestartTimer.
  destruct (restartTimerRef s) as [id|] eqn:E.
  - split; [now apply sound_clearTimeout|].
    intros t I K. simpl in I. apply In_dropTimer in I. destruct I as [I D].
    specialize (A t I K). congruence.
  - split; [exact S|]. intros t I K. specialize (A t I K). congruence.
Qed.

Lemma sound_setTimeout (k : TimerKind) (d : nat) (s : Hook) :
  k <> TAutoRestart -> sound s -> sound (snd (setTimeout k d s)).
Proof.
  intros K (W & N & A & R). repeat split.
  - now apply wf_setTimeout.
  - simpl. rewrite map_app. simpl. apply NoDup_app; [exact N | | ].
    + constructor; [intros [] | constructor].
    + intros id I [<-|[]]. apply in_map_iff in I. destruct I as (t & E & I).
      unfold wf in W. rewrite Forall_forall in W. specialize (W t I).
      simpl in W. lia.
  - simpl. intros t I Kt. apply in_app_iff in I. destruct I as [I|[<-|[]]].
    + now apply A.
    + simpl in Kt. congruence.
  - simpl. intros id E. specialize (R id E). lia.
Qed.

Lemma sound_onend (s : Hook) : sound s -> sound (onend s).
Proof.
  intros S. unfold onend.
  assert (S0 : sound (set_isListening false s)) by exact S.
  destruct (sound_clearRestartTimer S0) as [(W & N & A & R) None].
  set (s0 := clearRestartTimer (set_isListening false s)) in *.
  destruct (mayAutoRestart s0); [|repeat split; assumption].
  repeat split.
  - exact (wf_setTimeout TAutoRestart _ W).
  - simpl. rewrite map_app. simpl. apply NoDup_app; [exact N | | ].
    + constructor; [intros [] | constructor].
    + intros id I [<-|[]]. apply in_map_iff in I. destruct I as (t & E & I).
      unfold wf in W. rewrite Forall_forall in W. specialize (W t I).
      simpl in W. lia.
  - simpl. intros t I K. apply in_app_iff in I. destruct I as [I|[<-|[]]].
    + now elim (None t I).
    + reflexivity.
  - simpl. intros id E. injection E as <-. lia.
Qed.

Lemma sound_fireTimer (id : nat) (s : Hook) : sound s -> sound (fireTimer id s).
Proof.
  intros S. unfold fireTimer.
  destruct (findTimer id (timers s)) as [t|]; [|exact S].
  pose proof (sound_clearTimeout id S) as S1.
  unfold runTimer, engineStart. destruct (t_kind t); split_ifs; exact S1.
Qed.

Lemma step_sound (s : Hook) (e : Event) : sound s -> sound (step s e).
Proof.
  intros S. destruct e; simpl.
  - destruct (recognitionRef s); exact S.
  - destruct (recognitionRef s); [now apply sound_onend | exact S].
  - destruct (recognitionRef s); [|exact S]. unfold onerror.
    split_ifs; exact S.
  - destruct (recognitionRef s) eqn:R; [|exact S]. unfold onresult.
    destruct (lastResult results) as [r|]; [|exact S].
    unfold engineStop, deliver. split_ifs; simpl; try rewrite R; exact S.
  - now apply sound_fireTimer.
  - unfold handleVisibilityChange, engineStop. split_ifs; try exact S.
    apply (@sound_setTimeout TVisibilityResume 300 (set_isPaused false s));
      [discriminate | exact S].
  - unfold permissionRejectedOnMount. split_ifs; exact S.
  - unfold startListening, engineStart.
    destruct (sound_clearRestartTimer S) as [S1 _].
    destruct p; split_ifs; exact S1.
  - unfold stopListening, engineStop.
    destruct (sound_clearRestartTimer S) as [S1 _].
    split_ifs; exact S1.
  - unfold restartListening. destruct (recognitionRef s); [|exact S].
    apply (@sound_setTimeout TRestart 100
             (set_isPaused false (set_isStoppedManually false s)));
      [discriminate | exact S].
  - unfold pauseListening, engineStop. split_ifs; exact S.
  - unfold resumeListening. destruct (_ && _); [|exact S].
    apply (@sound_setTimeout TResume 100 (set_isPaused false s));
      [discriminate | exact S].
  - exact S.
  - unfold resumeAfterProcessing. destruct (_ && _); [|exact S].
    apply (@sound_setTimeout TResumeAfterProcessing 300
             (set_isProcessingTranscript false s));
      [discriminate | exact S].
  - unfold cleanup, engineStop.
    destruct (@sound_clearRestartTimer (set_isStoppedManually true s) S)
      as [S1 _].
    split_ifs; exact S1.
Qed.

Lemma run_sound (mobile : bool) (es : list Event) :
  sound (run (mount mobile) es).
Proof.
  unfold run.
  assert (S : sound (mount mobile)).
  { repeat split; simpl; try constructor; try (intros ? []); discriminate. }
  revert S. generalize (mount mobile).
  induction es as [|e es IH]; intros s S; simpl; [exact S|].
  apply IH. now apply step_sound.
Qed.

Lemma at_most_one_with_id (p : Timer -> bool) (k : nat) (ts : list Timer) :
  NoDup (map t_id ts) ->
  (forall t, In t ts -> p t = true -> t_id t = k) ->
  length (filter p ts) <= 1.
Proof.
  induction ts as [|t ts IH]; simpl; intros N A; [lia|].
  inversion N as [|x l Hx Hl]; subst.
  assert (IH' : length (filter p ts) <= 1) by (apply IH; auto).
  destruct (p t) eqn:P; [|exact IH'].
  destruct (filter p ts) as [|t' rest] eqn:F; [simpl; lia|].
  exfalso. apply Hx.
  assert (I : In t' (filter p ts)) by (rewrite F; now left).
  apply filter_In in I. destruct I as [I P'].
  apply in_map_iff. exists t'. split; [|exact I].
  rewrite (A t (or_introl eq_refl) P). apply A; auto.
Qed.

(** Whatever has happened to the hook since it was mounted, at most one
    restart timer of [onend] is pending, and it is the one
    [restartTimerRef] holds: [onend] clears the one before it sets the
    next, and [startListening], [stopListening] and the cleanup clear
    it. *)
Theorem restart_timer_is_single_slot :
  forall (mobile : bool) (es : list Event),
    let s := run (mount mobile) es in
    length (filter isAutoRestart (timers s)) <= 1
    /\ (forall t, In t (timers s) -> t_kind t = TAutoRestart ->
          restartTimerRef s = Some (t_id t)).
Proof.
  intros mobile es s.
  destruct (run_sound mobile es) as (W & N & A & R). fold s in W, N, A, R.
  split; [|exact A].
  destruct (restartTimerRef s) as [id|] eqn:E.
  - apply (@at_most_one_with_id isAutoRestart id); [exact N|].
    intros t I P. unfold isAutoRestart in P.
    destruct (t_kind t) eqn:K; try discriminate.
    specialize (A t I K). congruence.
  - apply (@at_most_one_with_id isAutoRestart 0); [exact N|].
    intros t I P. unfold isAutoRestart in P.
    destruct (t_kind t) eqn:K; try discriminate.
    specialize (A t I K). congruence.
Qed.

(** *** The desktop engine *)

Lemma step_desktop (s : Hook) (e : Event) :
  isMobileRef s = false -> isProcessingTranscript s = false ->
  isMobileRef (step s e) = false /\ isProcessingTranscript (step s e) = false.
Proof.
  intros M P.
  destruct e; simpl;
    unfold onstart, onend, onerror, onresult, deliver, fireTimer, runTimer,
      handleVisibilityChange, permissionRejectedOnMount, startListening,
      stopListening, restartListening, pauseListening, resumeListening,
      resetError, resumeAfterProcessing, cleanup, engineStart, engineStop,
      clearRestartTimer, setTimeout; simpl;
    repeat match goal with
           | |- context [if ?b then _ else _] => destruct b eqn:?
           | |- context [match ?x with _ => _ end] => destruct x eqn:?
           end; simpl; auto; congruence.
Qed.

(** On the desktop engine (continuous listening) the processing flag is
    never set, whatever happens to the hook; so the resume signal of the
    coordinator finds nothing to do there and leaves the hook exactly as
    it is: no timer is set and the engine is not called. *)
Theorem desktop_never_awaits_command_completion :
  forall (es : list Event),
    let s := run (mount false) es in
    isProcessingTranscript s = false
    /\ resumeAfterProcessing s = s.
Proof.
  intros es s.
  assert (I : isMobileRef s = false /\ isProcessingTranscript s = false).
  { unfold s, run.
    assert (I0 : isMobileRef (mount false) = false
                 /\ isProcessingTranscript (mount false) = false) by now split.
    revert I0. generalize (mount false).
    induction es as [|e es IH]; intros h [M P]; simpl; [now split|].
    apply IH. now apply step_desktop. }
  destruct I as [M P]. split; [exact P|].
  unfold resumeAfterProcessing. simpl. rewrite M. simpl.
  destruct s; simpl in *; subst; reflexivity.
Qed.

(** *** Manual stop *)

(** The events that leave a manual stop in force: all but the three
    operations that are meant to start the engine or to lift the stop
    ([startListening], [restartListening], [resetError]), the operation
    [resumeListening], and the expiry of a timer that one of these or the
    resume signal has set before. *)
Definition keepsManualStop (s : Hook) (e : Event) : bool :=
  match e with
  | OpStart _ | OpRestart | OpResume | OpResetError => false
  | EvTimer id =>
      match findTimer id (timers s) with
      | Some t =>
          match t_kind t with
          | TAutoRestart | TVisibilityResume => true
          | _ => false
          end
      | None => true
      end
  | _ => true
  end.

Fixpoint allKeepManualStop (s : Hook) (es : list Event) : bool :=
  match es with
  | [] => true
  | e :: es' => keepsManualStop s e && allKeepManualStop (step s e) es'
  end.

Ltac hook_unfold :=
  unfold onstart, onend, onerror, onresult, deliver, fireTimer, runTimer,
    handleVisibilityChange, permissionRejectedOnMount, startListening,
    stopListening, restartListening, pauseListening, resumeListening,
    resetError, resumeAfterProcessing, cleanup, engineStart, engineStop,
    clearRestartTimer, mayAutoRestart, setTimeout.

Ltac hook_cases :=
  repeat match goal with
         | |- context [if ?b then _ else _] => destruct b eqn:?
         | |- context [match ?x with _ => _ end] => destruct x eqn:?
         end.

Lemma step_keeps_manual_stop (s : Hook) (e : Event) :
  isStoppedManually s = true -> keepsManualStop s e = true ->
  isStoppedManually (step s e) = true /\ starts (step s e) = starts s.
Proof.
  intros St K.
  destruct e; simpl in K; try discriminate; simpl;
    try (hook_unfold; hook_cases; simpl in *; rewrite ?St in *; simpl in *;
         try discriminate; unfold starts; simpl;
         rewrite ?filter_app, ?length_app; simpl;
         (split; [auto | lia]); fail).
Qed.

(** Once the manual-stop flag is set, by [stopListening], by a permission
    error or by the cleanup, the engine is not started again and the flag
    stays set through every sequence of engine events, visibility
    changes, pauses, resume signals of the coordinator and expiries of
    restart and visibility timers. *)
Theorem manual_stop_holds_against_automatic_restarts :
  forall (es : list Event) (s : Hook),
    isStoppedManually s = true ->
    allKeepManualStop s es = true ->
    isStoppedManually (run s es) = true /\ starts (run s es) = starts s.
Proof.
  induction es as [|e es IH]; intros s St K; simpl; [now split|].
  simpl in K. apply andb_true_iff in K. destruct K as [K1 K2].
  destruct (@step_keeps_manual_stop s e St K1) as [St1 S1].
  destruct (IH (step s e) St1 K2) as [St2 S2].
  split; [exact St2 | congruence].
Qed.

(** A mobile session the user stops; then the engine ends, the application
    is hidden and shown again and its timer expires, and the coordinator
    gives its resume signal. *)
Lemma manual_stop_witness :
  let s := run (mount true) [OpStart Granted; EvStart; OpStop] in
  starts (run s [EvEnd; EvVisibility true; EvVisibility false; EvTimer 1;
                 OpResumeAfterProcessing; EvEnd])
  = 1.
Proof.
  intros s.
  assert (St : isStoppedManually s = true) by reflexivity.
  assert (K : allKeepManualStop s
                [EvEnd; EvVisibility true; EvVisibility false; EvTimer 1;
                 OpResumeAfterProcessing; EvEnd] = true)
    by (vm_compute; reflexivity).
  destruct (@manual_stop_holds_against_automatic_restarts _ s St K) as [_ H].
  exact H.
Defined.

(** *** After the cleanup *)



(** *** Timers run once *)

Lemma findTimer_dropTimer (id : nat) (ts : list Timer) :
  findTimer id (dropTimer id ts) = None.
Proof.
  unfold findTimer, dropTimer. induction ts as [|t ts IH]; simpl; [reflexivity|].
  destruct (Nat.eqb (t_id t) id) eqn:E; simpl; [exact IH|].
  now rewrite E.
Qed.

Lemma timers_runTimer (k : TimerKind) (s : Hook) :
  timers (runTimer k s) = timers s.
Proof.
  unfold runTimer, engineStart. destruct k; hook_cases; reflexivity.
Qed.

(** A timer's callback runs at most once: when timer [id] has expired it
    is pending no more, and a second expiry of the same id changes
    nothing. *)
Theorem timer_fires_at_most_once :
  forall (id : nat) (s : Hook),
    findTimer id (timers (fireTimer id s)) = None
    /\ fireTimer id (fireTimer id s) = fireTimer id s.
Proof.
  intros id s.
  assert (F : findTimer id (timers (fireTimer id s)) = None).
  { unfold fireTimer. destruct (findTimer id (timers s)) as [t|] eqn:E.
    - rewrite timers_runTimer. simpl. apply findTimer_dropTimer.
    - exact E. }
  split; [exact F|].
  unfold fireTimer at 1. now rewrite F.
Qed.

(** *** What is delivered *)





(** *** A resume signal given inside the transcript callback *)

Lemma findTimer_app_l (id : nat) (l1 l2 : list Timer) (t : Timer) :
  findTimer id l1 = Some t -> findTimer id (l1 ++ l2) = Some t.
Proof.
  unfold findTimer. induction l1 as [|a l1 IH]; simpl; [discriminate|].
  destruct (Nat.eqb (t_id a) id); [auto | exact IH].
Qed.

Lemma findTimer_app_r (id : nat) (l1 l2 : list Timer) :
  findTimer id l1 = None -> findTimer id (l1 ++ l2) = findTimer id l2.
Proof.
  unfold findTimer. induction l1 as [|a l1 IH]; simpl; [reflexivity|].
  destruct (Nat.eqb (t_id a) id); [discriminate | exact IH].
Qed.

Lemma dropTimer_app (id : nat) (l1 l2 : list Timer) :
  dropTimer id (l1 ++ l2) = (dropTimer id l1 ++ dropTimer id l2)%list.
Proof. unfold dropTimer. apply filter_app. Qed.

(** The timers left of a well-formed queue when the restart slot is
    cleared: all below the next id. *)
Lemma cleared_below (s : Hook) :
  wf s ->
  Forall (fun t => t_id t < nextTimer s) (timers (clearRestartTimer s)).
Proof.
  intros W. unfold clearRestartTimer. destruct (restartTimerRef s); [|exact W].
  simpl. now apply wf_dropTimer.
Qed.

(** When the coordinator gives the resume signal from inside the
    transcript callback, as it does for an interrupt word, the processing
    flag is clear again before the engine's end of session arrives.  The
    end of session then sets its own restart timer beside the one of the
    resume signal, and when both have expired [start()] has been called
    twice for the one transcript (the second call is the one the source
    expects to fail with InvalidStateError). *)
Theorem resume_inside_the_callback_restarts_twice :
  forall (results : list SpeechResult) (r : SpeechResult) (s : Hook),
    sound s -> isMobileRef s = true -> recognitionRef s = true ->
    isStoppedManually s = false -> isPaused s = false ->
    lastResult results = Some r -> res_isFinal r = true ->
    truthy (normalise (res_transcript r)) = true ->
    let answered := onresult (fun _ _ _ => resumeAfterProcessing) results s in
    let ended := onend answered in
    let n := nextTimer s in
    isProcessingTranscript answered = false
    /\ calls ended = (calls s ++ [CallStop])%list
    /\ findTimer n (timers ended) = Some (mkTimer n TResumeAfterProcessing 300)
    /\ findTimer (S n) (timers ended) = Some (mkTimer (S n) TAutoRestart 500)
    /\ calls (fireTimer (S n) (fireTimer n ended))
       = (calls s ++ [CallStop; CallStart; CallStart])%list.
Proof.
  intros results r s (W & N & A & Rf) Mo R St Pa L F T answered ended n.
  assert (EA : answered
               = snd (setTimeout TResumeAfterProcessing 300
                        (set_isProcessingTranscript false
                           (engineStop (set_isProcessingTranscript true s))))).
  { unfold answered.
    rewrite (onresult_final_single_shot _ results s Mo L F T).
    unfold resumeAfterProcessing, engineStop. simpl. rewrite R. simpl.
    now rewrite Mo, St, Pa. }
  assert (TA : timers answered
               = (timers s ++ [mkTimer n TResumeAfterProcessing 300])%list)
    by (rewrite EA; unfold engineStop; simpl; rewrite R; reflexivity).
  assert (NA : nextTimer answered = S n)
    by (rewrite EA; unfold engineStop; simpl; rewrite R; reflexivity).
  assert (CA : calls answered = (calls s ++ [CallStop])%list)
    by (rewrite EA; unfold engineStop; simpl; rewrite R; reflexivity).
  assert (RA : recognitionRef answered = true)
    by (rewrite EA; unfold engineStop; simpl; rewrite R; exact R).
  assert (GA : mayAutoRestart answered = true).
  { rewrite EA. unfold mayAutoRestart, engineStop. simpl. rewrite R. simpl.
    now rewrite St, Pa. }
  assert (MA : isMobileRef answered = true)
    by (rewrite EA; unfold engineStop; simpl; rewrite R; exact Mo).
  assert (FA : restartTimerRef answered = restartTimerRef s)
    by (rewrite EA; unfold engineStop; simpl; rewrite R; reflexivity).
  assert (WA : wf answered).
  { rewrite EA. apply wf_setTimeout. unfold engineStop, wf. simpl.
    rewrite R. exact W. }
  (* the queue after the end of session *)
  set (kept := match restartTimerRef s with
               | Some id => dropTimer id (timers s)
               | None => timers s
               end).
  assert (Kb : Forall (fun t => t_id t < n) kept).
  { unfold kept. destruct (restartTimerRef s); [now apply wf_dropTimer | exact W]. }
  assert (TC : timers (clearRestartTimer (set_isListening false answered))
               = (kept ++ [mkTimer n TResumeAfterProcessing 300])%list).
  { unfold clearRestartTimer, kept. simpl. rewrite FA.
    destruct (restartTimerRef s) as [id|] eqn:E; simpl; rewrite TA; [|reflexivity].
    rewrite dropTimer_app. simpl.
    replace (Nat.eqb n id) with false; [reflexivity|].
    symmetry. apply Nat.eqb_neq. specialize (Rf id eq_refl). unfold n. lia. }
  destruct (@onend_sets_the_restart_timer answered GA WA RA)
    as (_ & F2 & C2 & _).
  fold ended in F2, C2. rewrite NA, MA in F2.
  assert (TE : timers ended
               = (kept ++ [mkTimer n TResumeAfterProcessing 300;
                           mkTimer (S n) TAutoRestart 500])%list).
  { unfold ended, onend. cbv zeta.
    rewrite mayAutoRestart_clearRestartTimer.
    assert (G1 : mayAutoRestart (set_isListening false answered) = true) by exact GA.
    rewrite G1. simpl. rewrite TC.
    assert (N1 : nextTimer (clearRestartTimer (set_isListening false answered)) = S n).
    { unfold clearRestartTimer. simpl. destruct (restartTimerRef answered); exact NA. }
    assert (M1 : isMobileRef (clearRestartTimer (set_isListening false answered)) = true).
    { unfold clearRestartTimer. simpl. destruct (restartTimerRef answered); exact MA. }
    rewrite N1, M1, <- app_assoc. reflexivity. }
  assert (F1 : findTimer n (timers ended)
               = Some (mkTimer n TResumeAfterProcessing 300)).
  { rewrite TE. rewrite findTimer_app_r by now apply findTimer_fresh.
    unfold findTimer. simpl. now rewrite Nat.eqb_refl. }
  assert (G0 : mayAutoRestart (clearRestartTimer (set_isListening false answered))
               = true)
    by (rewrite mayAutoRestart_clearRestartTimer; exact GA).
  assert (R0 : recognitionRef (clearRestartTimer (set_isListening false answered))
               = true)
    by (unfold clearRestartTimer; simpl;
        destruct (restartTimerRef answered); exact RA).
  assert (GE : mayAutoRestart ended = true)
    by (unfold ended, onend; cbv zeta; rewrite G0; exact G0).
  assert (RE : recognitionRef ended = true)
    by (unfold ended, onend; cbv zeta; rewrite G0; exact R0).
  split; [rewrite EA; reflexivity|].
  split; [rewrite C2; exact CA|].
  split; [exact F1|]. split; [exact F2|].
  (* the resume timer expires, then the restart timer *)
  set (first := fireTimer n ended).
  assert (E1 : first = engineStart (clearTimeout n ended))
    by (unfold first, fireTimer; rewrite F1; reflexivity).
  assert (C1 : calls first = (calls s ++ [CallStop; CallStart])%list).
  { rewrite E1. unfold engineStart. simpl. rewrite RE. simpl.
    rewrite C2, CA, <- app_assoc. reflexivity. }
  assert (T1 : findTimer (S n) (timers first)
               = Some (mkTimer (S n) TAutoRestart 500)).
  { rewrite E1. unfold engineStart. simpl. rewrite RE. simpl. rewrite TE.
    rewrite dropTimer_app. rewrite findTimer_app_r.
    - unfold dropTimer, findTimer. cbn [filter t_id]. rewrite Nat.eqb_refl.
      replace (Nat.eqb (S n) n) with false
        by (symmetry; apply Nat.eqb_neq; lia).
      cbn [negb find t_id]. now rewrite Nat.eqb_refl.
    - apply findTimer_fresh. apply wf_dropTimer.
      eapply Forall_impl; [|exact Kb]. simpl. intros t Ht. lia. }
  unfold fireTimer. rewrite T1. simpl.
  assert (G2 : mayAutoRestart (clearTimeout (S n) first) = true).
  { rewrite E1. unfold engineStart. simpl. rewrite RE. exact GE. }
  rewrite G2. unfold engineStart.
  assert (R2 : recognitionRef (clearTimeout (S n) first) = true).
  { rewrite E1. unfold engineStart. simpl. rewrite RE. exact RE. }
  rewrite R2. simpl. rewrite C1, <- app_assoc. reflexivity.
Qed.

(** The interrupt word as a final transcript on a listening mobile
    session. *)
Lemma resume_inside_the_callback_witness :
  let results := [mkResult true "stop" None] in
  let ended := onend (onresult (fun _ _ _ => resumeAfterProcessing) results
                        listeningMobile) in
  calls (fireTimer 2 (fireTimer 1 ended))
  = [CallStart; CallStop; CallStart; CallStart].
Proof.
  intros results ended.
  assert (S0 : sound listeningMobile) by apply run_sound.
  pose proof (@resume_inside_the_callback_restarts_twice results
                (mkResult true "stop" None) listeningMobile S0
                eq_refl eq_refl eq_refl eq_refl eq_refl eq_refl eq_refl) as H.
  cbv zeta in H. now destruct H as (_ & _ & _ & _ & H).
Defined.

(** *** Stop and start, pause and resume *)

Lemma wf_onend (s : Hook) : wf s -> wf (onend s).
Proof.
  intros W. unfold onend. cbv zeta.
  assert (W1 : wf (clearRestartTimer (set_isListening false s)))
    by now apply wf_clearRestartTimer.
  destruct (mayAutoRestart _); [|exact W1].
  exact (wf_setTimeout TAutoRestart _ W1).
Qed.

Lemma auto_step_keeps (s s' : Hook) :
  auto_step s s' ->
  (wf s -> wf s')
  /\ recognitionRef s' = recognitionRef s
  /\ (isListening s = false -> isListening s' = false).
Proof.
  intros St. destruct St as [s | code s | id t s F K].
  - split; [apply wf_onend|]. unfold onend. cbv zeta.
    destruct (mayAutoRestart _); unfold clearRestartTimer; simpl;
      destruct (restartTimerRef s); simpl; auto.
  - unfold onerror. split_ifs; simpl; auto.
  - split; [apply wf_fireTimer|]. unfold fireTimer. rewrite F, K.
    unfold runTimer, engineStart. split_ifs; simpl; auto.
Qed.

Lemma auto_run_keeps (s s' : Hook) :
  auto_run s s' ->
  (wf s -> wf s')
  /\ recognitionRef s' = recognitionRef s
  /\ (isListening s = false -> isListening s' = false).
Proof.
  induction 1 as [s | s1 s2 s3 St _ IH]; [auto|].
  destruct (auto_step_keeps St) as (W1 & R1 & L1).
  destruct IH as (W2 & R2 & L2).
  repeat split; [auto | congruence | auto].
Qed.

(** [startListening] looks at [isListening], which is still true between
    [stopListening] and the engine's end event.  A start given in that
    gap does nothing: the manual-stop flag stays set, [start()] is not
    called, and nothing that happens on its own later starts the engine.
    Given after the end event, the same start clears the flag and calls
    [start()]. *)
Theorem start_before_the_end_event_is_ignored :
  forall (s s' : Hook),
    recognitionRef s = true -> isListening s = true ->
    let stopped := stopListening s in
    let early := startListening Granted stopped in
    let late := startListening Granted (onend stopped) in
    isStoppedManually early = true
    /\ calls early = (calls s ++ [CallStop])%list
    /\ (auto_run early s' -> calls s' = calls early)
    /\ isStoppedManually late = false
    /\ calls late = (calls s ++ [CallStop; CallStart])%list.
Proof.
  intros s s' R L stopped early late.
  assert (E1 : isStoppedManually early = true
               /\ calls early = (calls s ++ [CallStop])%list).
  { unfold early, stopped. hook_unfold. simpl.
    destruct (restartTimerRef s) eqn:E;
      do 4 (simpl; rewrite ?E, ?R, ?L); simpl; auto. }
  destruct E1 as [St C].
  split; [exact St|]. split; [exact C|]. split.
  - intros Run.
    assert (G : mayAutoRestart early = false)
      by (unfold mayAutoRestart; now rewrite St).
    now destruct (auto_run_blocked Run G).
  - unfold late, stopped. hook_unfold. simpl.
    destruct (restartTimerRef s) eqn:E;
      do 4 (simpl; rewrite ?E, ?R, ?L); simpl; rewrite <- ?app_assoc; auto.
Qed.

(** A listening session stopped and started again at once. *)
Lemma start_before_the_end_event_witness :
  let s := run (mount false) [OpStart Granted; EvStart] in
  let early := startListening Granted (stopListening s) in
  isStoppedManually early = true
  /\ calls (onend early) = (calls s ++ [CallStop])%list.
Proof.
  intros s early.
  assert (R : recognitionRef s = true) by reflexivity.
  assert (L : isListening s = true) by reflexivity.
  pose proof (@start_before_the_end_event_is_ignored s (onend early) R L) as H.
  cbv zeta in H. fold early in H. destruct H as (St & C & Run & _).
  split; [exact St|].
  assert (A : auto_run early (onend early))
    by (eapply auto_more; [apply auto_end | apply auto_done]).
  exact (eq_trans (Run A) C).
Defined.

(** [pauseListening] on a listening session stops the engine and sets the
    pause flag.  From the engine's end event on, whatever happens on its
    own makes no call on the engine; [resumeListening] then clears the
    pause flag and sets one timer of 100ms, and when it expires
    [start()] is called once. *)
Theorem pause_holds_until_resume :
  forall (s s' : Hook),
    wf s -> recognitionRef s = true -> isListening s = true ->
    let paused := pauseListening s in
    auto_run (onend paused) s' ->
    let resumed := resumeListening s' in
    isPaused paused = true
    /\ calls paused = (calls s ++ [CallStop])%list
    /\ calls s' = calls paused
    /\ isPaused resumed = false
    /\ calls resumed = calls paused
    /\ calls (fireTimer (nextTimer s') resumed)
       = (calls paused ++ [CallStart])%list
    /\ timers (fireTimer (nextTimer s') resumed) = timers s'.
Proof.
  intros s s' W R L paused Run resumed.
  assert (EP : paused = engineStop (set_isPaused true s))
    by (unfold paused, pauseListening; now rewrite R, L).
  assert (PP : isPaused paused = true)
    by (rewrite EP; unfold engineStop; simpl; now rewrite R).
  assert (CP : calls paused = (calls s ++ [CallStop])%list)
    by (rewrite EP; unfold engineStop; simpl; now rewrite R).
  assert (RP : recognitionRef paused = true)
    by (rewrite EP; unfold engineStop; simpl; now rewrite R).
  assert (WP : wf paused)
    by (rewrite EP; unfold engineStop, wf; simpl; rewrite R; exact W).
  assert (GP : mayAutoRestart paused = false)
    by (unfold mayAutoRestart; rewrite PP; apply andb_false_iff; left;
        apply andb_false_r).
  assert (Run' : auto_run paused s')
    by (eapply auto_more; [apply auto_end | exact Run]).
  destruct (auto_run_blocked Run' GP) as [_ C'].
  destruct (auto_run_keeps Run) as (W' & R' & L').
  assert (G0 : mayAutoRestart (clearRestartTimer (set_isListening false paused))
               = false)
    by (rewrite mayAutoRestart_clearRestartTimer; exact GP).
  assert (LE : isListening (onend paused) = false).
  { unfold onend. cbv zeta. rewrite G0. unfold clearRestartTimer. simpl.
    destruct (restartTimerRef paused); reflexivity. }
  assert (RE : recognitionRef (onend paused) = true).
  { unfold onend. cbv zeta. rewrite G0. unfold clearRestartTimer. simpl.
    destruct (restartTimerRef paused); exact RP. }
  specialize (W' (wf_onend WP)). specialize (L' LE). rewrite RE in R'.
  assert (ER : resumed = snd (setTimeout TResume 100 (set_isPaused false s')))
    by (unfold resumed, resumeListening; now rewrite R', L').
  split; [exact PP|]. split; [exact CP|]. split; [exact C'|].
  split; [rewrite ER; reflexivity|].
  split; [rewrite ER; exact C'|].
  assert (F : findTimer (nextTimer s') (timers resumed)
              = Some (mkTimer (nextTimer s') TResume 100)).
  { rewrite ER. simpl. apply findTimer_app_fresh; [exact W' | reflexivity]. }
  unfold fireTimer. rewrite F. simpl. unfold engineStart.
  assert (R2 : recognitionRef (clearTimeout (nextTimer s') resumed) = true)
    by (rewrite ER; exact R').
  rewrite R2. simpl. split.
  - rewrite ER. simpl. now rewrite C'.
  - rewrite ER. simpl. apply dropTimer_app_fresh; [exact W' | reflexivity].
Qed.

(** The application speaks while a desktop session listens. *)
Lemma pause_holds_until_resume_witness :
  let s := run (mount false) [OpStart Granted; EvStart] in
  let s' := onend (pauseListening s) in
  calls (fireTimer (nextTimer s') (resumeListening s'))
  = [CallStart; CallStop; CallStart].
Proof.
  intros s s'.
  assert (W : wf s) by apply run_wf.
  assert (R : recognitionRef s = true) by reflexivity.
  assert (L : isListening s = true) by reflexivity.
  assert (Run : auto_run (onend (pauseListening s)) s') by apply auto_done.
  pose proof (@pause_holds_until_resume s s' W R L Run) as H.
  cbv zeta in H. destruct H as (_ & C & _ & _ & _ & F & _).
  rewrite F, C. reflexivity.
Defined.

(** *** Visibility changes *)




End VoiceCommandsMore.

(* ===================================================================== *)
(** ** Further properties of the command coordinator                      *)
(* ===================================================================== *)

Module AppMore.
Import JsString JsStringFacts App AppFacts.
Local Open Scope js_scope.

(** Reads the effects a run has added off its trace. *)
Ltac added_effects :=
  unfold added; rewrite <- ?app_assoc; cbn [app]; reflexivity.

(** *** Saving an item *)

Definition isPauseOrResume (e : Effect) : bool :=
  match e with EPauseListening | EResumeListening => true | _ => false end.

(** The two ways [handleSaveItem] ends. *)
Definition saved (env : Env) (w w' : World) : Prop :=
  exists name img,
    listenForInput env = Ok name
    /\ truthyImage (captureFrameResult env (captured w)) = Some img
    /\ db_saveItem env (mkItem name img) = Ok tt
    /\ personalItems w' = db_getItems env
    /\ error w' = None.

Definition notSaved (w w' : World) : Prop :=
  personalItems w' = personalItems w
  /\ exists reason, error w' = Some ("Save failed: " ++ reason).

(** [handleSaveItem] lets no exception out and ends IDLE, however the
    listening, the capture and the data base turn out.  Listening is
    paused once, at the start, and resumed once, at the end, exactly when
    voice control is on in the render the handler belongs to.  Either the
    item was heard, captured and stored, and then the list is the one
    read back from the data base and no error is shown; or the list is
    untouched and the error is a save failure. *)
Theorem save_always_returns_to_idle :
  forall (env : Env) (rs : Render) (w : World),
    let r := handleSaveItem env rs w in
    fst r = Ret tt
    /\ appState (snd r) = IDLE
    /\ (exists delta,
          added w (snd r) delta
          /\ filter isPauseOrResume delta
             = EPauseListening
               :: (if r_isVoiceCommandActive rs then [EResumeListening] else []))
    /\ (saved env w (snd r) \/ notSaved w (snd r)).
Proof.
  intros env rs w r. subst r. unfold saved, notSaved.
  unfold handleSaveItem, captureFrame. js_unfold. cbn.
  destruct (listenForInput env) as [name|e]; cbn;
    [destruct (truthyImage (captureFrameResult env (captured w))) as [img|] eqn:C;
     cbn;
     [destruct (db_saveItem env (mkItem name img)) as [[]|e] eqn:D; cbn|]|];
    destruct (r_isVoiceCommandActive rs); cbn;
    (split; [reflexivity | split; [reflexivity | split]]);
    try (eexists; split; [added_effects | reflexivity]);
    try (left; exists name, img; auto; fail);
    right; (split; [reflexivity | eexists; reflexivity]).
Qed.


(** A save that fails after the name was heard, for want of a frame or
    because the data base raises an [Error], is reported as a failure to
    hear: the [catch] block keeps the message of a thrown string only.  The
    display is left at the line that announces the save. *)
Theorem failed_save_is_reported_as_not_heard :
  forall (env : Env) (rs : Render) (w : World) (name : string),
    listenForInput env = Ok name ->
    match truthyImage (captureFrameResult env (captured w)) with
    | None => True
    | Some img => exists m, db_saveItem env (mkItem name img) = Fail (ErrorObject m)
    end ->
    let w' := snd (handleSaveItem env rs w) in
    error w' = Some "Save failed: Could not hear you clearly."
    /\ lastResponse w' = "Saving as " ++ dquote ++ name ++ dquote ++ "..."
    /\ personalItems w' = personalItems w
    /\ appState w' = IDLE.
Proof.
  intros env rs w name L F.
  unfold handleSaveItem, captureFrame. js_unfold. cbn. rewrite L. cbn.
  destruct (truthyImage (captureFrameResult env (captured w))) as [img|]; cbn.
  - destruct F as [m D]. rewrite D. cbn.
    destruct (r_isVoiceCommandActive rs); cbn; auto.
  - destruct (r_isVoiceCommandActive rs); cbn; auto.
Qed.

(** The camera delivers nothing. *)
Lemma failed_save_witness :
  let w' := snd (handleSaveItem blind (render ready) ready) in
  error w' = Some "Save failed: Could not hear you clearly."
  /\ lastResponse w' = "Saving as " ++ dquote ++ "my keys" ++ dquote ++ "..."
  /\ personalItems w' = personalItems ready
  /\ appState w' = IDLE.
Proof.
  exact (@failed_save_is_reported_as_not_heard blind (render ready) ready
           "my keys" eq_refl I).
Defined.


(** *** Questions to the assistant *)

Definition isAskGemini (e : Effect) : bool :=
  match e with EAskGemini _ => true | _ => false end.

(** The question [handleAskGemini] puts: the one it is given, or else the
    one it hears. *)
Definition questionPut (env : Env) (q : option string) : option string :=
  if truthyOpt q then q
  else match listenForInput env with Ok s => Some s | Fail _ => None end.

(** [handleAskGemini] lets no exception out, whatever the services do.
    When it has a question, given or heard, it asks it once and leaves the
    coordinator IDLE; when it was given none and hears none, it asks
    nothing, leaves the busy state alone and reports that it could not
    hear. *)
Theorem ask_gemini_ends_idle_or_untouched :
  forall (env : Env) (q : option string) (w : World),
    let r := handleAskGemini env q w in
    fst r = Ret tt
    /\ match questionPut env q with
       | Some question =>
           appState (snd r) = IDLE
           /\ filter isAskGemini (trace (snd r))
              = (filter isAskGemini (trace w) ++ [EAskGemini question])%list
       | None =>
           appState (snd r) = appState w
           /\ filter isAskGemini (trace (snd r)) = filter isAskGemini (trace w)
           /\ error (snd r) = Some "Could not hear your question."
       end.
Proof.
  intros env q w r. subst r. unfold questionPut, handleAskGemini, askGeminiWith.
  destruct q as [s|]; cbn [truthyOpt].
  - destruct (truthy s) eqn:T.
    + js_unfold. cbn. destruct (askGemini env s); cbn;
        rewrite ?filter_app; cbn; rewrite ?app_nil_r; auto.
    + js_unfold. cbn. destruct (listenForInput env) as [h|e]; cbn.
      * destruct (askGemini env h); cbn;
          rewrite ?filter_app; cbn; rewrite ?app_nil_r; auto.
      * rewrite ?filter_app; cbn; rewrite ?app_nil_r; auto.
  - js_unfold. cbn. destruct (listenForInput env) as [h|e]; cbn.
    + destruct (askGemini env h); cbn;
        rewrite ?filter_app; cbn; rewrite ?app_nil_r; auto.
    + rewrite ?filter_app; cbn; rewrite ?app_nil_r; auto.
Qed.


(** *** Analysing a frame *)

(** [processAction] is refused in a render that is ANALYZING or has no
    camera. *)
Definition refused (rs : Render) : bool :=
  isAnalyzing (r_appState rs) || negb (r_isCameraReady rs).

(** An analysis lets no exception out and never leaves the coordinator
    ANALYZING.  A refused one changes nothing.  One that runs captures
    exactly one frame and ends IDLE, or else AWAITING_FOLLOWUP; the latter
    only when follow-up is allowed, and then the frame that was analysed is
    the one kept for the follow-up question, with the history the service
    returned. *)
Theorem analysis_ends_idle_or_awaiting_followup :
  forall (env : Env) (rs : Render)
         (apiCall : Image -> Effect * Res (string * History))
         (allowFollowUp : bool) (w : World),
    let r := processAction env rs apiCall allowFollowUp w in
    fst r = Ret tt
    /\ if refused rs then snd r = w
       else
         captured (snd r) = S (captured w)
         /\ (appState (snd r) = IDLE
             \/ (appState (snd r) = AWAITING_FOLLOWUP
                 /\ allowFollowUp = true
                 /\ exists img answer,
                      truthyImage (captureFrameResult env (captured w)) = Some img
                      /\ snd (apiCall img) = Ok answer
                      /\ lastAnalyzedImage (snd r) = Some img
                      /\ conversationHistory (snd r) = snd answer
                      /\ lastResponse (snd r) = fst answer)).
Proof.
  intros env rs apiCall allow w r. subst r. unfold refused, processAction.
  destruct (isAnalyzing (r_appState rs) || negb (r_isCameraReady rs));
    [split; reflexivity|].
  unfold captureFrame. js_unfold. cbn.
  destruct (truthyImage (captureFrameResult env (captured w))) as [img|] eqn:C;
    cbn; [|auto].
  destruct (snd (apiCall img)) as [answer|e] eqn:A; cbn; [|auto].
  destruct allow; cbn; [|auto].
  split; [reflexivity | split; [reflexivity | right]].
  split; [reflexivity | split; [reflexivity |]].
  exists img, answer. auto.
Qed.

(** The terrain analysis has no follow-up: it lets no exception out, is
    refused like the others, and when it runs it captures one frame and
    ends IDLE. *)
Theorem terrain_analysis_ends_idle :
  forall (env : Env) (rs : Render) (w : World),
    let r := processTerrainAction env rs w in
    fst r = Ret tt
    /\ if refused rs then snd r = w
       else captured (snd r) = S (captured w)
            /\ appState (snd r) = IDLE
            /\ lastAnalyzedImage (snd r) = lastAnalyzedImage w
            /\ conversationHistory (snd r) = conversationHistory w.
Proof.
  intros env rs w r. subst r. unfold refused, processTerrainAction.
  destruct (isAnalyzing (r_appState rs) || negb (r_isCameraReady rs));
    [split; reflexivity|].
  unfold captureFrame. js_unfold. cbn.
  destruct (truthyImage (captureFrameResult env (captured w))) as [img|];
    cbn; [|auto].
  destruct (analyzeTerrain env img); cbn; auto.
Qed.


(** *** Follow-up questions *)

(** Past its two guards, [handleFollowUpQuestion] lets no exception out and
    ends AWAITING_FOLLOWUP, also from IDLE and also when nothing was heard
    or the service failed.  The frame stays the one analysed before; the
    history is replaced only by that of a successful answer; listening is
    paused once, and resumed once afterwards exactly when voice control is
    on. *)
Theorem follow_up_always_ends_awaiting_followup :
  forall (env : Env) (rs : Render) (w : World) (img : Image),
    followUpAllowed (r_appState rs) = true ->
    truthyImage (r_lastAnalyzedImage rs) = Some img ->
    let r := handleFollowUpQuestion env rs w in
    fst r = Ret tt
    /\ appState (snd r) = AWAITING_FOLLOWUP
    /\ lastAnalyzedImage (snd r) = lastAnalyzedImage w
    /\ (exists delta,
          added w (snd r) delta
          /\ filter isPauseOrResume delta
             = EPauseListening
               :: (if r_isVoiceCommandActive rs then [EResumeListening] else []))
    /\ (conversationHistory (snd r) = conversationHistory w
        \/ exists question answer,
             listenForInput env = Ok question
             /\ askFollowUpQuestion env img (r_conversationHistory rs) question
                = Ok answer
             /\ conversationHistory (snd r) = snd answer
             /\ lastResponse (snd r) = fst answer).
Proof.
  intros env rs w img Allowed Img r. subst r.
  unfold handleFollowUpQuestion. rewrite Allowed, Img. cbn [negb].
  js_unfold. cbn.
  destruct (listenForInput env) as [question|e]; cbn;
    [destruct (askFollowUpQuestion env img (r_conversationHistory rs) question)
       as [answer|e] eqn:A; cbn|];
    destruct (r_isVoiceCommandActive rs); cbn;
    (split; [reflexivity | split; [reflexivity | split; [reflexivity | split]]]);
    try (eexists; split; [added_effects | reflexivity]);
    try (left; reflexivity);
    right; exists question, answer; auto.
Qed.

(** A question right after a description, with voice control on. *)
Lemma follow_up_witness :
  let described :=
    set_lastAnalyzedImage (Some "data:image/jpeg;base64,AAAA")
      (set_appState AWAITING_FOLLOWUP ready) in
  let r := handleFollowUpQuestion answering (render described) described in
  fst r = Ret tt
  /\ appState (snd r) = AWAITING_FOLLOWUP
  /\ conversationHistory (snd r) = ["turn"; "turn"].
Proof.
  pose proof (@follow_up_always_ends_awaiting_followup answering
                (render (set_lastAnalyzedImage (Some "data:image/jpeg;base64,AAAA")
                           (set_appState AWAITING_FOLLOWUP ready)))
                (set_lastAnalyzedImage (Some "data:image/jpeg;base64,AAAA")
                   (set_appState AWAITING_FOLLOWUP ready))
                "data:image/jpeg;base64,AAAA" eq_refl eq_refl) as H.
  cbv zeta in *. destruct H as (H1 & H2 & _).
  split; [exact H1 | split; [exact H2 | reflexivity]].
Defined.


(** *** The start of every action *)

(** The universal stop at the head of [handleAction]. *)
Definition universalStop (rs : Render) : M unit :=
  when (r_isLive rs) stopLiveCommentary ;;
  finding <- read isFindingActive ;;
  when finding stopObjectFinder.

Definition stopped (rs : Render) (w : World) : World :=
  snd (universalStop rs w).

(** The follow-up context after the reset every action but ASK_QUESTION
    starts with. *)
Definition cleared (a : ActionType) (w : World) : World :=
  if isAskQuestion a then w
  else set_lastAnalyzedImage None (set_conversationHistory [] w).

Lemma stop_prefix (A : Type) (rs : Render) (a : ActionType)
    (k : unit -> M A) (w : World) :
  bind (when (r_isLive rs) stopLiveCommentary)
    (fun _ => bind (read isFindingActive)
       (fun finding => bind (when finding stopObjectFinder)
          (fun _ => bind (when (negb (isAskQuestion a))
                            (setConversationHistory [] ;; setLastAnalyzedImage None))
                      k))) w
  = k tt (cleared a (stopped rs w)).
Proof.
  unfold stopped, universalStop, cleared, when, stopLiveCommentary,
    stopObjectFinder, when, setIsLive, setFindingItemName, setAppState,
    setLastResponse, setConversationHistory, setLastAnalyzedImage, cancel, emit.
  destruct (r_isLive rs); run_head;
    destruct (isLiveActive w) eqn:L; cbv beta iota; run_head;
    destruct (isFindingActive w) eqn:F; cbv beta iota; run_head;
    rewrite ?F; cbv beta iota; run_head;
    destruct (isAskQuestion a); cbv beta iota; run_head; reflexivity.
Qed.


(** The effects that [f] selects are not added to. *)
Definition keeps (f : Effect -> bool) : Frame.
Proof.
  refine (@mkFrame (fun w w' => filter f (trace w') = filter f (trace w)) _ _).
  - reflexivity.
  - intros a b c H1 H2. congruence.
Defined.

Ltac keeps_leaf :=
  cbn; rewrite ?filter_app; cbn; rewrite ?app_nil_r; reflexivity.

Definition isDelete (e : Effect) : bool :=
  match e with EDeleteItem _ => true | _ => false end.

Lemma findHead_keeps_deletions (env : Env) (fuel : nat) (item : string) :
  Frames (keeps isDelete) (findHead env fuel item).
Proof.
  induction fuel as [|fuel IH]; cbn [findHead]; open_handlers;
    frames_with keeps_leaf.
Qed.

Lemma findHead_keeps_interpretations (env : Env) (fuel : nat) (item : string) :
  Frames (keeps isInterpret) (findHead env fuel item).
Proof.
  induction fuel as [|fuel IH]; cbn [findHead]; open_handlers;
    frames_with keeps_leaf.
Qed.

Lemma handleAskGemini_keeps_deletions (env : Env) (q : option string) :
  Frames (keeps isDelete) (handleAskGemini env q).
Proof. open_handlers. frames_with keeps_leaf. Qed.

Lemma handleAskGemini_keeps_interpretations (env : Env) (q : option string) :
  Frames (keeps isInterpret) (handleAskGemini env q).
Proof. open_handlers. frames_with keeps_leaf. Qed.

Lemma handleAction_keeps_deletions (env : Env) (rs : Render) (fuel : nat)
    (a : ActionType) (p : option Payload) :
  a <> DELETE_ITEM -> Frames (keeps isDelete) (handleAction env rs fuel a p).
Proof.
  intros ND. pose proof (findHead_keeps_deletions env fuel (payloadItemName p)).
  destruct a; try (now elim ND); clear ND;
    unfold handleAction; open_handlers; frames_with keeps_leaf.
Qed.

Lemma handleAction_keeps_interpretations (env : Env) (rs : Render) (fuel : nat)
    (a : ActionType) (p : option Payload) :
  Frames (keeps isInterpret) (handleAction env rs fuel a p).
Proof.
  pose proof (findHead_keeps_interpretations env fuel (payloadItemName p)).
  unfold handleAction. open_handlers. frames_with keeps_leaf.
Qed.


(** *** Interpretation *)

Lemma interpretAndDispatch_interprets_once (env : Env) (rs : Render)
    (fuel : nat) (transcript : string) (w : World) :
  filter isInterpret (trace (snd (interpretAndDispatch env rs fuel transcript w)))
  = (filter isInterpret (trace w)
     ++ [EInterpretCommand transcript (map item_name (r_personalItems rs))
           (r_appState rs)])%list.
Proof.
  unfold interpretAndDispatch, call, emit. rewrite run_assoc. run_head.
  set (w1 := set_trace _ w).
  assert (E1 : filter isInterpret (trace w1)
               = (filter isInterpret (trace w)
                  ++ [EInterpretCommand transcript
                        (map item_name (r_personalItems rs)) (r_appState rs)])%list)
    by (unfold w1; cbn; now rewrite filter_app).
  destruct (interpretCommand env transcript (map item_name (r_personalItems rs))
              (r_appState rs)) as [[[[a|] p]|]|err];
    try exact E1.
  rewrite run_ret. rewrite <- E1.
  destruct a;
    first [ apply (@handleAskGemini_keeps_interpretations env (Some transcript) w1)
          | reflexivity
          | match goal with
            | |- context [handleAction env rs fuel ?a p w1] =>
                apply (@handleAction_keeps_interpretations env rs fuel a p w1)
            end ].
Qed.

Lemma cleanedUp_filter (f : Effect -> bool) (pre : AppState)
    (failed : option JsError) (w : World) :
  f EResumeAfterProcessing = false -> (forall t, f (ESpeak t) = false) ->
  filter f (trace (cleanedUp pre failed w)) = filter f (trace w).
Proof.
  intros R S. unfold cleanedUp. destruct failed as [e|]; cbn;
    rewrite ?filter_app; cbn; rewrite ?R, ?S, ?app_nil_r; reflexivity.
Qed.

(** A final transcript that gets past the interrupt words and the busy
    states is interpreted exactly once, whatever the handler it leads to
    does, and the state handed to the interpreter is the one the
    coordinator was in when the transcript arrived, not the
    INTERPRETING_COMMAND it has just been set to. *)
Theorem command_is_interpreted_once_in_its_pre_command_state :
  forall (env : Env) (fuel : nat) (transcript : string) (w : World),
    isStopCommand transcript = false ->
    isBusy (appState w) = false ->
    let w' := snd (handleVoiceCommand env fuel transcript true w) in
    filter isInterpret (trace w')
    = (filter isInterpret (trace w)
       ++ [EInterpretCommand transcript (map item_name (personalItems w))
             (appState w)])%list.
Proof.
  intros env fuel transcript w Stop Busy.
  rewrite (@handleVoiceCommand_command_path env fuel transcript w Stop Busy).
  cbv zeta.
  pose proof (@interpretAndDispatch_interprets_once env (render w) fuel transcript
                (interpreting transcript w)) as B.
  cbn [render r_personalItems r_appState] in B.
  change (trace (interpreting transcript w)) with (trace w) in B.
  destruct (fst (interpretAndDispatch env (render w) fuel transcript
                   (interpreting transcript w))) as [[]|e|]; cbn [snd];
    rewrite ?cleanedUp_filter by reflexivity; exact B.
Qed.

(** A first command, given while the coordinator is IDLE. *)
Lemma command_is_interpreted_once_witness :
  filter isInterpret
    (trace (snd (handleVoiceCommand answering 1 "describe the scene" true ready)))
  = [EInterpretCommand "describe the scene" [] IDLE].
Proof.
  assert (S : isStopCommand "describe the scene" = false) by reflexivity.
  assert (B : isBusy (appState ready) = false) by reflexivity.
  exact (@command_is_interpreted_once_in_its_pre_command_state answering 1
           "describe the scene" ready S B).
Defined.


(** *** Deleting an item *)

Lemma stopped_keeps_deletions (rs : Render) (a : ActionType) (w : World) :
  filter isDelete (trace (cleared a (stopped rs w))) = filter isDelete (trace w).
Proof.
  assert (F : Frames (keeps isDelete) (universalStop rs))
    by (unfold universalStop; open_handlers; frames_with keeps_leaf).
  unfold cleared, stopped. destruct (isAskQuestion a); apply F.
Qed.

(** The deletions a dispatched action adds: the named item when the action
    is DELETE_ITEM in a render that is MANAGING_ITEMS, and none otherwise. *)
Lemma handleAction_deletions (env : Env) (rs : Render) (fuel : nat)
    (a : ActionType) (p : option Payload) (w : World) :
  let w' := snd (handleAction env rs fuel a p w) in
  filter isDelete (trace w') = filter isDelete (trace w)
  \/ (a = DELETE_ITEM /\ r_appState rs = MANAGING_ITEMS
      /\ truthy (payloadItemName p) = true
      /\ filter isDelete (trace w')
         = (filter isDelete (trace w) ++ [EDeleteItem (payloadItemName p)])%list).
Proof.
  assert (Cases : a = DELETE_ITEM \/ a <> DELETE_ITEM)
    by (destruct a; auto; right; discriminate).
  destruct Cases as [-> | ND];
    [| left; apply (@handleAction_keeps_deletions env rs fuel a p ND w)].
  cbv zeta. unfold handleAction. rewrite stop_prefix.
  pose proof (stopped_keeps_deletions rs DELETE_ITEM w) as S.
  set (w1 := cleared DELETE_ITEM (stopped rs w)) in *.
  destruct (isManaging (r_appState rs)) eqn:Man; cbn [andb]; [|left; exact S].
  destruct (truthy (payloadItemName p)) eqn:T; [|left; exact S].
  right. split; [reflexivity | split; [now destruct (r_appState rs) | split; [reflexivity|]]].
  rewrite <- S. unfold handleDeleteItem. js_unfold. cbn.
  destruct (db_deleteItem env (payloadItemName p)); cbn;
    rewrite ?filter_app; cbn; rewrite ?app_nil_r; reflexivity.
Qed.

(** A transcript leads to a deletion in one case only: it is final, the
    coordinator is MANAGING_ITEMS, and the interpreter makes it a
    DELETE_ITEM with the name of an item; the item deleted is then the one
    named, and it is one deletion.  No other transcript, in no other state
    and with no other interpretation, deletes anything. *)
Theorem deletion_needs_a_delete_command_in_item_management :
  forall (env : Env) (fuel : nat) (transcript : string) (isFinal : bool)
         (w : World),
    let w' := snd (handleVoiceCommand env fuel transcript isFinal w) in
    filter isDelete (trace w') = filter isDelete (trace w)
    \/ (isFinal = true
        /\ appState w = MANAGING_ITEMS
        /\ exists p,
             interpretCommand env transcript
               (map item_name (personalItems w)) MANAGING_ITEMS
             = Ok (Some (mkInterpretation (Some DELETE_ITEM) p))
             /\ truthy (payloadItemName p) = true
             /\ filter isDelete (trace w')
                = (filter isDelete (trace w)
                   ++ [EDeleteItem (payloadItemName p)])%list).
Proof.
  intros env fuel transcript isFinal w. cbv zeta.
  destruct (isStopCommand transcript) eqn:Stop.
  - left. unfold handleVoiceCommand. rewrite run_read, Stop.
    match goal with
    | |- context [snd (?m w)] =>
        assert (F : Frames (keeps isDelete) m)
          by (open_handlers; frames_with keeps_leaf);
        apply F
    end.
  - destruct (isBusy (appState w) || negb isFinal) eqn:Skip.
    + left. unfold handleVoiceCommand. rewrite run_read, Stop. fields.
      rewrite Skip. reflexivity.
    + apply orb_false_iff in Skip. destruct Skip as [Busy Fin].
      apply negb_false_iff in Fin. subst isFinal.
      rewrite (@handleVoiceCommand_command_path env fuel transcript w Stop Busy).
      cbv zeta.
      assert (B : let w1 := snd (interpretAndDispatch env (render w) fuel transcript
                                   (interpreting transcript w)) in
                  filter isDelete (trace w1) = filter isDelete (trace w)
                  \/ (appState w = MANAGING_ITEMS
                      /\ exists p,
                           interpretCommand env transcript
                             (map item_name (personalItems w)) MANAGING_ITEMS
                           = Ok (Some (mkInterpretation (Some DELETE_ITEM) p))
                           /\ truthy (payloadItemName p) = true
                           /\ filter isDelete (trace w1)
                              = (filter isDelete (trace w)
                                 ++ [EDeleteItem (payloadItemName p)])%list)).
      { cbv zeta. unfold interpretAndDispatch, call, emit. rewrite run_assoc.
        run_head. set (w1 := set_trace _ (interpreting transcript w)).
        assert (E1 : filter isDelete (trace w1) = filter isDelete (trace w))
          by (unfold w1; cbn; rewrite filter_app; cbn; now rewrite app_nil_r).
        destruct (interpretCommand env transcript
                    (map item_name (personalItems w)) (appState w))
          as [[[[a|] p]|]|err] eqn:I;
          try (left; exact E1).
        rewrite run_ret.
        assert (Cases : a = UNKNOWN \/ a = STOP \/ (a <> UNKNOWN /\ a <> STOP))
          by (destruct a; auto; right; right; split; discriminate).
        destruct Cases as [-> | [-> | [NU NS]]].
        - left. rewrite <- E1.
          apply (@handleAskGemini_keeps_deletions env (Some transcript) w1).
        - left. exact E1.
        - assert (E : match a with
                      | UNKNOWN => handleAskGemini env (Some transcript)
                      | STOP => ret tt
                      | _ => handleAction env (render w) fuel a p
                      end = handleAction env (render w) fuel a p)
            by (destruct a; congruence).
          rewrite E.
          destruct (@handleAction_deletions env (render w) fuel a p w1)
            as [K | (-> & Man & T & K)].
          + left. now rewrite K.
          + right. cbn [render r_appState] in Man. split; [exact Man|].
            exists p. rewrite <- Man. split; [exact I | split; [exact T|]].
            now rewrite K, E1. }
      cbv zeta in B.
      destruct (fst (interpretAndDispatch env (render w) fuel transcript
                       (interpreting transcript w))) as [[]|e|]; cbn [snd];
        rewrite ?cleanedUp_filter by reflexivity;
        (destruct B as [B | (Man & p & I & T & B)];
         [left; exact B | right; split; [reflexivity | split; [exact Man|]];
                          exists p; auto]).
Qed.


(** *** Commands the interpreter does not know *)

(** A command the interpreter classes as UNKNOWN is put to the assistant
    as it was spoken, once.  It does not go through [handleAction]: the
    loops are not stopped and the follow-up context is kept.  The
    coordinator ends IDLE whatever the assistant answers, also when the
    command came in MANAGING_ITEMS, and the resume signal is given. *)
Theorem unknown_command_is_put_to_the_assistant :
  forall (env : Env) (fuel : nat) (transcript : string) (w : World)
         (p : option Payload),
    isStopCommand transcript = false ->
    isBusy (appState w) = false ->
    truthy transcript = true ->
    interpretCommand env transcript (map item_name (personalItems w)) (appState w)
    = Ok (Some (mkInterpretation (Some UNKNOWN) p)) ->
    let r := handleVoiceCommand env fuel transcript true w in
    fst r = Ret tt
    /\ appState (snd r) = IDLE
    /\ filter isAskGemini (trace (snd r))
       = (filter isAskGemini (trace w) ++ [EAskGemini transcript])%list
    /\ lastAnalyzedImage (snd r) = lastAnalyzedImage w
    /\ conversationHistory (snd r) = conversationHistory w
    /\ isLiveActive (snd r) = isLiveActive w
    /\ isFindingActive (snd r) = isFindingActive w
    /\ resumes (snd r) = S (resumes w).
Proof.
  intros env fuel transcript w p Stop Busy T I.
  rewrite (@handleVoiceCommand_command_path env fuel transcript w Stop Busy).
  cbv zeta. unfold interpretAndDispatch, call, emit. rewrite run_assoc.
  run_head. rewrite I. rewrite run_ret.
  unfold handleAskGemini. cbn [truthyOpt]. rewrite T.
  unfold askGeminiWith, cleanedUp, interpreting, resumes. js_unfold. cbn.
  destruct (askGemini env transcript) as [answer|e]; cbn;
    rewrite ?filter_app, ?length_app; cbn; rewrite ?app_nil_r;
    repeat split; lia.
Qed.

(** A question the interpreter does not place, asked in item management. *)
Lemma unknown_command_witness :
  let env := mkEnv (captureFrameResult answering)
               (fun _ _ _ => Ok (Some (mkInterpretation (Some UNKNOWN) None)))
               (listenForInput answering) (askGemini answering)
               (describeScene answering) (readTextFromImage answering)
               (identifyPeople answering) (checkForHazards answering)
               (analyzeTerrain answering) (askFollowUpQuestion answering)
               (getHelp answering) (db_saveItem answering)
               (db_getItems answering) (db_deleteItem answering) in
  let managing := set_appState MANAGING_ITEMS ready in
  let r := handleVoiceCommand env 1 "what colour is the sky" true managing in
  appState (snd r) = IDLE
  /\ filter isAskGemini (trace (snd r)) = [EAskGemini "what colour is the sky"].
Proof.
  intros env managing.
  assert (S : isStopCommand "what colour is the sky" = false) by reflexivity.
  assert (B : isBusy (appState managing) = false) by reflexivity.
  assert (T : truthy "what colour is the sky" = true) by reflexivity.
  assert (I : interpretCommand env "what colour is the sky"
                (map item_name (personalItems managing)) (appState managing)
              = Ok (Some (mkInterpretation (Some UNKNOWN) None))) by reflexivity.
  pose proof (@unknown_command_is_put_to_the_assistant env 1
                "what colour is the sky" managing None S B T I) as H.
  cbv zeta in H. destruct H as (_ & H2 & H3 & _).
  split; [exact H2 | exact H3].
Defined.


(** *** The follow-up context *)

(** The frame kept for a follow-up question and the history that goes
    with it are not written. *)
Definition sameContext : Frame.
Proof.
  refine (@mkFrame (fun w w' => lastAnalyzedImage w' = lastAnalyzedImage w
                                /\ conversationHistory w' = conversationHistory w)
            _ _).
  - now intros w.
  - intros a b c (H1 & H2) (H3 & H4). split; congruence.
Defined.

Lemma findHead_context (env : Env) (fuel : nat) (item : string) :
  Frames sameContext (findHead env fuel item).
Proof.
  induction fuel as [|fuel IH]; cbn [findHead]; open_handlers;
    frames_with flags_leaf.
Qed.

Definition isListen (e : Effect) : bool :=
  match e with EListenForInput => true | _ => false end.

(** With no frame kept, [handleFollowUpQuestion] does not listen. *)
Lemma follow_up_without_frame (env : Env) (rs : Render) (w : World) :
  r_lastAnalyzedImage rs = None ->
  fst (handleFollowUpQuestion env rs w) = Ret tt
  /\ filter isListen (trace (snd (handleFollowUpQuestion env rs w)))
     = filter isListen (trace w).
Proof.
  intros N. unfold handleFollowUpQuestion. rewrite N. cbn [truthyImage].
  destruct (negb (followUpAllowed (r_appState rs))); [now split|].
  unfold speak, emit, modify. cbn. rewrite filter_app. cbn.
  now rewrite app_nil_r.
Qed.

(** Every action but ASK_QUESTION starts by discarding the follow-up
    context, and only a description or an identification that succeeds
    puts one back, ending AWAITING_FOLLOWUP.  After any other action,
    among them one that was refused, one that failed and the help text, a
    follow-up question is not listened for, in whatever busy state the
    action has left the coordinator. *)
Theorem every_action_but_a_question_discards_the_follow_up_context :
  forall (env : Env) (rs : Render) (fuel : nat) (a : ActionType)
         (p : option Payload) (w : World),
    a <> ASK_QUESTION ->
    let w' := snd (handleAction env rs fuel a p w) in
    (lastAnalyzedImage w' = None
     /\ conversationHistory w' = []
     /\ forall env',
          let r := handleFollowUpQuestion env' (render w') w' in
          fst r = Ret tt
          /\ filter isListen (trace (snd r)) = filter isListen (trace w'))
    \/ ((a = DESCRIBE_SCENE \/ a = IDENTIFY_PEOPLE)
        /\ appState w' = AWAITING_FOLLOWUP
        /\ exists img, lastAnalyzedImage w' = Some img /\ truthy img = true).
Proof.
  intros env rs fuel a p w NQ. cbv zeta.
  assert (Empty : forall w', lastAnalyzedImage w' = None ->
            conversationHistory w' = [] ->
            lastAnalyzedImage w' = None
            /\ conversationHistory w' = []
            /\ forall env',
                 let r := handleFollowUpQuestion env' (render w') w' in
                 fst r = Ret tt
                 /\ filter isListen (trace (snd r)) = filter isListen (trace w')).
  { intros w' N H. split; [exact N | split; [exact H|]]. intros env'.
    apply follow_up_without_frame. exact N. }
  pose proof (findHead_context env fuel (payloadItemName p)) as FH.
  unfold handleAction. rewrite stop_prefix.
  set (w1 := cleared a (stopped rs w)).
  assert (C1 : lastAnalyzedImage w1 = None /\ conversationHistory w1 = []).
  { unfold w1, cleared. destruct a; try congruence; now split. }
  destruct C1 as [N1 H1].
  assert (Kept : forall m : M unit, Frames sameContext m ->
            lastAnalyzedImage (snd (m w1)) = None
            /\ conversationHistory (snd (m w1)) = []).
  { intros m F. destruct (F w1) as [F1 F2]. split; congruence. }
  assert (Analysis : forall apiCall,
            let w' := snd (processAction env rs apiCall true w1) in
            (lastAnalyzedImage w' = None /\ conversationHistory w' = [])
            \/ (appState w' = AWAITING_FOLLOWUP
                /\ exists img, lastAnalyzedImage w' = Some img /\ truthy img = true)).
  { intros apiCall. cbv zeta. unfold processAction.
    destruct (isAnalyzing (r_appState rs) || negb (r_isCameraReady rs));
      [left; now split|].
    unfold captureFrame. js_unfold. cbn.
    destruct (captureFrameResult env (captured w1)) as [img|] eqn:C; cbn;
      [|left; now split].
    destruct (truthy img) eqn:T; cbn; [|left; now split].
    destruct (snd (apiCall img)); cbn; [|left; now split].
    right. split; [reflexivity|]. exists img. now split. }
  destruct a; try congruence;
    try solve [left; apply Empty; apply Kept; open_handlers;
               frames_with flags_leaf].
  - destruct (Analysis (fun img => (EDescribeScene img, describeScene env img)))
      as [[N H] | [S X]]; [left; now apply Empty | right; auto].
  - destruct (Analysis (fun img => (EIdentifyPeople img, identifyPeople env img)))
      as [[N H] | [S X]]; [left; now apply Empty | right; auto].
Qed.

(** The help text, asked for right after a description. *)
Lemma discards_the_follow_up_context_witness :
  let described :=
    set_lastAnalyzedImage (Some "data:image/jpeg;base64,AAAA")
      (set_appState AWAITING_FOLLOWUP ready) in
  let w' := snd (handleAction answering (render described) 1 HELP None described) in
  appState w' = AWAITING_FOLLOWUP
  /\ lastAnalyzedImage w' = None
  /\ filter isListen
       (trace (snd (handleFollowUpQuestion answering (render w') w')))
     = [].
Proof.
  intros described w'.
  assert (NQ : HELP <> ASK_QUESTION) by discriminate.
  pose proof (@every_action_but_a_question_discards_the_follow_up_context
                answering (render described) 1 HELP None described NQ) as H.
  cbv zeta in H. fold w' in H.
  destruct H as [(N & _ & L) | ([A | A] & _)]; try discriminate A.
  split; [reflexivity | split; [exact N|]].
  destruct (L answering) as [_ L2]. rewrite L2. reflexivity.
Defined.


(** *** The commentary button *)






(** *** The item a search is for *)

(** [findingItemName] holds a name. *)
Definition nameShown (w : World) : bool :=
  match findingItemName w with Some _ => true | None => false end.

(** The name is set exactly when the search flag is. *)
Definition Named (w : World) : Prop := nameShown w = isFindingActive w.

Definition keepsNamed : Frame.
Proof.
  refine (@mkFrame (fun w w' => Named w -> Named w') _ _).
  - auto.
  - auto.
Defined.

Ltac named_leaf := unfold Named, nameShown; cbn; auto.

(** The component's functions but the two that write the search flag. *)
Ltac open_but_search :=
  unfold handleSaveItem, handleAskGemini, askGeminiWith, processTerrainAction,
    processAction, handleFollowUpQuestion, handleDeleteItem,
    runLiveCommentary, liveAfterDelay, liveHead, liveAfterAnalysis, checkLive,
    findAfterDelay, findAfterAnalysis, findAfterSpokenDelay,
    checkFinding, stopLiveCommentary, toggleVoiceCommands,
    captureFrame, call, cancel, speak, setAppState, setIsLive,
    setLastResponse, setError, setLastAnalyzedImage, setConversationHistory,
    setPersonalItems, startDelay, emit, when.

Lemma findHead_named (env : Env) (fuel : nat) (item : string) :
  Frames keepsNamed (findHead env fuel item).
Proof.
  induction fuel as [|fuel IH]; cbn [findHead]; open_but_search;
    frames_with named_leaf.
Qed.

Lemma stopObjectFinder_named : Frames keepsNamed stopObjectFinder.
Proof.
  intros w N. unfold stopObjectFinder, when, setFindingItemName, setAppState,
    setLastResponse, cancel, emit. run_head.
  destruct (isFindingActive w); cbv beta iota; run_head; [reflexivity | exact N].
Qed.

Lemma runObjectFinder_named (env : Env) (fuel : nat) (item : string) :
  Frames keepsNamed (runObjectFinder env fuel item).
Proof.
  intros w N. unfold runObjectFinder. rewrite run_read.
  destruct (isFindingActive w) eqn:F; [exact N|].
  unfold setFindingItemName, setAppState, setLastResponse, speak, emit.
  run_head.
  match goal with
  | |- context [bind (findHead env fuel item) ?k ?w0] =>
      assert (K : Frames keepsNamed (bind (findHead env fuel item) k))
        by (apply Frames_bind; [apply findHead_named | intros; apply Frames_ret]);
      apply (K w0)
  end.
  reflexivity.
Qed.

Lemma handleAction_named (env : Env) (rs : Render) (fuel : nat)
    (a : ActionType) (p : option Payload) :
  Frames keepsNamed (handleAction env rs fuel a p).
Proof.
  pose proof stopObjectFinder_named.
  pose proof (runObjectFinder_named env fuel (payloadItemName p)).
  unfold handleAction. open_but_search. frames_with named_leaf.
Qed.

Lemma interpretAndDispatch_named (env : Env) (rs : Render) (fuel : nat)
    (transcript : string) :
  Frames keepsNamed (interpretAndDispatch env rs fuel transcript).
Proof.
  unfold interpretAndDispatch.
  apply Frames_bind; [open_but_search; frames_with named_leaf|].
  intros [[[a|] p]|]; try apply Frames_throw.
  destruct a; try apply handleAction_named;
    [apply Frames_ret | open_but_search; frames_with named_leaf].
Qed.

Lemma handleVoiceCommand_named (env : Env) (fuel : nat) (transcript : string)
    (isFinal : bool) :
  Frames keepsNamed (handleVoiceCommand env fuel transcript isFinal).
Proof.
  pose proof stopObjectFinder_named.
  unfold handleVoiceCommand. apply Frames_bind; [apply Frames_read|].
  intros rs. pose proof (interpretAndDispatch_named env rs fuel transcript).
  cbv zeta. open_but_search. frames_with named_leaf.
Qed.

Lemma Step_named (w w' : World) : Step w w' -> Named w -> Named w'.
Proof.
  intros St. destruct St.
  - apply handleVoiceCommand_named.
  - apply handleAction_named.
  - assert (F : Frames keepsNamed (handleDeleteItem env name))
      by (open_but_search; frames_with named_leaf). apply F.
  - assert (F : Frames keepsNamed toggleVoiceCommands)
      by (open_but_search; frames_with named_leaf). apply F.
  - auto.
  - assert (F : Frames keepsNamed (liveAfterAnalysis r))
      by (open_but_search; frames_with named_leaf). apply F.
  - assert (F : Frames keepsNamed (liveAfterDelay env))
      by (open_but_search; frames_with named_leaf). apply F.
  - assert (F : Frames keepsNamed (findAfterAnalysis item r))
      by (open_but_search; frames_with named_leaf). apply F.
  - assert (F : Frames keepsNamed findAfterSpokenDelay)
      by (open_but_search; frames_with named_leaf). apply F.
  - apply findHead_named.
Qed.

Lemma Reachable_named (items : list PersonalItem) (w : World) :
  Reachable items w -> Named w.
Proof.
  induction 1 as [|w w' _ IH St]; [reflexivity | exact (Step_named St IH)].
Qed.

(** In every state the coordinator can reach, the two pieces of React
    state that shadow the loop flags agree with them: [isLive] is the
    commentary flag, and [findingItemName] holds a name exactly when the
    search flag is set. *)
Theorem loop_flags_and_their_state_agree :
  forall (items : list PersonalItem) (w : World),
    Reachable items w ->
    isLive w = isLiveActive w
    /\ (isFindingActive w = true <-> exists item, findingItemName w = Some item).
Proof.
  intros items w Reach.
  destruct (Reachable_OneLoop Reach) as [I1 _].
  pose proof (Reachable_named Reach) as N. unfold Named, nameShown in N.
  split; [exact I1|].
  destruct (findingItemName w) as [item|]; rewrite <- N; split;
    try discriminate; eauto.
  intros [item E]. discriminate E.
Qed.

(** A search for the keys, started by voice. *)
Lemma loop_flags_witness :
  let env := mkEnv (captureFrameResult answering)
               (fun _ _ _ =>
                  Ok (Some (mkInterpretation (Some FIND_ITEM)
                              (Some (mkPayload (Some "keys") None)))))
               (listenForInput answering) (askGemini answering)
               (describeScene answering) (readTextFromImage answering)
               (identifyPeople answering) (checkForHazards answering)
               (analyzeTerrain answering) (askFollowUpQuestion answering)
               (getHelp answering) (db_saveItem answering)
               (db_getItems answering) (db_deleteItem answering) in
  let w := snd (handleVoiceCommand env 1 "find my keys" true (initial [])) in
  isFindingActive w = true /\ findingItemName w = Some "keys".
Proof.
  intros env w.
  assert (R : Reachable [] w)
    by (eapply reach_step; [apply reach_initial | apply step_transcript]).
  pose proof (@loop_flags_and_their_state_agree [] w R) as [_ [H _]].
  assert (F : isFindingActive w = true) by (vm_compute; reflexivity).
  split; [exact F|]. destruct (H F) as [item E].
  rewrite E. assert (E' : findingItemName w = Some "keys") by (vm_compute; reflexivity).
  congruence.
Defined.


(** *** The pace of the commentary loop *)

(** The commentary loop run on from where it is suspended, through [n]
    resumptions: the analysis in flight settles to what [service] says at
    that point, and a timer that was waited for expires. *)
Fixpoint liveLoop (env : Env) (service : nat -> Res string) (n : nat)
    (pc : LivePc) : M LivePc :=
  match n with
  | O => ret pc
  | S k =>
      match pc with
      | LiveAwaitAnalysis _ =>
          pc' <- liveAfterAnalysis (service k) ;; liveLoop env service k pc'
      | LiveAwaitDelay =>
          pc' <- liveAfterDelay env ;; liveLoop env service k pc'
      | LiveExit => ret LiveExit
      end
  end.

Definition isCapture (e : Effect) : bool :=
  match e with ECaptureFrame => true | _ => false end.

Definition isWait (e : Effect) : bool :=
  match e with ESetTimeout ms => Nat.eqb ms 2000 | _ => false end.

Definition captures (w : World) : nat := length (filter isCapture (trace w)).

Definition waits (w : World) : nat := length (filter isWait (trace w)).

(** A run suspended at the delay may capture once before it waits again. *)
Definition credit (pc : LivePc) : nat :=
  match pc with LiveAwaitDelay => 1 | _ => 0 end.

Ltac count_effects :=
  unfold captures, waits; cbn; rewrite ?filter_app, ?length_app; cbn; lia.

Lemma liveAfterAnalysis_pace (r : Res string) (w : World) :
  exists w1,
    liveAfterAnalysis r w = (Ret LiveAwaitDelay, w1)
    /\ captures w1 = captures w /\ waits w1 = S (waits w).
Proof.
  unfold liveAfterAnalysis, checkLive. js_unfold.
  destruct r as [description|e]; cbn;
    [destruct (isLiveActive w && truthy description); cbn|];
    eexists; (split; [reflexivity | split; count_effects]).
Qed.

Lemma liveHead_pace (env : Env) (w : World) :
  exists pc w1,
    liveHead env w = (Ret pc, w1)
    /\ captures w1 + waits w + credit pc <= captures w + waits w1 + 1.
Proof.
  unfold liveHead, checkLive, captureFrame. js_unfold. cbn.
  destruct (isLiveActive w) eqn:L; cbn; rewrite ?L; cbn;
    [destruct (truthyImage (captureFrameResult env (captured w))); cbn|];
    eexists; eexists; (split; [reflexivity | count_effects]).
Qed.

Lemma liveLoop_pace (env : Env) (service : nat -> Res string) (n : nat) :
  forall (pc : LivePc) (w : World),
    exists pc' w',
      liveLoop env service n pc w = (Ret pc', w')
      /\ captures w' + waits w + credit pc' <= captures w + waits w' + credit pc.
Proof.
  induction n as [|n IH]; intros pc w; cbn [liveLoop].
  - exists pc, w. split; [reflexivity | lia].
  - destruct pc as [img| |].
    + destruct (liveAfterAnalysis_pace (service n) w) as (w1 & E & C & W).
      destruct (IH LiveAwaitDelay w1) as (pc' & w' & E' & P).
      exists pc', w'. unfold bind. rewrite E, E'.
      split; [reflexivity | cbn [credit] in *; lia].
    + destruct (liveHead_pace env w) as (pc1 & w1 & E & P1).
      destruct (IH pc1 w1) as (pc' & w' & E' & P).
      exists pc', w'. unfold bind, liveAfterDelay. rewrite E, E'.
      split; [reflexivity | cbn [credit] in *; lia].
    + exists LiveExit, w. split; [reflexivity | lia].
Qed.

(** However long the commentary loop runs, whatever the camera delivers
    and whatever the analysis service does, each resumption takes it to its
    next [await] or to its exit, without an exception and without spinning,
    and it has never captured more than one frame beyond the number of
    2000 ms waits it has started: no two captures without a wait between
    them. *)
Theorem commentary_loop_waits_between_captures :
  forall (env : Env) (service : nat -> Res string) (n : nat) (w : World),
    let r := liveLoop env service n LiveAwaitDelay w in
    (exists pc, fst r = Ret pc)
    /\ captures (snd r) + waits w <= captures w + waits (snd r) + 1.
Proof.
  intros env service n w.
  destruct (liveLoop_pace env service n LiveAwaitDelay w) as (pc' & w' & E & P).
  cbv zeta. rewrite E. split; [now exists pc' | cbn [fst snd credit] in *; lia].
Qed.


(** *** Item management by voice *)

Lemma stopped_items (rs : Render) (a : ActionType) (w : World) :
  personalItems (cleared a (stopped rs w)) = personalItems w
  /\ resumes (cleared a (stopped rs w)) = resumes w.
Proof.
  assert (P : forall w0, personalItems (snd (universalStop rs w0)) = personalItems w0
                         /\ resumes (snd (universalStop rs w0)) = resumes w0).
  { intros w0. unfold universalStop, stopLiveCommentary, stopObjectFinder, when,
      setIsLive, setFindingItemName, setAppState, setLastResponse, cancel, emit.
    destruct (r_isLive rs); run_head;
      destruct (isLiveActive w0); cbv beta iota; run_head;
      destruct (isFindingActive w0) eqn:F; cbv beta iota; run_head;
      rewrite ?F; cbv beta iota; run_head; unfold ret; cbn;
      unfold resumes; cbn; rewrite ?filter_app, ?length_app; cbn;
      split; (reflexivity || lia). }
  unfold cleared, stopped. destruct (isAskQuestion a); apply P.
Qed.

(** Item management is entered and left by voice.  A command interpreted
    as MANAGE_ITEMS leaves the coordinator MANAGING_ITEMS: the cleanup
    keeps the state the handler has moved to.  A command interpreted as
    CLOSE_MANAGEMENT then takes it to IDLE: the handler tests the state of
    the render the transcript arrived in, which is MANAGING_ITEMS although
    the state has been set to INTERPRETING_COMMAND by then.  The saved
    items are as before, and the resume signal has been given twice. *)
Theorem item_management_opens_and_closes_by_voice :
  forall (env : Env) (fuel : nat) (open close : string) (w : World)
         (p1 p2 : option Payload),
    isStopCommand open = false ->
    isStopCommand close = false ->
    isBusy (appState w) = false ->
    let w1 := snd (handleVoiceCommand env fuel open true w) in
    interpretCommand env open (map item_name (personalItems w)) (appState w)
    = Ok (Some (mkInterpretation (Some MANAGE_ITEMS) p1)) ->
    interpretCommand env close (map item_name (personalItems w)) MANAGING_ITEMS
    = Ok (Some (mkInterpretation (Some CLOSE_MANAGEMENT) p2)) ->
    let w2 := snd (handleVoiceCommand env fuel close true w1) in
    appState w1 = MANAGING_ITEMS
    /\ appState w2 = IDLE
    /\ personalItems w2 = personalItems w
    /\ resumes w2 = S (S (resumes w)).
Proof.
  intros env fuel open close w p1 p2 S1 S2 Busy w1 I1 I2 w2.
  assert (Open : appState w1 = MANAGING_ITEMS
                 /\ personalItems w1 = personalItems w
                 /\ resumes w1 = S (resumes w)).
  { unfold w1.
    rewrite (@handleVoiceCommand_command_path env fuel open w S1 Busy).
    cbv zeta. unfold interpretAndDispatch, call, emit. rewrite run_assoc.
    run_head. rewrite I1. rewrite run_ret.
    unfold handleAction. rewrite stop_prefix.
    match goal with
    | |- context [cleared MANAGE_ITEMS (stopped ?rs ?w0)] =>
        destruct (stopped_items rs MANAGE_ITEMS w0) as [P R];
        set (w3 := cleared MANAGE_ITEMS (stopped rs w0)) in *
    end.
    unfold setAppState, setLastResponse, speak, emit. run_head.
    unfold modify, cleanedUp, resumes in *. cbn in *.
    rewrite ?filter_app, ?length_app in *. cbn in *.
    rewrite P. split; [reflexivity | split; [reflexivity | lia]]. }
  destruct Open as (A1 & P1 & R1). clearbody w1. clear S1 I1.
  assert (Busy1 : isBusy (appState w1) = false) by now rewrite A1.
  split; [exact A1|].
  unfold w2. clear w2.
  rewrite (@handleVoiceCommand_command_path env fuel close w1 S2 Busy1).
  clear S2.
  cbv zeta. unfold interpretAndDispatch, call, emit. rewrite run_assoc.
  run_head. rewrite A1, P1, I2. rewrite run_ret.
  unfold handleAction. rewrite stop_prefix. fields. rewrite A1.
  cbn [isManaging when].
  match goal with
  | |- context [cleared CLOSE_MANAGEMENT (stopped ?rs ?w0)] =>
      destruct (stopped_items rs CLOSE_MANAGEMENT w0) as [P R];
      set (w3 := cleared CLOSE_MANAGEMENT (stopped rs w0)) in *
  end.
  unfold setAppState, setLastResponse, cancel, emit. run_head.
  unfold modify, cleanedUp, resumes in *. cbn in *.
  rewrite ?filter_app, ?length_app in *. cbn in *.
  rewrite P, P1. split; [reflexivity | split; [reflexivity | lia]].
Qed.


(** The item list opened and closed again, with an interpreter that knows
    the two commands. *)
Lemma item_management_witness :
  let env := mkEnv (captureFrameResult answering)
               (fun _ _ st =>
                  if isManaging st
                  then Ok (Some (mkInterpretation (Some CLOSE_MANAGEMENT) None))
                  else Ok (Some (mkInterpretation (Some MANAGE_ITEMS) None)))
               (listenForInput answering) (askGemini answering)
               (describeScene answering) (readTextFromImage answering)
               (identifyPeople answering) (checkForHazards answering)
               (analyzeTerrain answering) (askFollowUpQuestion answering)
               (getHelp answering) (db_saveItem answering)
               (db_getItems answering) (db_deleteItem answering) in
  let w1 := snd (handleVoiceCommand env 1 "manage my items" true ready) in
  let w2 := snd (handleVoiceCommand env 1 "close the list" true w1) in
  appState w1 = MANAGING_ITEMS /\ appState w2 = IDLE.
Proof.
  intros env w1 w2.
  assert (S1 : isStopCommand "manage my items" = false) by reflexivity.
  assert (S2 : isStopCommand "close the list" = false) by reflexivity.
  assert (B : isBusy (appState ready) = false) by reflexivity.
  assert (I1 : interpretCommand env "manage my items"
                 (map item_name (personalItems ready)) (appState ready)
               = Ok (Some (mkInterpretation (Some MANAGE_ITEMS) None)))
    by reflexivity.
  assert (I2 : interpretCommand env "close the list"
                 (map item_name (personalItems ready)) MANAGING_ITEMS
               = Ok (Some (mkInterpretation (Some CLOSE_MANAGEMENT) None)))
    by reflexivity.
  pose proof (@item_management_opens_and_closes_by_voice env 1
                "manage my items" "close the list" ready None None
                S1 S2 B I1 I2) as H.
  cbv zeta in H. destruct H as (H1 & H2 & _).
  split; [exact H1 | exact H2].
Defined.

End AppMore.
